(** * Convex-hull STL batch generator: a shallow embedding

    This development models [generate_convex.py]: the single-file
    transform [generate_convex_stl] and the directory-level driver
    [batch_convex_hull_generation].

    The script is a pipeline over library calls.  The libraries are
    modelled after their CPython / NumPy sources:
    - [str] as byte strings (UTF-8): concatenation, comparison and the
      test [lower() == ".stl"] agree with Python's on code points;
    - [posixpath], [os] and [pathlib] (CPython 3.12, POSIX flavour);
    - the file system as a finite map from absolute locations to nodes,
      without symbolic links and without permissions;
    - [float32] coordinates as their IEEE-754 bit patterns;
    - [numpy.unique(..., axis=0)]: sort the rows, keep each row that
      differs from its predecessor;
    - numpy-stl: a file is its geometry; [Mesh.save] drops an [IOError];
    - [scipy.spatial.ConvexHull] and the comparison sort behind
      [ndarray.sort] stay parameters of the model. *)

From Stdlib Require Import ZArith Ascii String Lia Permutation.
From stdpp Require Import gmap strings sorting list lexico.

Local Open Scope Z_scope.

(** ** Exceptions *)

Inductive exn :=
  | FileNotFoundError
  | FileExistsError
  | NotADirectoryError
  | IsADirectoryError
  | IndexError
  | StlReadError
  | RecursionError.

(** ** Python strings *)

Module Str.

Definition slash : ascii := "/"%char.
Definition dot : ascii := "."%char.

Definition nonempty (s : string) : bool :=
  match s with
  | EmptyString => false
  | String _ _ => true
  end.

(** [s.split("/")] *)
Fixpoint split_slash (s : string) : list string :=
  match s with
  | EmptyString => [EmptyString]
  | String c r =>
      if Ascii.eqb c slash then EmptyString :: split_slash r
      else match split_slash r with
           | [] => [String c EmptyString]
           | h :: t => String c h :: t
           end
  end.

(** ["/".join(l)] *)
Fixpoint join_slash (l : list string) : string :=
  match l with
  | [] => EmptyString
  | [x] => x
  | x :: r => x +:+ String slash (join_slash r)
  end.

(** [(s[:i], s[i:])] with [i = s.rfind("/") + 1] *)
Fixpoint rsplit_slash (s : string) : string * string :=
  match s with
  | EmptyString => (EmptyString, EmptyString)
  | String c r =>
      let '(h, t) := rsplit_slash r in
      if nonempty h then (String c h, t)
      else if Ascii.eqb c slash then (String c EmptyString, r)
      else (EmptyString, String c r)
  end.

(** [s.rstrip("/")] *)
Fixpoint rstrip_slash (s : string) : string :=
  match s with
  | EmptyString => EmptyString
  | String c r =>
      let r' := rstrip_slash r in
      if negb (nonempty r') && Ascii.eqb c slash then EmptyString
      else String c r'
  end.

(** [(s[:i], s[i:])] with [i = s.rfind(".")], [None] when [i = -1] *)
Fixpoint rpartition_dot (s : string) : option (string * string) :=
  match s with
  | EmptyString => None
  | String c r =>
      match rpartition_dot r with
      | Some (h, t) => Some (String c h, t)
      | None => if Ascii.eqb c dot then Some (EmptyString, String c r) else None
      end
  end.

Definition lower_ascii (c : ascii) : ascii :=
  let n := nat_of_ascii c in
  if (65 <=? n)%nat && (n <=? 90)%nat then ascii_of_nat (n + 32) else c.

(** [s.lower()] *)
Fixpoint lower (s : string) : string :=
  match s with
  | EmptyString => EmptyString
  | String c r => String (lower_ascii c) (lower r)
  end.

(** [s.startswith("/")] and [s.endswith("/")] *)
Definition startswith_slash (s : string) : bool :=
  match s with
  | String c _ => Ascii.eqb c slash
  | EmptyString => false
  end.

Fixpoint endswith_slash (s : string) : bool :=
  match s with
  | EmptyString => false
  | String c EmptyString => Ascii.eqb c slash
  | String _ r => endswith_slash r
  end.

(** ["/" in s] *)
Fixpoint has_slash (s : string) : bool :=
  match s with
  | EmptyString => false
  | String c r => Ascii.eqb c slash || has_slash r
  end.

(** Python compares lists of strings lexicographically. *)
Fixpoint list_compare (l1 l2 : list string) : comparison :=
  match l1, l2 with
  | [], [] => Eq
  | [], _ :: _ => Lt
  | _ :: _, [] => Gt
  | x :: r1, y :: r2 =>
      match String.compare x y with
      | Eq => list_compare r1 r2
      | c => c
      end
  end.

End Str.

(** ** posixpath *)

Module posixpath.

(** [posixpath.split] *)
Definition split (p : string) : string * string :=
  let '(head, tail) := Str.rsplit_slash p in
  if Str.nonempty (Str.rstrip_slash head) then (Str.rstrip_slash head, tail)
  else (head, tail).

Definition dirname (p : string) : string := fst (split p).

(** [posixpath.join(a, b)] *)
Definition join (a b : string) : string :=
  if Str.startswith_slash b then b
  else if negb (Str.nonempty a) || Str.endswith_slash a then a +:+ b
  else a +:+ String Str.slash b.

(** The root of [posixpath.splitroot]: two leading slashes are kept,
    three or more collapse to one. *)
Definition root_of (p : string) : string :=
  match p with
  | String c1 r1 =>
      if Ascii.eqb c1 Str.slash then
        match r1 with
        | String c2 r2 =>
            if Ascii.eqb c2 Str.slash then
              if Str.startswith_slash r2 then "/" else "//"
            else "/"
        | EmptyString => "/"
        end
      else ""
  | EmptyString => ""
  end.

End posixpath.

(** ** float32 coordinates and meshes *)

Module F32.

(** A [float32] is its IEEE-754 bit pattern: bit 31 is the sign, bits
    30..23 the exponent, bits 22..0 the fraction. *)
Definition t := Z.

Definition magnitude (b : t) : Z := Z.land b 2147483647.
Definition sign (b : t) : bool := Z.testbit b 31.
Definition is_nan (b : t) : bool := 2139095040 <? magnitude b.

(** Numeric rank of a number that is not a NaN; both zeros rank 0. *)
Definition key (b : t) : Z := if sign b then - magnitude b else magnitude b.

(** C's [a < b] and [a == b] *)
Definition ltb (a b : t) : bool :=
  negb (is_nan a) && negb (is_nan b) && (key a <? key b).
Definition eqb (a b : t) : bool :=
  negb (is_nan a) && negb (is_nan b) && (key a =? key b).

(** NumPy's [FLOAT_compare]: [LT(a,b)] is [a < b || (b != b && a == a)],
    so NaNs sort last and compare equal to each other. *)
Definition np_LT (a b : t) : bool := ltb a b || (negb (eqb b b) && eqb a a).
Definition compare (a b : t) : comparison :=
  if np_LT a b then Lt else if np_LT b a then Gt else Eq.

(** The place of a value in the order of [compare]; NaNs come last. *)
Definition rank (b : t) : Z := if is_nan b then 2147483648 else key b.

End F32.

Definition point : Type := F32.t * F32.t * F32.t.
Definition triangle : Type := point * point * point.

(** [Mesh.vectors], an array of shape (n, 3, 3) *)
Definition mesh : Type := list triangle.

(** [vectors.reshape(-1, 3)] *)
Definition reshape (m : mesh) : list point :=
  flat_map (fun t : triangle => let '(a, b, c) := t in [a; b; c]) m.

(** NumPy's [VOID_compare] on the rows seen as records of three fields *)
Definition row_compare (p q : point) : comparison :=
  let '(x1, y1, z1) := p in
  let '(x2, y2, z2) := q in
  match F32.compare x1 x2 with
  | Eq => match F32.compare y1 y2 with
          | Eq => F32.compare z1 z2
          | c => c
          end
  | c => c
  end.

Definition row_le (p q : point) : Prop := row_compare p q ≠ Gt.

(** [==] on records: every field is equal *)
Definition row_eqb (p q : point) : bool :=
  let '(x1, y1, z1) := p in
  let '(x2, y2, z2) := q in
  F32.eqb x1 x2 && F32.eqb y1 y2 && F32.eqb z1 z2.

Definition row_has_nan (p : point) : bool :=
  let '(x, y, z) := p in F32.is_nan x || F32.is_nan y || F32.is_nan z.

Definition row_rank (p : point) : Z * Z * Z :=
  let '(x, y, z) := p in (F32.rank x, F32.rank y, F32.rank z).

(** [p] stands strictly before [q] in the order of [row_compare]. *)
Definition row_lt (p q : point) : Prop := row_compare p q = Lt.

(** The vertices of a triangle *)
Definition corners (t : triangle) : list point :=
  let '(a, b, c) := t in [a; b; c].

(** [mask[1:] = aux[1:] != aux[:-1]] followed by [aux[mask]] *)
Fixpoint mask_from (prev : point) (aux : list point) : list point :=
  match aux with
  | [] => []
  | x :: r => if row_eqb x prev then mask_from x r else x :: mask_from x r
  end.

Definition keep_changes (aux : list point) : list point :=
  match aux with
  | [] => []
  | x :: r => x :: mask_from x r
  end.

(** Insertion sort on rows, an instance of the sort NumPy may run. *)
Fixpoint row_insert (x : point) (l : list point) : list point :=
  match l with
  | [] => [x]
  | y :: r => if decide (row_compare x y = Gt) then y :: row_insert x r else x :: y :: r
  end.

Fixpoint row_isort (l : list point) : list point :=
  match l with
  | [] => []
  | x :: r => row_insert x (row_isort r)
  end.

(** [a[i]] for an integer [i]: negative indices count from the end. *)
Definition np_getitem (a : list point) (i : Z) : option point :=
  let n := Z.of_nat (length a) in
  if (0 <=? i) && (i <? n) then a !! Z.to_nat i
  else if (- n <=? i) && (i <? 0) then a !! Z.to_nat (i + n)
  else None.

(** A facet of [hull.simplices]: three indices into the points *)
Definition simplex : Type := Z * Z * Z.

(** ** The world: file system and standard output *)

Inductive file_data :=
  | Stl (triangles : mesh)   (* a file numpy-stl loads, with its geometry *)
  | NotStl.                  (* any other content *)

Inductive node :=
  | Dir
  | File (data : file_data).

(** One constructor for each line the script prints, with the values
    its f-string shows *)
Inductive log_line :=
  | WARN_file_not_found (input : string)
  | INFO_loaded (input : string) (triangles : nat)
  | WARN_not_enough_vertices (input : string)
  | ERROR_hull_failed (input : string) (cause : string)
  | INFO_saved (output : string)
  | WARN_no_stl_files (input_dir : string)
  | INFO_found (count : nat) (input_dir : string).

(** A location is the list of names from the root to a node. *)
Definition location : Type := list string.

Record world := World {
  cwd : location;
  fs : gmap location node;
  stdout : list log_line
}.

Inductive outcome (A : Type) :=
  | Ok (a : A) (w : world)
  | Raise (e : exn) (w : world).
Arguments Ok {A} a w.
Arguments Raise {A} e w.

(** Computations read and change the world and may raise; what was
    done before an exception stays done. *)
Definition M (A : Type) : Type := world → outcome A.

Definition ret {A} (a : A) : M A := fun w => Ok a w.
Definition raise {A} (e : exn) : M A := fun w => Raise e w.
Definition bind {A B} (c : M A) (k : A → M B) : M B := fun w =>
  match c w with
  | Ok a w' => k a w'
  | Raise e w' => Raise e w'
  end.
Definition ask {A} (f : world → A) : M A := fun w => Ok (f w) w.

(** [try: c  except FileExistsError: pass] *)
Definition pass_FileExistsError (c : M unit) : M unit := fun w =>
  match c w with
  | Raise FileExistsError w' => Ok tt w'
  | r => r
  end.

Notation "'let*' x ':=' c 'in' k" := (bind c (fun x => k))
  (at level 10, x name, c at level 100, k at level 200).
Notation "c1 ;; c2" := (bind c1 (fun _ => c2))
  (at level 100, c2 at level 200, right associativity).

Definition logged (l : log_line) (w : world) : world :=
  {| cwd := cwd w; fs := fs w; stdout := stdout w ++ [l] |}.

Definition with_node (loc : location) (n : node) (w : world) : world :=
  {| cwd := cwd w; fs := <[loc := n]> (fs w); stdout := stdout w |}.

Definition print (l : log_line) : M unit := fun w => Ok tt (logged l w).

Definition set_node (loc : location) (n : node) : M unit := fun w =>
  Ok tt (with_node loc n w).

(** ** The operating system *)

Module os.

Definition step (cur : location) (c : string) : location :=
  if String.eqb c "" || String.eqb c "." then cur
  else if String.eqb c ".." then removelast cur
  else cur ++ [c].

(** Path resolution: every component is looked up in a directory. *)
Fixpoint walk (m : gmap location node) (cur : location) (comps : list string)
    : exn + location :=
  match comps with
  | [] => inr cur
  | c :: rest =>
      match m !! cur with
      | None => inl FileNotFoundError
      | Some (File _) => inl NotADirectoryError
      | Some Dir => walk m (step cur c) rest
      end
  end.

Definition resolve (w : world) (path : string) : exn + location :=
  if Str.nonempty path then
    walk (fs w) (if Str.startswith_slash path then [] else cwd w)
         (Str.split_slash path)
  else inl FileNotFoundError.

Definition stat (w : world) (path : string) : option node :=
  match resolve w path with
  | inr loc => fs w !! loc
  | inl _ => None
  end.

(** [os.path.exists], [os.path.isfile], [os.path.isdir] *)
Definition path_exists (w : world) (path : string) : bool :=
  match stat w path with Some _ => true | None => false end.
Definition path_isfile (w : world) (path : string) : bool :=
  match stat w path with Some (File _) => true | _ => false end.
Definition path_isdir (w : world) (path : string) : bool :=
  match stat w path with Some Dir => true | _ => false end.

(** [os.mkdir(path)] *)
Definition mkdir (path : string) : M unit := fun w =>
  match resolve w path with
  | inl e => Raise e w
  | inr loc =>
      match fs w !! loc with
      | Some _ => Raise FileExistsError w
      | None => set_node loc Dir w
      end
  end.

(** The name of an entry that lies directly below [loc] *)
Definition child_name (loc : location) (entry : location * node) : option string :=
  match reverse (fst entry) with
  | n :: rparent => if decide (reverse rparent = loc) then Some n else None
  | [] => None
  end.

(** [os.listdir(path)]: the names below the directory, in the order the
    map lists them; the script sorts what it keeps. *)
Definition listdir (path : string) : M (list string) := fun w =>
  match resolve w path with
  | inl e => Raise e w
  | inr loc =>
      match fs w !! loc with
      | None => Raise FileNotFoundError w
      | Some (File _) => Raise NotADirectoryError w
      | Some Dir => Ok (omap (child_name loc) (map_to_list (fs w))) w
      end
  end.

(** [open(path, "wb")] followed by writing the data *)
Definition write_file (path : string) (data : file_data) : M unit := fun w =>
  match resolve w path with
  | inl e => Raise e w
  | inr loc =>
      match fs w !! loc with
      | Some Dir => Raise IsADirectoryError w
      | _ => set_node loc (File data) w
      end
  end.

(** [open(path, "rb")] followed by reading the data *)
Definition read_file (path : string) : M file_data := fun w =>
  match resolve w path with
  | inl e => Raise e w
  | inr loc =>
      match fs w !! loc with
      | None => Raise FileNotFoundError w
      | Some Dir => Raise IsADirectoryError w
      | Some (File d) => Ok d w
      end
  end.

(** [os.makedirs(name, exist_ok=True)].  Each recursive call is on a
    proper prefix of [name]; [fuel] bounds the depth. *)
Fixpoint makedirs_fuel (fuel : nat) (name : string) : M unit :=
  match fuel with
  | O => raise RecursionError
  | S fuel' =>
      let '(head, tail) := posixpath.split name in
      let '(head, tail) :=
        if Str.nonempty tail then (head, tail) else posixpath.split head in
      let make_leaf : M unit := fun w =>
        match mkdir name w with
        | Raise e w' => if path_isdir w' name then Ok tt w' else Raise e w'
        | r => r
        end in
      let* missing := ask (fun w => negb (path_exists w head)) in
      if Str.nonempty head && Str.nonempty tail && missing then
        pass_FileExistsError (makedirs_fuel fuel' head) ;;
        if String.eqb tail "." then ret tt else make_leaf
      else make_leaf
  end.

Definition makedirs (name : string) : M unit :=
  makedirs_fuel (S (String.length name)) name.

End os.

(** ** pathlib *)

Module pathlib.

(** A path object is kept as [str(p)], its normal form: the root, then
    the components joined by single slashes, ["."] when both are empty. *)
Record PosixPath := { path_str : string }.

Definition keep (c : string) : bool := Str.nonempty c && negb (String.eqb c ".").

Definition tail_of (s : string) : list string :=
  List.filter keep (Str.split_slash s).

Definition format (root : string) (tail : list string) : string :=
  let s := root +:+ Str.join_slash tail in
  if Str.nonempty s then s else ".".

(** [Path(s)] *)
Definition Path (s : string) : PosixPath :=
  {| path_str := format (posixpath.root_of s) (tail_of s) |}.

Definition root (p : PosixPath) : string := posixpath.root_of (path_str p).
Definition tail (p : PosixPath) : list string := tail_of (path_str p).

(** [p / key] *)
Definition truediv (p : PosixPath) (key : string) : PosixPath :=
  Path (posixpath.join (path_str p) key).

(** [p.name], [p.suffix], [p.stem] *)
Definition name (p : PosixPath) : string := List.last (tail p) "".

Definition suffix_of_name (n : string) : string :=
  match Str.rpartition_dot n with
  | Some (h, t) => if Str.nonempty h && (1 <? String.length t)%nat then t else ""
  | None => ""
  end.

Definition stem_of_name (n : string) : string :=
  match Str.rpartition_dot n with
  | Some (h, t) => if Str.nonempty h && (1 <? String.length t)%nat then h else n
  | None => n
  end.

Definition suffix (p : PosixPath) : string := suffix_of_name (name p).
Definition stem (p : PosixPath) : string := stem_of_name (name p).

(** [p._make_child_relpath(name)], the paths [iterdir] yields *)
Definition make_child_relpath (p : PosixPath) (n : string) : PosixPath :=
  {| path_str :=
       match tail p with
       | _ :: _ => path_str p +:+ String Str.slash n
       | [] => if String.eqb (path_str p) "." then n else path_str p +:+ n
       end |}.

(** [p.iterdir()] *)
Definition iterdir (p : PosixPath) : M (list PosixPath) :=
  let* names := os.listdir (path_str p) in
  ret (map (make_child_relpath p) names).

(** [p.mkdir(parents=True, exist_ok=True)], by recursion on the
    reversed components: the parent drops the last one. *)
Fixpoint mkdir_from (r : string) (rtail : list string) : M unit :=
  let p := format r (reverse rtail) in
  let tolerate_existing (e : exn) : M unit := fun w =>
    if os.path_isdir w p then Ok tt w else Raise e w in
  fun w =>
    match os.mkdir p w with
    | Ok _ w' => Ok tt w'
    | Raise FileNotFoundError w' =>
        match rtail with
        | [] => Raise FileNotFoundError w'
        | _ :: rparent =>
            (mkdir_from r rparent ;;
             fun w1 =>
               match os.mkdir p w1 with
               | Ok _ w2 => Ok tt w2
               | Raise FileNotFoundError w2 => Raise FileNotFoundError w2
               | Raise e w2 => tolerate_existing e w2
               end) w'
        end
    | Raise e w' => tolerate_existing e w'
    end.

Definition mkdir (p : PosixPath) : M unit :=
  mkdir_from (root p) (reverse (tail p)).

(** [p < q] compares [str(p).split("/")] with [str(q).split("/")]. *)
Definition parts_normcase (p : PosixPath) : list string :=
  Str.split_slash (path_str p).

Definition ltb (p q : PosixPath) : bool :=
  match Str.list_compare (parts_normcase p) (parts_normcase q) with
  | Lt => true
  | _ => false
  end.

(** [p] may stand before [q] in a sorted list. *)
Definition le (p q : PosixPath) : Prop := ltb q p = false.

Global Instance le_dec : RelDecision le.
Proof. intros p q. unfold le. apply _. Defined.

(** [sorted(paths)] *)
Definition sorted (l : list PosixPath) : list PosixPath := merge_sort le l.

End pathlib.

(** ** numpy-stl *)

Module stl.

(** [mesh.Mesh.from_file(path)] *)
Definition from_file (path : string) : M mesh :=
  let* d := os.read_file path in
  match d with
  | Stl m => ret m
  | NotStl => raise StlReadError
  end.

(** [m.save(path)] opens the file inside [try: ... except IOError:
    pass]: a file that cannot be opened is silently not written.  The
    geometry of a written file is the one read back. *)
Definition save (m : mesh) (path : string) : M unit := fun w =>
  match os.write_file path (Stl m) w with
  | Raise _ w' => Ok tt w'
  | r => r
  end.

End stl.

(** ** generate_convex.py *)

Definition facet (vertices : list point) (s : simplex) : option triangle :=
  let '(i, j, k) := s in
  a ← np_getitem vertices i;
  b ← np_getitem vertices j;
  c ← np_getitem vertices k;
  Some (a, b, c).

(** The loop [convex_mesh.vectors[i] = vertices[simplex]] *)
Definition fill_vectors (vertices : list point) (simplices : list simplex) : M mesh :=
  match mapM (facet vertices) simplices with
  | Some m => ret m
  | None => raise IndexError
  end.

Definition default_suffix : string := ".stl.convex".

Module generate_convex.
Section Script.

(** The comparison sort behind [ndarray.sort] and the hull library. *)
Variable np_sort : list point → list point.
Variable ConvexHull : list point → string + list simplex.

(** [np.unique(rows, axis=0)] *)
Definition np_unique (rows : list point) : list point :=
  keep_changes (np_sort rows).

(** The two paths are strings already: [str(...)] leaves them as they are. *)
Definition generate_convex_stl (input_stl_path output_stl_path : string) : M unit :=
  let* found := ask (fun w => os.path_isfile w input_stl_path) in
  if negb found then print (WARN_file_not_found input_stl_path)
  else
    let* original_mesh := stl.from_file input_stl_path in
    print (INFO_loaded input_stl_path (length original_mesh)) ;;
    let vertices := np_unique (reshape original_mesh) in
    if (length vertices <? 4)%nat then
      print (WARN_not_enough_vertices input_stl_path)
    else
      match ConvexHull vertices with
      | inl e => print (ERROR_hull_failed input_stl_path e)
      | inr convex_triangles =>
          let* convex_mesh := fill_vectors vertices convex_triangles in
          os.makedirs (posixpath.dirname output_stl_path) ;;
          stl.save convex_mesh output_stl_path ;;
          print (INFO_saved output_stl_path)
      end.

Definition is_stl (p : pathlib.PosixPath) : bool :=
  String.eqb (Str.lower (pathlib.suffix p)) ".stl".

Definition out_name (in_path : pathlib.PosixPath) (suffix : string) : string :=
  pathlib.stem in_path +:+ suffix +:+ ".stl".

Definition out_path (output_dir in_path : pathlib.PosixPath) (suffix : string)
    : pathlib.PosixPath :=
  pathlib.truediv output_dir (out_name in_path suffix).

(** The body of [for in_path in stl_files] *)
Fixpoint for_each_file (output_dir : pathlib.PosixPath) (suffix : string)
    (stl_files : list pathlib.PosixPath) : M unit :=
  match stl_files with
  | [] => ret tt
  | in_path :: rest =>
      generate_convex_stl (pathlib.path_str in_path)
        (pathlib.path_str (out_path output_dir in_path suffix)) ;;
      for_each_file output_dir suffix rest
  end.

(** Lines 74 to 85: scan, report, convert each file. *)
Definition scan_and_convert (input_dir output_dir : pathlib.PosixPath)
    (suffix : string) : M unit :=
  let* entries := pathlib.iterdir input_dir in
  let stl_files := pathlib.sorted (List.filter is_stl entries) in
  match stl_files with
  | [] => print (WARN_no_stl_files (pathlib.path_str input_dir))
  | _ :: _ =>
      print (INFO_found (length stl_files) (pathlib.path_str input_dir)) ;;
      for_each_file output_dir suffix stl_files
  end.

Definition output_dir_of (input_directory : string) (output_directory : option string)
    : pathlib.PosixPath :=
  match output_directory with
  | None => pathlib.Path input_directory
  | Some d => pathlib.Path d
  end.

(** An omitted [suffix] takes the default of the signature. *)
Definition batch_convex_hull_generation (input_directory : string)
    (output_directory : option string) (suffix : option string) : M unit :=
  let suffix := default default_suffix suffix in
  let input_dir := pathlib.Path input_directory in
  let output_dir := output_dir_of input_directory output_directory in
  pathlib.mkdir output_dir ;;
  scan_and_convert input_dir output_dir suffix.

End Script.
End generate_convex.
Import generate_convex.

(** Decidable forms of the conditions on meshes. *)

Definition nan_free (m : mesh) : bool :=
  forallb (fun p => negb (row_has_nan p)) (reshape m).

(** Every vertex of [m1] equals, as floats, a vertex of [m2]. *)
Definition covers (m1 m2 : mesh) : bool :=
  forallb (fun p => existsb (row_eqb p) (reshape m2)) (reshape m1).

Definition same_vertex_set (m1 m2 : mesh) : bool := covers m1 m2 && covers m2 m1.

(** ** Sample data *)

Module Sample.

(** 0.0, 1.0 and a quiet NaN *)
Definition zero : F32.t := 0.
Definition one : F32.t := 1065353216.
Definition nan : F32.t := 2143289344.

Definition pO : point := (zero, zero, zero).
Definition pX : point := (one, zero, zero).
Definition pY : point := (zero, one, zero).
Definition pZ : point := (zero, zero, one).
Definition pN : point := (nan, zero, zero).

Definition tetra : mesh := [(pO, pX, pY); (pO, pX, pZ); (pO, pY, pZ); (pX, pY, pZ)].
Definition tetra' : mesh := [(pX, pY, pZ); (pO, pY, pZ); (pX, pY, pZ); (pO, pX, pY)].
Definition flat : mesh := [(pO, pX, pY)].
Definition square : mesh := [(pO, pX, pY); (pX, pY, (one, one, zero))].
Definition nan_mesh : mesh := [(pN, pN, pN)].

(** A stand-in for the hull library: it fails on points of one
    z-plane and else returns the four facets of the first four points. *)
Definition hull (vs : list point) : string + list simplex :=
  match vs with
  | (_, _, z0) :: _ =>
      if forallb (fun p : point => F32.eqb (snd p) z0) vs
      then inl "QH6154 Qhull precision error: initial simplex is flat"
      else inr [(0, 1, 2); (0, 1, 3); (0, 2, 3); (1, 2, 3)]
  | [] => inl "No points given"
  end.

Definition files : gmap location node :=
  list_to_map [
    ([], Dir);
    (["work"], Dir);
    (["work"; "cube.stl"], File (Stl tetra));
    (["work"; "flat.STL"], File (Stl flat));
    (["work"; "square.stl"], File (Stl square));
    (["work"; "notes.txt"], File NotStl);
    (["empty"], Dir);
    (["empty"; "readme.md"], File NotStl)
  ].

Definition w0 : world := {| cwd := ["work"]; fs := files; stdout := [] |}.

(** The world a computation leaves behind *)
Definition after {A} (c : M A) (w : world) : world :=
  match c w with
  | Ok _ w' => w'
  | Raise _ w' => w'
  end.

Definition convert := generate_convex_stl row_isort hull.
Definition batch := batch_convex_hull_generation row_isort hull.

(** [w0] after converting [cube.stl] once, and twice *)
Definition w1 : world := after (convert "cube.stl" "out/cube_convex.stl") w0.
Definition w2 : world := after (convert "cube.stl" "out/cube_convex.stl") w1.

(** The path the scanner yields for [/work/cube.stl] *)
Definition cube_path : pathlib.PosixPath :=
  pathlib.make_child_relpath (pathlib.Path "/work") "cube.stl".

End Sample.

(** ** Predicates of the statements *)

Definition is_root (r : string) : Prop := r = "" ∨ r = "/" ∨ r = "//".

(** A component of a parsed path: not empty, not ["."], without slash. *)
Definition component (c : string) : Prop :=
  pathlib.keep c = true ∧ Str.has_slash c = false.

(** Worlds with the same files, working directory and output. *)
Definition same_files (w w' : world) : Prop :=
  cwd w' = cwd w ∧ stdout w' = stdout w ∧
  ∀ loc d, fs w' !! loc = Some (File d) ↔ fs w !! loc = Some (File d).

(** The world an outcome leaves behind *)
Definition final {A} (r : outcome A) : world :=
  match r with
  | Ok _ w => w
  | Raise _ w => w
  end.

(** A name a directory can hold *)
Definition entry_name (n : string) : Prop := component n ∧ n ≠ "..".

(** [w'] is [w] with more directories and nothing else changed. *)
Definition more_dirs (w w' : world) : Prop :=
  cwd w' = cwd w ∧ stdout w' = stdout w ∧
  (∀ loc n, fs w !! loc = Some n → fs w' !! loc = Some n) ∧
  (∀ loc d, fs w' !! loc = Some (File d) → fs w !! loc = Some (File d)).

(** Every node of [w] is still in [w'], a directory as a directory and a
    file as a file; the output of [w] is the start of that of [w']. *)
Definition keeps_nodes (w w' : world) : Prop :=
  cwd w' = cwd w ∧
  (∃ lines, stdout w' = stdout w ++ lines) ∧
  (∀ loc, fs w !! loc = Some Dir → fs w' !! loc = Some Dir) ∧
  (∀ loc d, fs w !! loc = Some (File d) → ∃ d', fs w' !! loc = Some (File d')).

(** Between [w] and [w'] nothing was removed, directories may have been
    added, and the only file written, new or replaced, is the one [output]
    names in [w'], which then holds an STL mesh. *)
Definition only_output_changed (output : string) (w w' : world) : Prop :=
  cwd w' = cwd w ∧
  (∃ lines, stdout w' = stdout w ++ lines) ∧
  (∀ loc, fs w !! loc = Some Dir → fs w' !! loc = Some Dir) ∧
  (∀ loc d, fs w !! loc = Some (File d) →
            fs w' !! loc = Some (File d) ∨
            (os.resolve w' output = inr loc ∧ ∃ g, fs w' !! loc = Some (File (Stl g)))) ∧
  (∀ loc d, fs w' !! loc = Some (File d) →
            fs w !! loc = Some (File d) ∨
            (os.resolve w' output = inr loc ∧ ∃ g, d = Stl g)).

(** Where resolution starts: at the root for an absolute path. *)
Definition start_of (w : world) (path : string) : location :=
  if Str.startswith_slash path then [] else cwd w.

(** Two more worlds: the sample world with a directory named like an
    STL file, and with an STL file that cannot be read. *)
Definition w_parts : world := with_node ["work"; "parts.stl"] Dir Sample.w0.
Definition w_broken : world :=
  with_node ["work"; "broken.stl"] (File NotStl) Sample.w0.



(** An index NumPy accepts for an array of [n] rows *)
Definition index_ok (n : nat) (i : Z) : bool :=
  (- Z.of_nat n <=? i) && (i <? Z.of_nat n).

Definition simplex_ok (n : nat) (s : simplex) : bool :=
  let '(i, j, k) := s in index_ok n i && index_ok n j && index_ok n k.

(** * Properties *)

(** ** Strings *)

Lemma app_cons (a : ascii) (s t : string) : String a s +:+ t = String a (s +:+ t).
Proof. reflexivity. Qed.

Lemma app_nil_l (t : string) : "" +:+ t = t.
Proof. reflexivity. Qed.

Lemma app_nil_r (s : string) : s +:+ "" = s.
Proof. induction s as [|a s IH]; [done|]. by rewrite app_cons, IH. Qed.

Lemma app_assoc_str (s t u : string) : (s +:+ t) +:+ u = s +:+ (t +:+ u).
Proof. induction s as [|a s IH]; [done|]. by rewrite !app_cons, IH. Qed.

Lemma app_length_str (s t : string) :
  String.length (s +:+ t) = (String.length s + String.length t)%nat.
Proof. induction s as [|a s IH]; [done|]. rewrite app_cons. simpl. by rewrite IH. Qed.

Lemma nonempty_false (s : string) : Str.nonempty s = false ↔ s = "".
Proof. destruct s; simpl; split; congruence. Qed.

Lemma nonempty_true (s : string) : Str.nonempty s = true ↔ s ≠ "".
Proof. destruct s; simpl; split; congruence. Qed.

Lemma split_slash_not_nil (s : string) : Str.split_slash s ≠ [].
Proof.
  induction s as [|c s IH]; simpl; [done|].
  destruct (Ascii.eqb c Str.slash); [done|].
  by destruct (Str.split_slash s).
Qed.

Lemma split_slash_app (a b : string) :
  Str.split_slash (a +:+ String Str.slash b) = Str.split_slash a ++ Str.split_slash b.
Proof.
  induction a as [|c a IH].
  - by rewrite app_nil_l.
  - rewrite app_cons. simpl. rewrite IH.
    destruct (Ascii.eqb c Str.slash); [done|].
    pose proof (split_slash_not_nil a).
    by destruct (Str.split_slash a).
Qed.

Lemma split_slash_no_slash (x : string) :
  Str.has_slash x = false → Str.split_slash x = [x].
Proof.
  induction x as [|c x IH]; simpl; [done|].
  intros [Hc Hx]%orb_false_iff. rewrite Hc, (IH Hx). done.
Qed.

Lemma split_slash_components (s : string) :
  Forall (λ c, Str.has_slash c = false) (Str.split_slash s).
Proof.
  induction s as [|c s IH]; simpl.
  - by repeat constructor.
  - destruct (Ascii.eqb c Str.slash) eqn:Hc.
    + by constructor.
    + pose proof (split_slash_not_nil s).
      destruct (Str.split_slash s) as [|h t]; [done|].
      inversion IH; subst. constructor; [|done]. simpl. by rewrite Hc.
Qed.

Lemma join_slash_cons (x y : string) (l : list string) :
  Str.join_slash (x :: y :: l) = x +:+ String Str.slash (Str.join_slash (y :: l)).
Proof. reflexivity. Qed.

Lemma join_split_slash (s : string) : Str.join_slash (Str.split_slash s) = s.
Proof.
  induction s as [|c s IH]; simpl; [done|].
  pose proof (split_slash_not_nil s) as Hne.
  destruct (Ascii.eqb c Str.slash) eqn:Hc.
  - apply Ascii.eqb_eq in Hc as ->.
    destruct (Str.split_slash s) as [|h t]; [done|].
    by rewrite join_slash_cons, app_nil_l, IH.
  - destruct (Str.split_slash s) as [|h t]; [done|].
    destruct t as [|h' t].
    + simpl in *. by rewrite IH.
    + rewrite join_slash_cons, app_cons. rewrite join_slash_cons in IH. by rewrite IH.
Qed.

Lemma split_slash_inj (s t : string) :
  Str.split_slash s = Str.split_slash t → s = t.
Proof. intros H. by rewrite <- (join_split_slash s), H, join_split_slash. Qed.

Lemma split_join_slash (l : list string) :
  l ≠ [] → Forall (λ c, Str.has_slash c = false) l →
  Str.split_slash (Str.join_slash l) = l.
Proof.
  induction l as [|x l IH]; [done|]. intros _ Hall.
  inversion Hall as [|?? Hx Hl]; subst.
  destruct l as [|y l].
  - simpl. by apply split_slash_no_slash.
  - rewrite join_slash_cons, split_slash_app, IH by done.
    by rewrite split_slash_no_slash.
Qed.

Lemma has_slash_app (s t : string) :
  Str.has_slash (s +:+ t) = Str.has_slash s || Str.has_slash t.
Proof.
  induction s as [|c s IH]; [done|].
  rewrite app_cons. simpl. rewrite IH. by rewrite orb_assoc.
Qed.

Lemma rsplit_slash_app (s : string) :
  fst (Str.rsplit_slash s) +:+ snd (Str.rsplit_slash s) = s.
Proof.
  induction s as [|c s IH]; simpl; [done|].
  destruct (Str.rsplit_slash s) as [h t]; simpl in *.
  destruct (Str.nonempty h) eqn:Hh; simpl.
  - by rewrite app_cons, IH.
  - apply nonempty_false in Hh as ->. rewrite app_nil_l in IH. subst t.
    by destruct (Ascii.eqb c Str.slash).
Qed.

(** ** Paths *)

Lemma component_cons (c : string) :
  component c → ∃ a r, c = String a r ∧ Ascii.eqb a Str.slash = false.
Proof.
  intros [Hk Hs]. destruct c as [|a r]; [done|].
  exists a, r. split; [done|]. simpl in Hs. by apply orb_false_iff in Hs as [? _].
Qed.

Lemma root_of_is_root (s : string) : is_root (posixpath.root_of s).
Proof.
  unfold is_root, posixpath.root_of.
  destruct s as [|c1 [|c2 r]]; simpl; repeat case_match; auto.
Qed.

Lemma tail_of_components (s : string) : Forall component (pathlib.tail_of s).
Proof.
  unfold pathlib.tail_of. apply List.Forall_forall. intros c [Hin Hk]%filter_In.
  split; [done|].
  pose proof (split_slash_components s) as Hall.
  rewrite List.Forall_forall in Hall. by apply Hall.
Qed.

Lemma tail_of_app (a b : string) :
  pathlib.tail_of (a +:+ String Str.slash b) = pathlib.tail_of a ++ pathlib.tail_of b.
Proof. unfold pathlib.tail_of. by rewrite split_slash_app, List.filter_app. Qed.

Lemma tail_of_slash (s : string) :
  pathlib.tail_of (String Str.slash s) = pathlib.tail_of s.
Proof. reflexivity. Qed.

Lemma filter_keep_components (l : list string) :
  Forall component l → List.filter pathlib.keep l = l.
Proof.
  induction 1 as [|c l [Hk _] _ IH]; simpl; [done|]. by rewrite Hk, IH.
Qed.

Lemma tail_of_component (n : string) : component n → pathlib.tail_of n = [n].
Proof.
  intros [Hk Hs]. unfold pathlib.tail_of.
  rewrite split_slash_no_slash by done. simpl. by rewrite Hk.
Qed.

Lemma tail_of_join (tl : list string) :
  Forall component tl → pathlib.tail_of (Str.join_slash tl) = tl.
Proof.
  intros Hall. destruct tl as [|x tl]; [done|].
  unfold pathlib.tail_of. rewrite split_join_slash; [|done|].
  - by apply filter_keep_components.
  - eapply Forall_impl; [exact Hall|]. by intros c [_ ?].
Qed.

Lemma join_slash_head (x : string) (l : list string) :
  component x → ∃ a r, Str.join_slash (x :: l) = String a r ∧ Ascii.eqb a Str.slash = false.
Proof.
  intros (a & r & -> & Ha)%component_cons.
  destruct l as [|y l].
  - by exists a, r.
  - rewrite join_slash_cons, app_cons. eauto.
Qed.

Lemma format_cases (r : string) (tl : list string) :
  is_root r → Forall component tl →
  (r = "" ∧ tl = [] ∧ pathlib.format r tl = ".") ∨
  ((r ≠ "" ∨ tl ≠ []) ∧ pathlib.format r tl = r +:+ Str.join_slash tl).
Proof.
  intros Hr Hall. unfold pathlib.format.
  destruct Hr as [-> | [-> | ->]].
  - destruct tl as [|x tl]; [by left|]. right. split; [by right|].
    inversion Hall; subst.
    destruct (join_slash_head x tl) as (a & s & -> & _); [done|]. done.
  - right. split; [by left|]. done.
  - right. split; [by left|]. done.
Qed.

Lemma tail_of_format (r : string) (tl : list string) :
  is_root r → Forall component tl → pathlib.tail_of (pathlib.format r tl) = tl.
Proof.
  intros Hr Hall.
  destruct (format_cases r tl Hr Hall) as [(-> & -> & ->) | [_ ->]]; [done|].
  destruct Hr as [-> | [-> | ->]].
  - rewrite app_nil_l. by apply tail_of_join.
  - change ("/" +:+ Str.join_slash tl) with (String Str.slash (Str.join_slash tl)).
    rewrite tail_of_slash. by apply tail_of_join.
  - change ("//" +:+ Str.join_slash tl)
      with (String Str.slash (String Str.slash (Str.join_slash tl))).
    rewrite !tail_of_slash. by apply tail_of_join.
Qed.

Lemma root_of_format (r : string) (tl : list string) :
  is_root r → Forall component tl → posixpath.root_of (pathlib.format r tl) = r.
Proof.
  intros Hr Hall.
  destruct (format_cases r tl Hr Hall) as [(-> & -> & ->) | [_ ->]]; [done|].
  destruct tl as [|x tl].
  - by destruct Hr as [-> | [-> | ->]].
  - inversion Hall; subst.
    destruct (join_slash_head x tl) as (a & s & -> & Ha); [done|].
    destruct Hr as [-> | [-> | ->]]; simpl; by rewrite Ha.
Qed.

(** Parsing the string of a path gives the path back. *)
Lemma Path_root (s : string) : pathlib.root (pathlib.Path s) = posixpath.root_of s.
Proof. apply root_of_format; [apply root_of_is_root | apply tail_of_components]. Qed.

Lemma Path_tail (s : string) : pathlib.tail (pathlib.Path s) = pathlib.tail_of s.
Proof. apply tail_of_format; [apply root_of_is_root | apply tail_of_components]. Qed.

Lemma Path_idem (s : string) :
  pathlib.Path (pathlib.path_str (pathlib.Path s)) = pathlib.Path s.
Proof.
  unfold pathlib.Path at 1. f_equal.
  change (posixpath.root_of (pathlib.path_str (pathlib.Path s)))
    with (pathlib.root (pathlib.Path s)).
  change (pathlib.tail_of (pathlib.path_str (pathlib.Path s)))
    with (pathlib.tail (pathlib.Path s)).
  by rewrite Path_root, Path_tail.
Qed.

Lemma endswith_slash_app (a : string) :
  Str.endswith_slash a = true → ∃ a', a = a' +:+ String Str.slash "".
Proof.
  induction a as [|c a IH]; [done|]. simpl.
  destruct a as [|c' a].
  - intros ->%Ascii.eqb_eq. by exists "".
  - intros H. destruct (IH H) as [a' ->]. exists (String c a'). by rewrite app_cons.
Qed.

Lemma component_not_startswith (n : string) :
  component n → Str.startswith_slash n = false.
Proof. by intros (a & r & -> & Ha)%component_cons. Qed.

Lemma tail_of_join_component (a n : string) :
  component n → pathlib.tail_of (posixpath.join a n) = pathlib.tail_of a ++ [n].
Proof.
  intros Hn. unfold posixpath.join.
  rewrite component_not_startswith by done.
  destruct a as [|c a].
  - simpl. rewrite app_nil_l. by apply tail_of_component.
  - simpl negb. rewrite orb_false_l.
    destruct (Str.endswith_slash (String c a)) eqn:He.
    + destruct (endswith_slash_app _ He) as [a' ->].
      rewrite app_assoc_str. rewrite app_cons, app_nil_l.
      rewrite (tail_of_app a' n), (tail_of_app a' ""), (tail_of_component n Hn).
      change (pathlib.tail_of "") with (@nil string). by rewrite List.app_nil_r.
    + by rewrite tail_of_app, (tail_of_component n Hn).
Qed.

Lemma root_of_join_component (a n : string) :
  component n → posixpath.root_of (posixpath.join a n) = posixpath.root_of a.
Proof.
  intros Hn. unfold posixpath.join.
  rewrite component_not_startswith by done.
  destruct (component_cons n Hn) as (d & n' & -> & Hd).
  destruct a as [|c1 [|c2 [|c3 a]]]; simpl;
    rewrite ?app_cons, ?app_nil_l; simpl;
    repeat (case_match; simpl; rewrite ?app_cons, ?app_nil_l; simpl; try done; try congruence).
Qed.

(** [p / n] for a single component [n] appends it to the components of [p]. *)
Lemma truediv_component (p : pathlib.PosixPath) (n : string) :
  component n →
  pathlib.root (pathlib.truediv p n) = pathlib.root p ∧
  pathlib.tail (pathlib.truediv p n) = pathlib.tail p ++ [n].
Proof.
  intros Hn. unfold pathlib.truediv.
  rewrite Path_root, Path_tail.
  rewrite root_of_join_component, tail_of_join_component by done. done.
Qed.

Lemma truediv_name (p : pathlib.PosixPath) (n : string) :
  component n → pathlib.name (pathlib.truediv p n) = n.
Proof.
  intros Hn. unfold pathlib.name.
  destruct (truediv_component p n Hn) as [_ ->]. apply last_last.
Qed.

Lemma truediv_parent (s n : string) :
  component n →
  pathlib.path_str (pathlib.truediv (pathlib.Path s) n) =
    pathlib.format (pathlib.root (pathlib.Path s)) (pathlib.tail (pathlib.Path s) ++ [n]).
Proof.
  intros Hn. unfold pathlib.truediv. unfold pathlib.Path at 1. simpl.
  rewrite root_of_join_component, tail_of_join_component by done. done.
Qed.

(** ** Names, stems and suffixes *)

Lemma rpartition_dot_app (n h t : string) :
  Str.rpartition_dot n = Some (h, t) → n = h +:+ t.
Proof.
  revert h t. induction n as [|c n IH]; intros h t; simpl; [done|].
  destruct (Str.rpartition_dot n) as [[h' t']|].
  - intros [= <- <-]. by rewrite app_cons, <- (IH h' t').
  - destruct (Ascii.eqb c Str.dot); [|done]. by intros [= <- <-].
Qed.

Lemma stem_suffix_app (n : string) :
  pathlib.stem_of_name n +:+ pathlib.suffix_of_name n = n.
Proof.
  unfold pathlib.stem_of_name, pathlib.suffix_of_name.
  destruct (Str.rpartition_dot n) as [[h t]|] eqn:Hp.
  - apply rpartition_dot_app in Hp.
    destruct (Str.nonempty h && (1 <? String.length t)%nat); [done|].
    apply app_nil_r.
  - apply app_nil_r.
Qed.

Lemma suffix_stem_nonempty (n : string) :
  pathlib.suffix_of_name n ≠ "" → pathlib.stem_of_name n ≠ "".
Proof.
  unfold pathlib.stem_of_name, pathlib.suffix_of_name.
  destruct (Str.rpartition_dot n) as [[h t]|]; [|done].
  destruct (Str.nonempty h) eqn:Hh; simpl; [|done].
  destruct (1 <? String.length t)%nat; [|done].
  intros _. by apply nonempty_true.
Qed.

Lemma lower_length (s : string) : String.length (Str.lower s) = String.length s.
Proof. induction s as [|c s IH]; simpl; [done|]. by rewrite IH. Qed.

Lemma stem_no_slash (n : string) :
  Str.has_slash n = false → Str.has_slash (pathlib.stem_of_name n) = false.
Proof.
  intros Hn. rewrite <- (stem_suffix_app n), has_slash_app in Hn.
  by apply orb_false_iff in Hn as [? _].
Qed.

Lemma name_no_slash (p : pathlib.PosixPath) : Str.has_slash (pathlib.name p) = false.
Proof.
  unfold pathlib.name, pathlib.tail.
  pose proof (tail_of_components (pathlib.path_str p)) as Hall.
  destruct (pathlib.tail_of (pathlib.path_str p)) as [|x l] using rev_ind; [done|].
  rewrite last_last. apply Forall_app in Hall as [_ Hx].
  inversion Hx as [|?? [_ ?] _]; by subst.
Qed.

(** What the filter of the scanner accepts. *)
Lemma is_stl_name (p : pathlib.PosixPath) :
  is_stl p = true →
  pathlib.name p = pathlib.stem p +:+ pathlib.suffix p ∧
  pathlib.stem p ≠ "" ∧
  Str.has_slash (pathlib.stem p) = false ∧
  String.length (pathlib.suffix p) = 4%nat.
Proof.
  unfold is_stl. intros Hl%String.eqb_eq.
  assert (String.length (pathlib.suffix p) = 4%nat) as Hlen.
  { by rewrite <- lower_length, Hl. }
  unfold pathlib.stem, pathlib.suffix in *.
  split_and!; [| | |done].
  - by rewrite stem_suffix_app.
  - apply suffix_stem_nonempty. intros Hs. by rewrite Hs in Hlen.
  - apply stem_no_slash, name_no_slash.
Qed.

(** The output name is one path component when the suffix has no slash. *)
Lemma out_name_component (in_path : pathlib.PosixPath) (suffix : string) :
  is_stl in_path = true → Str.has_slash suffix = false →
  component (out_name in_path suffix).
Proof.
  intros (_ & Hne & Hs & _)%is_stl_name Hsfx. unfold out_name, component.
  split.
  - unfold pathlib.keep.
    destruct (pathlib.stem in_path) as [|a r] eqn:Hst; [done|].
    rewrite app_cons. simpl.
    destruct (Ascii.eqb a "."); [|done].
    assert (r +:+ suffix +:+ ".stl" ≠ "") as Hlen%String.eqb_neq; [|by rewrite Hlen].
    intros Heq%(f_equal String.length). rewrite !app_length_str in Heq. simpl in Heq. lia.
  - rewrite !has_slash_app, Hs, Hsfx. done.
Qed.

(** ** The order of paths *)

Lemma string_compare_refl (s : string) : String.compare s s = Eq.
Proof.
  induction s as [|a s IH]; simpl; [done|].
  unfold Ascii.compare. by rewrite N.compare_refl.
Qed.

Lemma string_compare_lt_trans (a b c : string) :
  String.compare a b = Lt → String.compare b c = Lt → String.compare a c = Lt.
Proof.
  intros Hab Hbc.
  assert (String.le a c) as Hac.
  { transitivity b; unfold String.le, String.leb; [by rewrite Hab | by rewrite Hbc]. }
  unfold String.le, String.leb in Hac.
  destruct (String.compare a c) eqn:Hc; [|done|done].
  apply String.compare_eq_iff in Hc as ->.
  rewrite String.compare_antisym, Hbc in Hab. done.
Qed.

Lemma list_compare_antisym (l1 l2 : list string) :
  Str.list_compare l1 l2 = CompOpp (Str.list_compare l2 l1).
Proof.
  revert l2. induction l1 as [|x l1 IH]; intros [|y l2]; simpl; try done.
  rewrite (String.compare_antisym x y).
  destruct (String.compare y x); simpl; auto.
Qed.

Lemma list_compare_eq (l1 l2 : list string) :
  Str.list_compare l1 l2 = Eq → l1 = l2.
Proof.
  revert l2. induction l1 as [|x l1 IH]; intros [|y l2]; simpl; try done.
  destruct (String.compare x y) eqn:Hxy; try done.
  apply String.compare_eq_iff in Hxy as ->. intros ?. f_equal. auto.
Qed.

Lemma list_compare_lt_trans (l1 l2 l3 : list string) :
  Str.list_compare l1 l2 = Lt → Str.list_compare l2 l3 = Lt →
  Str.list_compare l1 l3 = Lt.
Proof.
  revert l2 l3. induction l1 as [|x l1 IH]; intros [|y l2] [|z l3]; simpl; try done.
  destruct (String.compare x y) eqn:Hxy; try done.
  - apply String.compare_eq_iff in Hxy as ->.
    destruct (String.compare y z); try done. apply IH.
  - destruct (String.compare y z) eqn:Hyz; try done.
    + apply String.compare_eq_iff in Hyz as ->. by rewrite Hxy.
    + by rewrite (string_compare_lt_trans x y z).
Qed.

Lemma path_le_iff (p q : pathlib.PosixPath) :
  pathlib.le p q ↔
  Str.list_compare (pathlib.parts_normcase p) (pathlib.parts_normcase q) ≠ Gt.
Proof.
  unfold pathlib.le, pathlib.ltb.
  rewrite (list_compare_antisym (pathlib.parts_normcase q)).
  destruct (Str.list_compare (pathlib.parts_normcase p) (pathlib.parts_normcase q));
    simpl; split; congruence.
Qed.

Global Instance path_le_total : Total pathlib.le.
Proof.
  intros p q. rewrite !path_le_iff.
  rewrite (list_compare_antisym (pathlib.parts_normcase q)).
  destruct (Str.list_compare (pathlib.parts_normcase p) (pathlib.parts_normcase q));
    simpl; auto.
Qed.

Global Instance path_le_trans : Transitive pathlib.le.
Proof.
  intros p q r. rewrite !path_le_iff. intros Hpq Hqr.
  destruct (Str.list_compare (pathlib.parts_normcase p) (pathlib.parts_normcase q)) eqn:H1;
    [| |done].
  - apply list_compare_eq in H1. by rewrite H1.
  - destruct (Str.list_compare (pathlib.parts_normcase q) (pathlib.parts_normcase r)) eqn:H2;
      [| |done].
    + apply list_compare_eq in H2. by rewrite <- H2, H1.
    + by rewrite (list_compare_lt_trans _ _ _ H1 H2).
Qed.

Global Instance path_le_antisym : AntiSymm (=) pathlib.le.
Proof.
  intros [s] [t]. rewrite !path_le_iff. unfold pathlib.parts_normcase. simpl.
  intros Hst Hts. rewrite list_compare_antisym in Hts.
  destruct (Str.list_compare (Str.split_slash s) (Str.split_slash t)) eqn:Hc;
    [|done|done].
  apply list_compare_eq, split_slash_inj in Hc. by subst.
Qed.

(** [sorted] returns the one sorted arrangement of its argument. *)
Lemma sorted_Sorted (l : list pathlib.PosixPath) : Sorted pathlib.le (pathlib.sorted l).
Proof. apply Sorted_merge_sort, _. Qed.

Lemma sorted_Permutation (l : list pathlib.PosixPath) : pathlib.sorted l ≡ₚ l.
Proof. apply merge_sort_Permutation. Qed.

Lemma sorted_order_independent (l1 l2 : list pathlib.PosixPath) :
  l1 ≡ₚ l2 → pathlib.sorted l1 = pathlib.sorted l2.
Proof.
  intros Hp. apply (Sorted_unique pathlib.le); [apply sorted_Sorted..|].
  by rewrite !sorted_Permutation.
Qed.

Lemma filter_Permutation {A} (f : A → bool) (l1 l2 : list A) :
  l1 ≡ₚ l2 → List.filter f l1 ≡ₚ List.filter f l2.
Proof.
  induction 1 as [|x l1 l2 _ IH|x y l|l1 l2 l3 _ IH1 _ IH2]; simpl.
  - done.
  - destruct (f x); by rewrite ?IH.
  - destruct (f x), (f y); try done. apply perm_swap.
  - by rewrite IH1.
Qed.

(** ** The file system *)

Lemma walk_insert (m : gmap location node) (cur : location) (comps : list string)
    (loc : location) (n : node) :
  os.walk m cur comps = inr loc → m !! loc ≠ Some Dir →
  os.walk (<[loc := n]> m) cur comps = inr loc.
Proof.
  intros Hw Hloc. revert cur Hw.
  induction comps as [|c comps IH]; intros cur; simpl; [done|].
  destruct (m !! cur) as [[|d]|] eqn:Hcur; try done.
  intros Hw. assert (loc ≠ cur) as Hne by congruence.
  rewrite lookup_insert_ne, Hcur by done. by apply IH.
Qed.

Lemma stat_logged (l : log_line) (w : world) (path : string) :
  os.stat (logged l w) path = os.stat w path.
Proof. reflexivity. Qed.

(** A file that was written is there, with the data written. *)
Lemma write_file_stat (path : string) (d : file_data) (w w' : world) :
  os.write_file path d w = Ok tt w' →
  os.stat w' path = Some (File d) ∧
  ∃ loc, os.resolve w path = inr loc ∧ w' = with_node loc (File d) w.
Proof.
  unfold os.write_file, os.stat.
  destruct (os.resolve w path) as [e|loc] eqn:Hr; [done|].
  assert (fs w !! loc ≠ Some Dir → os.resolve (with_node loc (File d) w) path = inr loc)
    as Hres.
  { intros Hnd. unfold os.resolve in *. simpl.
    destruct (Str.nonempty path); [|done]. by apply walk_insert. }
  destruct (fs w !! loc) as [[|d']|] eqn:Hl; [done|..];
    intros [= <-]; (split; [|by eauto]);
    rewrite Hres by done; simpl; apply lookup_insert_eq.
Qed.

(** A file that cannot be opened for writing is no file, and stays so. *)
Lemma write_file_raise (path : string) (d : file_data) (w w' : world) (e : exn) :
  os.write_file path d w = Raise e w' →
  w' = w ∧ ∀ l, os.path_isfile (logged l w') path = false.
Proof.
  unfold os.write_file, os.path_isfile, os.stat. simpl.
  change (os.resolve (logged ?l ?w) path) with (os.resolve w path).
  destruct (os.resolve w path) as [e'|loc] eqn:Hr.
  - intros [= <- <-]. split; [done|]. intros l.
    change (os.resolve (logged l w) path) with (os.resolve w path). by rewrite Hr.
  - destruct (fs w !! loc) as [[|d']|] eqn:Hl; try done.
    intros [= <- <-]. split; [done|]. intros l.
    change (os.resolve (logged l w) path) with (os.resolve w path).
    rewrite Hr. simpl. by rewrite Hl.
Qed.

Lemma same_files_refl (w : world) : same_files w w.
Proof. by repeat split. Qed.

Lemma same_files_trans (w1 w2 w3 : world) :
  same_files w1 w2 → same_files w2 w3 → same_files w1 w3.
Proof.
  intros (Hc1 & Ho1 & Hf1) (Hc2 & Ho2 & Hf2). repeat split; try congruence.
  - intros ?. by apply Hf1, Hf2.
  - intros ?. by apply Hf2, Hf1.
Qed.

Lemma os_mkdir_same_files (path : string) (w : world) :
  match os.mkdir path w with
  | Ok _ w' => same_files w w'
  | Raise _ w' => w' = w
  end.
Proof.
  unfold os.mkdir. destruct (os.resolve w path) as [e|loc]; [done|].
  destruct (fs w !! loc) eqn:Hl; [done|].
  simpl. repeat split; simpl.
  - destruct (decide (loc = loc0)) as [->|Hne].
    + by rewrite lookup_insert_eq.
    + by rewrite lookup_insert_ne.
  - intros Hf. rewrite lookup_insert_ne; [done|]. congruence.
Qed.

Lemma pathlib_mkdir_from_same_files (r : string) (rtail : list string) (w : world) :
  match pathlib.mkdir_from r rtail w with
  | Ok _ w' => same_files w w'
  | Raise _ w' => same_files w w'
  end.
Proof.
  revert w. induction rtail as [|c rtail IH]; intros w; simpl.
  - pose proof (os_mkdir_same_files (pathlib.format r (reverse [])) w) as H1.
    destruct (os.mkdir _ w) as [[] w'|e w']; [done|]. subst w'.
    destruct e; try destruct (os.path_isdir _ _); apply same_files_refl.
  - pose proof (os_mkdir_same_files (pathlib.format r (reverse (c :: rtail))) w) as H1.
    destruct (os.mkdir _ w) as [[] w'|e w']; [done|]. subst w'.
    destruct e; try (destruct (os.path_isdir _ _); apply same_files_refl).
    unfold bind. specialize (IH w).
    destruct (pathlib.mkdir_from r rtail w) as [[] w1|e w1]; [|done].
    pose proof (os_mkdir_same_files (pathlib.format r (reverse (c :: rtail))) w1) as H2.
    destruct (os.mkdir _ w1) as [[] w2|e w2].
    + by eapply same_files_trans.
    + subst w2. destruct e; try destruct (os.path_isdir _ _); done.
Qed.

(** Creating the output directory adds directories only. *)
Lemma pathlib_mkdir_same_files (p : pathlib.PosixPath) (w : world) :
  match pathlib.mkdir p w with
  | Ok _ w' => same_files w w'
  | Raise _ w' => same_files w w'
  end.
Proof. apply pathlib_mkdir_from_same_files. Qed.

Lemma mkdir_from_existing (r : string) (rtail : list string) (w : world) :
  (let p := pathlib.format r (reverse rtail) in
   os.mkdir p w = Raise FileExistsError w ∧ os.path_isdir w p = true) →
  pathlib.mkdir_from r rtail w = Ok tt w.
Proof. intros [Hm Hd]. destruct rtail; cbn [pathlib.mkdir_from]; by rewrite Hm, Hd. Qed.

Lemma pathlib_mkdir_existing (s : string) (w : world) :
  os.path_isdir w (pathlib.path_str (pathlib.Path s)) = true →
  pathlib.mkdir (pathlib.Path s) w = Ok tt w.
Proof.
  intros Hd. unfold pathlib.mkdir.
  assert (∀ rtail, reverse rtail = pathlib.tail (pathlib.Path s) →
            pathlib.mkdir_from (pathlib.root (pathlib.Path s)) rtail w = Ok tt w) as H.
  { intros rtail Hrev.
    assert (pathlib.format (pathlib.root (pathlib.Path s)) (reverse rtail)
              = pathlib.path_str (pathlib.Path s)) as Hp.
    { by rewrite Hrev, Path_root, Path_tail. }
    assert (os.mkdir (pathlib.path_str (pathlib.Path s)) w = Raise FileExistsError w) as Hm.
    { unfold os.mkdir. unfold os.path_isdir, os.stat in Hd.
      destruct (os.resolve w _) as [e|loc]; [done|].
      by destruct (fs w !! loc). }
    rewrite mkdir_from_existing; [done|]. cbv zeta. by rewrite Hp, Hm, Hd. }
  apply H. by rewrite reverse_involutive.
Qed.

Lemma child_name_Some (loc k : location) (v : node) (n : string) :
  os.child_name loc (k, v) = Some n ↔ k = loc ++ [n].
Proof.
  unfold os.child_name. simpl.
  destruct (reverse k) as [|x rparent] eqn:Hk.
  - split; [done|]. intros ->. rewrite reverse_app in Hk. done.
  - apply (f_equal reverse) in Hk. rewrite reverse_involutive, reverse_cons in Hk.
    subst k. case_decide as Hd.
    + subst loc. split; [by intros [= ->]|]. by intros [_ ->]%app_inj_tail.
    + split; [done|]. by intros [? _]%app_inj_tail.
Qed.

(** [os.listdir] returns the names of the nodes directly below a directory. *)
Lemma listdir_spec (path : string) (w : world) (loc : location) :
  os.resolve w path = inr loc → fs w !! loc = Some Dir →
  ∃ names, os.listdir path w = Ok names w ∧
    ∀ n, n ∈ names ↔ is_Some (fs w !! (loc ++ [n])).
Proof.
  intros Hr Hl. unfold os.listdir. rewrite Hr, Hl. eexists. split; [done|].
  intros n. rewrite list_elem_of_omap. split.
  - intros ([k v] & Hin%elem_of_map_to_list & Hc%child_name_Some). subst k. eauto.
  - intros [v Hv]. exists (loc ++ [n], v). split.
    + by apply elem_of_map_to_list.
    + by apply child_name_Some.
Qed.

(** ** Floats and rows *)

Lemma magnitude_range (b : F32.t) : 0 ≤ F32.magnitude b < 2147483648.
Proof.
  unfold F32.magnitude. split.
  - apply Z.land_nonneg. lia.
  - change 2147483647 with (Z.ones 31). rewrite Z.land_ones by lia.
    apply Z.mod_pos_bound. lia.
Qed.

Lemma key_range (b : F32.t) :
  F32.is_nan b = false → -2139095040 ≤ F32.key b ≤ 2139095040.
Proof.
  unfold F32.is_nan, F32.key. intros Hn%Z.ltb_ge.
  pose proof (magnitude_range b). destruct (F32.sign b); lia.
Qed.

(** [FLOAT_compare] is the comparison of ranks. *)
Lemma compare_rank (a b : F32.t) : F32.compare a b = (F32.rank a ?= F32.rank b).
Proof.
  unfold F32.compare, F32.np_LT, F32.ltb, F32.eqb, F32.rank.
  rewrite !Z.eqb_refl, !andb_true_r.
  destruct (F32.is_nan a) eqn:Ha, (F32.is_nan b) eqn:Hb; cbn [negb andb orb].
  - done.
  - apply key_range in Hb. symmetry. apply Z.compare_gt_iff. lia.
  - apply key_range in Ha. symmetry. apply Z.compare_lt_iff. lia.
  - rewrite !orb_false_r.
    destruct (Z.compare_spec (F32.key a) (F32.key b));
      destruct (Z.ltb_spec (F32.key a) (F32.key b));
      destruct (Z.ltb_spec (F32.key b) (F32.key a)); try lia; done.
Qed.

Lemma eqb_rank (a b : F32.t) :
  F32.eqb a b = true ↔
  F32.is_nan a = false ∧ F32.is_nan b = false ∧ F32.rank a = F32.rank b.
Proof.
  unfold F32.eqb, F32.rank.
  destruct (F32.is_nan a), (F32.is_nan b); cbn [negb andb]; rewrite ?Z.eqb_eq;
    intuition congruence.
Qed.

Lemma row_compare_rank (p q : point) :
  row_compare p q =
    let '(x1, y1, z1) := row_rank p in
    let '(x2, y2, z2) := row_rank q in
    match x1 ?= x2 with
    | Eq => match y1 ?= y2 with Eq => z1 ?= z2 | c => c end
    | c => c
    end.
Proof. destruct p as [[x1 y1] z1], q as [[x2 y2] z2]. simpl. by rewrite !compare_rank. Qed.

Lemma row_lt_lexico (p q : point) : row_lt p q ↔ lexico (row_rank p) (row_rank q).
Proof.
  unfold row_lt. rewrite row_compare_rank.
  destruct (row_rank p) as [[x1 y1] z1], (row_rank q) as [[x2 y2] z2].
  unfold lexico, prod_lexico, lexico, Z_lexico. simpl.
  rewrite pair_equal_spec.
  destruct (Z.compare_spec x1 x2), (Z.compare_spec y1 y2), (Z.compare_spec z1 z2);
    split; intros ?; try done; lia.
Qed.

Lemma row_compare_Eq (p q : point) : row_compare p q = Eq ↔ row_rank p = row_rank q.
Proof.
  rewrite row_compare_rank.
  destruct (row_rank p) as [[x1 y1] z1], (row_rank q) as [[x2 y2] z2].
  rewrite !pair_equal_spec.
  destruct (Z.compare_spec x1 x2), (Z.compare_spec y1 y2), (Z.compare_spec z1 z2);
    split; intros ?; try done; lia.
Qed.

Lemma row_le_iff (p q : point) : row_le p q ↔ row_lt p q ∨ row_rank p = row_rank q.
Proof.
  unfold row_le, row_lt. rewrite <- row_compare_Eq.
  destruct (row_compare p q); intuition congruence.
Qed.

Lemma row_lt_trans (p q r : point) : row_lt p q → row_lt q r → row_lt p r.
Proof. rewrite !row_lt_lexico. apply transitivity. Qed.

Lemma row_lt_irrefl (p : point) : ¬ row_lt p p.
Proof. rewrite row_lt_lexico. apply irreflexivity, _. Qed.

Lemma row_lt_rank_l (p p' q : point) : row_rank p = row_rank p' → row_lt p q → row_lt p' q.
Proof. rewrite !row_lt_lexico. by intros ->. Qed.

Lemma row_lt_rank_r (p q q' : point) : row_rank q = row_rank q' → row_lt p q → row_lt p q'.
Proof. rewrite !row_lt_lexico. by intros ->. Qed.

Global Instance row_le_trans : Transitive row_le.
Proof.
  intros p q r. rewrite !row_le_iff. intros [H1|H1] [H2|H2].
  - left. by eapply row_lt_trans.
  - left. by eapply row_lt_rank_r.
  - left. eapply row_lt_rank_l; [symmetry|]; done.
  - right. congruence.
Qed.

Lemma row_eqb_rank (p q : point) :
  row_eqb p q = true ↔
  row_has_nan p = false ∧ row_has_nan q = false ∧ row_rank p = row_rank q.
Proof.
  destruct p as [[x1 y1] z1], q as [[x2 y2] z2]. simpl.
  rewrite !andb_true_iff, !eqb_rank, !orb_false_iff, !pair_equal_spec. tauto.
Qed.

(** ** Sorting and deduplicating rows *)

Lemma row_insert_Permutation (x : point) (l : list point) : row_insert x l ≡ₚ x :: l.
Proof.
  induction l as [|y l IH]; simpl; [done|].
  case_decide; [|done]. by rewrite IH, perm_swap.
Qed.

Lemma row_isort_Permutation (l : list point) : row_isort l ≡ₚ l.
Proof.
  induction l as [|x l IH]; simpl; [done|]. by rewrite row_insert_Permutation, IH.
Qed.

Lemma row_le_total (p q : point) : row_compare p q = Gt → row_le q p.
Proof.
  rewrite !row_le_iff. unfold row_lt. rewrite !row_compare_rank.
  destruct (row_rank p) as [[x1 y1] z1], (row_rank q) as [[x2 y2] z2].
  rewrite pair_equal_spec, pair_equal_spec.
  destruct (Z.compare_spec x1 x2), (Z.compare_spec y1 y2), (Z.compare_spec z1 z2);
    destruct (Z.compare_spec x2 x1), (Z.compare_spec y2 y1), (Z.compare_spec z2 z1);
    intros ?; try done; try lia; auto.
Qed.

Lemma row_insert_Sorted (x : point) (l : list point) :
  Sorted row_le l → Sorted row_le (row_insert x l).
Proof.
  induction 1 as [|y l Hl IH Hhd]; simpl; [by repeat constructor|].
  case_decide as Hc.
  - constructor; [done|].
    destruct l as [|z l]; simpl in *.
    + constructor. by apply row_le_total.
    + case_decide.
      * inversion Hhd; subst. by constructor.
      * constructor. by apply row_le_total.
  - constructor; [by constructor|]. by constructor.
Qed.

Lemma row_isort_Sorted (l : list point) : Sorted row_le (row_isort l).
Proof. induction l as [|x l IH]; simpl; [constructor|]. by apply row_insert_Sorted. Qed.

Lemma mask_from_In (prev x : point) (aux : list point) :
  In x (mask_from prev aux) → In x aux.
Proof.
  revert prev. induction aux as [|y aux IH]; intros prev; simpl; [done|].
  destruct (row_eqb y prev); simpl; intuition eauto.
Qed.

Lemma keep_changes_In (x : point) (aux : list point) :
  In x (keep_changes aux) → In x aux.
Proof. destruct aux as [|y aux]; simpl; [done|]. intros [?|?%mask_from_In]; auto. Qed.

Lemma mask_from_length (prev : point) (aux : list point) :
  (length (mask_from prev aux) ≤ length aux)%nat.
Proof.
  revert prev. induction aux as [|y aux IH]; intros prev; simpl; [done|].
  specialize (IH y). destruct (row_eqb y prev); simpl; lia.
Qed.

Lemma keep_changes_length (aux : list point) :
  (length (keep_changes aux) ≤ length aux)%nat.
Proof. destruct aux as [|y aux]; simpl; [done|]. pose proof (mask_from_length y aux). lia. Qed.

(** Every row has a representative of the same rank among the kept rows. *)
Lemma mask_from_represents (prev y : point) (aux : list point) :
  In y (prev :: aux) → ∃ k, In k (prev :: mask_from prev aux) ∧ row_rank k = row_rank y.
Proof.
  revert prev. induction aux as [|x aux IH]; intros prev.
  - intros [->|[]]. exists y. by split; [left|].
  - intros [->|Hin].
    + exists y. by split; [left|].
    + destruct (IH x Hin) as (k & Hk & Hrank). simpl.
      destruct (row_eqb x prev) eqn:Heq.
      * destruct Hk as [->|Hk].
        -- apply row_eqb_rank in Heq as (_ & _ & Heq).
           exists prev. split; [by left|congruence].
        -- exists k. split; [by right|done].
      * exists k. split; [by right|done].
Qed.

Lemma keep_changes_represents (y : point) (aux : list point) :
  In y aux → ∃ k, In k (keep_changes aux) ∧ row_rank k = row_rank y.
Proof. destruct aux as [|x aux]; [done|]. apply mask_from_represents. Qed.

Lemma mask_from_sorted_le (prev : point) (aux : list point) :
  Sorted row_le (prev :: aux) → StronglySorted row_le (prev :: mask_from prev aux).
Proof.
  revert prev. induction aux as [|x aux IH]; intros prev Hs; simpl.
  - by repeat constructor.
  - apply Sorted_inv in Hs as [Hs Hhd]. apply HdRel_inv in Hhd.
    specialize (IH x Hs). apply StronglySorted_cons in IH as [Hall IH].
    assert (Forall (row_le prev) (mask_from x aux)) as Hall'.
    { eapply Forall_impl; [exact Hall|]. intros z Hz. by etransitivity. }
    destruct (row_eqb x prev).
    + apply StronglySorted_cons. by split.
    + apply StronglySorted_cons. split; [by constructor|].
      apply StronglySorted_cons. by split.
Qed.

Lemma mask_from_sorted_lt (prev : point) (aux : list point) :
  Forall (λ p, row_has_nan p = false) (prev :: aux) →
  Sorted row_le (prev :: aux) → StronglySorted row_lt (prev :: mask_from prev aux).
Proof.
  revert prev. induction aux as [|x aux IH]; intros prev Hnan Hs; simpl.
  - by repeat constructor.
  - apply Sorted_inv in Hs as [Hs Hhd]. apply HdRel_inv in Hhd.
    apply Forall_cons in Hnan as [Hprev Hnan].
    pose proof Hnan as [Hx _]%Forall_cons.
    specialize (IH x Hnan Hs). apply StronglySorted_cons in IH as [Hall IH].
    apply row_le_iff in Hhd.
    destruct (row_eqb x prev) eqn:Heq.
    + apply row_eqb_rank in Heq as (_ & _ & Heq).
      apply StronglySorted_cons. split; [|done].
      eapply Forall_impl; [exact Hall|]. intros z Hz. by eapply row_lt_rank_l.
    + assert (row_lt prev x) as Hlt.
      { destruct Hhd as [?|Hr]; [done|].
        assert (row_eqb x prev = true); [|congruence].
        apply row_eqb_rank. by rewrite Hr. }
      apply StronglySorted_cons. split.
      * constructor; [done|].
        eapply Forall_impl; [exact Hall|]. intros z Hz. by eapply row_lt_trans.
      * apply StronglySorted_cons. by split.
Qed.

(** Two strictly increasing lists with the same ranks agree rank by rank. *)
Lemma strictly_sorted_same_ranks (c1 c2 : list point) :
  StronglySorted row_lt c1 → StronglySorted row_lt c2 →
  (∀ p, In p c1 → ∃ q, In q c2 ∧ row_rank p = row_rank q) →
  (∀ q, In q c2 → ∃ p, In p c1 ∧ row_rank p = row_rank q) →
  Forall2 (λ p q, row_rank p = row_rank q) c1 c2.
Proof.
  revert c2. induction c1 as [|a c1 IH]; intros [|b c2] H1 H2 H12 H21.
  - constructor.
  - destruct (H21 b (or_introl eq_refl)) as (p & [] & _).
  - destruct (H12 a (or_introl eq_refl)) as (q & [] & _).
  - apply StronglySorted_cons in H1 as [Ha H1].
    apply StronglySorted_cons in H2 as [Hb H2].
    rewrite List.Forall_forall in Ha, Hb.
    assert (row_rank a = row_rank b) as Hab.
    { destruct (H12 a (or_introl eq_refl)) as (q & [<-|Hq] & Hr); [done|].
      destruct (H21 b (or_introl eq_refl)) as (p & [<-|Hp] & Hr'); [done|].
      exfalso. apply (row_lt_irrefl a), (row_lt_trans a b a).
      - eapply row_lt_rank_r; [exact Hr'|]. by apply Ha.
      - eapply row_lt_rank_r; [symmetry; exact Hr|]. by apply Hb. }
    constructor; [done|]. apply IH; try done.
    + intros p Hp. destruct (H12 p (or_intror Hp)) as (q & [<-|Hq] & Hr); [|by eauto].
      exfalso. apply (row_lt_irrefl a).
      eapply row_lt_rank_r; [|by apply (Ha p Hp)]. congruence.
    + intros q Hq. destruct (H21 q (or_intror Hq)) as (p & [<-|Hp] & Hr); [|by eauto].
      exfalso. apply (row_lt_irrefl b).
      eapply row_lt_rank_r; [|by apply (Hb q Hq)]. congruence.
Qed.

Lemma nan_free_Forall (m : mesh) :
  nan_free m = true ↔ Forall (λ p, row_has_nan p = false) (reshape m).
Proof.
  unfold nan_free. rewrite forallb_forall, List.Forall_forall.
  split; intros H p Hp; specialize (H p Hp); by destruct (row_has_nan p).
Qed.

Lemma covers_spec (m1 m2 : mesh) :
  covers m1 m2 = true →
  ∀ p, In p (reshape m1) → ∃ q, In q (reshape m2) ∧ row_rank p = row_rank q.
Proof.
  unfold covers. rewrite forallb_forall. intros H p Hp.
  apply H, existsb_exists in Hp as (q & Hq & Heq).
  exists q. split; [done|]. by apply row_eqb_rank in Heq as (_ & _ & ?).
Qed.

(** ** Indexing the point array *)

Lemma np_getitem_In (a : list point) (i : Z) (p : point) :
  np_getitem a i = Some p → In p a.
Proof.
  unfold np_getitem. intros H. apply list_elem_of_In.
  repeat case_match; try done; by eapply list_elem_of_lookup_2.
Qed.

Lemma facet_corners (vertices : list point) (s : simplex) (t : triangle) :
  facet vertices s = Some t → ∀ v, In v (corners t) → In v vertices.
Proof.
  destruct s as [[i j] k]. unfold facet.
  destruct (np_getitem vertices i) as [a|] eqn:Ha; [|done].
  destruct (np_getitem vertices j) as [b|] eqn:Hb; [|done].
  destruct (np_getitem vertices k) as [c|] eqn:Hc; [|done].
  simpl. intros [= <-] v [<-|[<-|[<-|[]]]]; by eapply np_getitem_In.
Qed.

(** ** Creating the directory of the output *)

Lemma dirname_no_slash (p : string) : Str.has_slash p = false → posixpath.dirname p = "".
Proof.
  intros Hp. unfold posixpath.dirname, posixpath.split.
  assert (Str.rsplit_slash p = ("", p)) as ->; [|done].
  induction p as [|c p IH]; simpl; [done|].
  simpl in Hp. apply orb_false_iff in Hp as [Hc Hp].
  rewrite (IH Hp). simpl. by rewrite Hc.
Qed.

Lemma makedirs_empty (w : world) : os.makedirs "" w = Raise FileNotFoundError w.
Proof. reflexivity. Qed.

Lemma walk_error (m : gmap location node) (cur : location) (comps : list string) (e : exn) :
  os.walk m cur comps = inl e → e = FileNotFoundError ∨ e = NotADirectoryError.
Proof.
  revert cur. induction comps as [|c comps IH]; intros cur; simpl; [done|].
  destruct (m !! cur) as [[|d]|]; [by apply IH|..]; intros [= <-]; auto.
Qed.

Lemma resolve_error (w : world) (path : string) (e : exn) :
  os.resolve w path = inl e → e = FileNotFoundError ∨ e = NotADirectoryError.
Proof.
  unfold os.resolve. destruct (Str.nonempty path); [apply walk_error|].
  intros [= <-]. auto.
Qed.

Lemma os_mkdir_error (path : string) (w w' : world) (e : exn) :
  os.mkdir path w = Raise e w' → e ≠ RecursionError.
Proof.
  unfold os.mkdir. destruct (os.resolve w path) as [e'|loc] eqn:Hr.
  - intros [= <- <-]. by destruct (resolve_error _ _ _ Hr) as [-> | ->].
  - destruct (fs w !! loc); [by intros [= <- <-]|done].
Qed.

Lemma rstrip_slash_length (s : string) :
  (String.length (Str.rstrip_slash s) ≤ String.length s)%nat.
Proof.
  induction s as [|c s IH]; simpl; [done|].
  destruct (negb (Str.nonempty (Str.rstrip_slash s)) && Ascii.eqb c Str.slash);
    simpl; lia.
Qed.

Lemma split_length (p h t : string) :
  posixpath.split p = (h, t) →
  (String.length h + String.length t ≤ String.length p)%nat.
Proof.
  unfold posixpath.split. pose proof (rsplit_slash_app p) as Happ.
  destruct (Str.rsplit_slash p) as [h0 t0]. simpl in Happ.
  apply (f_equal String.length) in Happ. rewrite app_length_str in Happ.
  pose proof (rstrip_slash_length h0).
  destruct (Str.nonempty (Str.rstrip_slash h0)); intros [= <- <-]; lia.
Qed.

(** The recursion of [os.makedirs] ends before the fuel does. *)
Lemma makedirs_fuel_enough (fuel : nat) (name : string) (w : world) :
  (String.length name < fuel)%nat →
  ∀ w', os.makedirs_fuel fuel name w ≠ Raise RecursionError w'.
Proof.
  revert name w. induction fuel as [|fuel IH]; intros name w Hlen w'; [lia|].
  assert (∀ w1 w2, (fun w => match os.mkdir name w with
            | Raise e w' => if os.path_isdir w' name then Ok tt w' else Raise e w'
            | r => r end) w1 ≠ Raise RecursionError w2) as Hleaf.
  { intros w1 w2. destruct (os.mkdir name w1) as [[] w3|e w3] eqn:Hm; [done|].
    apply os_mkdir_error in Hm. destruct (os.path_isdir w3 name); congruence. }
  cbn [os.makedirs_fuel].
  destruct (posixpath.split name) as [head tail] eqn:Hs.
  apply split_length in Hs.
  destruct (if Str.nonempty tail then (head, tail) else posixpath.split head)
    as [head' tail'] eqn:Hs'.
  unfold bind, ask.
  destruct (Str.nonempty head' && Str.nonempty tail' && negb (os.path_exists w head'))
    eqn:Hc; [|apply Hleaf].
  apply andb_true_iff in Hc as [[_ Ht%nonempty_true]%andb_true_iff _].
  assert (String.length head' < fuel)%nat as Hlt.
  { assert (String.length tail' ≠ 0%nat) by (by destruct tail').
    destruct (Str.nonempty tail).
    - simplify_eq. lia.
    - apply split_length in Hs'. lia. }
  unfold pass_FileExistsError.
  pose proof (IH head' w Hlt) as Hrec.
  destruct (os.makedirs_fuel fuel head' w) as [[] w1|e w1].
  - destruct (String.eqb tail' "."); [done|apply Hleaf].
  - destruct e; try done.
    destruct (String.eqb tail' "."); [done|apply Hleaf].
Qed.

Lemma makedirs_total (name : string) (w w' : world) :
  os.makedirs name w ≠ Raise RecursionError w'.
Proof. apply makedirs_fuel_enough. lia. Qed.

(** * The claims *)

Section Correctness.

Variable np_sort : list point → list point.
Variable ConvexHull : list point → string + list simplex.

(** What a comparison sort guarantees. *)
Hypothesis np_sort_Permutation : ∀ l, np_sort l ≡ₚ l.
Hypothesis np_sort_Sorted : ∀ l, Sorted row_le (np_sort l).

Local Abbreviation np_unique := (generate_convex.np_unique np_sort).
Local Abbreviation generate_convex_stl :=
  (generate_convex.generate_convex_stl np_sort ConvexHull).
Local Abbreviation for_each_file := (generate_convex.for_each_file np_sort ConvexHull).
Local Abbreviation scan_and_convert :=
  (generate_convex.scan_and_convert np_sort ConvexHull).
Local Abbreviation batch_convex_hull_generation :=
  (generate_convex.batch_convex_hull_generation np_sort ConvexHull).

(** The point cloud of a mesh *)
Local Abbreviation cloud m := (np_unique (reshape m)).

(** The steps after a successful hull computation *)
Local Abbreviation write_hull output vertices simplices :=
  (let* convex_mesh := fill_vectors vertices simplices in
   os.makedirs (posixpath.dirname output) ;;
   stl.save convex_mesh output ;;
   print (INFO_saved output)).

(** The run on an input file that loads as the mesh [m]. *)
Lemma generate_loaded (input output : string) (w : world) (m : mesh) :
  os.stat w input = Some (File (Stl m)) →
  generate_convex_stl input output w =
    let w1 := logged (INFO_loaded input (length m)) w in
    if (length (cloud m) <? 4)%nat then
      Ok tt (logged (WARN_not_enough_vertices input) w1)
    else
      match ConvexHull (cloud m) with
      | inl e => Ok tt (logged (ERROR_hull_failed input e) w1)
      | inr simplices => write_hull output (cloud m) simplices w1
      end.
Proof.
  intros Hstat.
  unfold generate_convex.generate_convex_stl, bind, ask, os.path_isfile,
    stl.from_file, os.read_file, bind, ret, print.
  cbv beta. rewrite Hstat. cbn [negb]. cbv beta iota. unfold os.stat in Hstat.
  destruct (os.resolve w input) as [e|loc]; [done|]. rewrite Hstat. cbv beta iota zeta.
  destruct (length (cloud m) <? 4)%nat; [done|].
  by destruct (ConvexHull (cloud m)).
Qed.

(** A run that returns after a successful hull computation has resolved
    the facets into points; the output path then holds that mesh, unless
    it could not be opened for writing and is no file. *)
Lemma write_hull_saved (output : string) (vertices : list point)
    (simplices : list simplex) (w w' : world) :
  write_hull output vertices simplices w = Ok tt w' →
  ∃ g, mapM (facet vertices) simplices = Some g ∧
       (os.stat w' output = Some (File (Stl g)) ∨ os.path_isfile w' output = false).
Proof.
  unfold fill_vectors, bind.
  destruct (mapM (facet vertices) simplices) as [g|]; [|done].
  unfold ret. destruct (os.makedirs _ w) as [[] w1|e w1]; [|done].
  unfold stl.save.
  destruct (os.write_file output (Stl g) w1) as [[] w2|e w2] eqn:Hw;
    unfold print; intros [= <-]; exists g; (split; [done|]).
  - left. rewrite stat_logged. by apply write_file_stat in Hw as [? _].
  - right. by apply write_file_raise in Hw as [_ ?].
Qed.

(** C1: for a mesh whose point cloud has at least four points and whose
    hull computation succeeds, a run of [generate_convex_stl] that returns
    has built the output mesh from the hull facets resolved into the point
    cloud, so every vertex of that mesh is a point of the deduplicated
    cloud; the output path holds that mesh, unless it could not be opened
    for writing and is no file. *)
Theorem C1_output_vertices_in_cloud (input output : string) (w w' : world)
    (m : mesh) (simplices : list simplex) :
  os.stat w input = Some (File (Stl m)) →
  (4 ≤ length (cloud m))%nat →
  ConvexHull (cloud m) = inr simplices →
  generate_convex_stl input output w = Ok tt w' →
  ∃ g, (os.stat w' output = Some (File (Stl g)) ∨ os.path_isfile w' output = false) ∧
       Forall2 (λ s t, facet (cloud m) s = Some t) simplices g ∧
       ∀ t v, In t g → In v (corners t) → In v (cloud m).
Proof.
  intros Hstat Hlen Hhull. rewrite (generate_loaded _ _ _ _ Hstat). cbv zeta.
  apply Nat.ltb_ge in Hlen. rewrite Hlen, Hhull.
  intros (g & Hg & Hout)%write_hull_saved. exists g.
  apply mapM_Some in Hg. split_and!; [done..|].
  intros t v Ht Hv. apply list_elem_of_In, list_elem_of_lookup in Ht as [i Hi].
  destruct (Forall2_lookup_r _ _ _ _ _ Hg Hi) as (s & _ & Hs).
  by eapply facet_corners.
Qed.

(** C3: an input whose point cloud has fewer than four points is skipped:
    the run returns normally, nothing in the file system changes, the
    warning is printed after the load message, and the loop of the batch
    goes on with the next file. *)
Theorem C3_too_few_vertices_skipped (input output : string) (w : world) (m : mesh) :
  os.stat w input = Some (File (Stl m)) →
  (length (cloud m) < 4)%nat →
  ∃ w', generate_convex_stl input output w = Ok tt w' ∧
        fs w' = fs w ∧
        stdout w' = stdout w ++
          [INFO_loaded input (length m); WARN_not_enough_vertices input] ∧
        ∀ output_dir suffix in_path rest,
          pathlib.path_str in_path = input →
          for_each_file output_dir suffix (in_path :: rest) w =
            for_each_file output_dir suffix rest w'.
Proof.
  intros Hstat Hlen%Nat.ltb_lt. eexists. split_and!.
  - rewrite (generate_loaded _ _ _ _ Hstat). cbv zeta. by rewrite Hlen.
  - done.
  - simpl. by rewrite <- app_assoc.
  - intros output_dir suffix in_path rest <-. cbn [generate_convex.for_each_file].
    unfold bind at 1. rewrite (generate_loaded _ _ _ _ Hstat). cbv zeta.
    by rewrite Hlen.
Qed.

(** C4: when the hull library raises, the exception is caught: the run
    returns normally, nothing in the file system changes, the error is
    printed with its cause, and the loop of the batch goes on. *)
Theorem C4_hull_failure_skipped (input output cause : string) (w : world) (m : mesh) :
  os.stat w input = Some (File (Stl m)) →
  (4 ≤ length (cloud m))%nat →
  ConvexHull (cloud m) = inl cause →
  ∃ w', generate_convex_stl input output w = Ok tt w' ∧
        fs w' = fs w ∧
        stdout w' = stdout w ++
          [INFO_loaded input (length m); ERROR_hull_failed input cause] ∧
        ∀ output_dir suffix in_path rest,
          pathlib.path_str in_path = input →
          for_each_file output_dir suffix (in_path :: rest) w =
            for_each_file output_dir suffix rest w'.
Proof.
  intros Hstat Hlen%Nat.ltb_ge Hhull. eexists. split_and!.
  - rewrite (generate_loaded _ _ _ _ Hstat). cbv zeta. by rewrite Hlen, Hhull.
  - done.
  - simpl. by rewrite <- app_assoc.
  - intros output_dir suffix in_path rest <-. cbn [generate_convex.for_each_file].
    unfold bind at 1. rewrite (generate_loaded _ _ _ _ Hstat). cbv zeta.
    by rewrite Hlen, Hhull.
Qed.

(** An output path without a directory part: [os.makedirs("")] raises. *)
Lemma generate_bare_output (input output : string) (w : world) (m g : mesh)
    (simplices : list simplex) :
  os.stat w input = Some (File (Stl m)) →
  (4 ≤ length (cloud m))%nat →
  ConvexHull (cloud m) = inr simplices →
  mapM (facet (cloud m)) simplices = Some g →
  Str.has_slash output = false →
  generate_convex_stl input output w =
    Raise FileNotFoundError (logged (INFO_loaded input (length m)) w).
Proof.
  intros Hstat Hlen%Nat.ltb_ge Hhull Hg Hout.
  rewrite (generate_loaded _ _ _ _ Hstat). cbv zeta. rewrite Hlen, Hhull.
  unfold fill_vectors, bind. rewrite Hg. unfold ret.
  by rewrite (dirname_no_slash _ Hout), makedirs_empty.
Qed.

Lemma cloud_In (m : mesh) (p : point) : In p (cloud m) → In p (reshape m).
Proof.
  intros Hp%keep_changes_In. apply list_elem_of_In.
  rewrite <- (np_sort_Permutation (reshape m)). by apply list_elem_of_In.
Qed.

Lemma cloud_represents (m : mesh) (p : point) :
  In p (reshape m) → ∃ k, In k (cloud m) ∧ row_rank k = row_rank p.
Proof.
  intros Hp. apply keep_changes_represents. apply list_elem_of_In.
  rewrite (np_sort_Permutation (reshape m)). by apply list_elem_of_In.
Qed.

Lemma cloud_sorted_le (m : mesh) : StronglySorted row_le (cloud m).
Proof.
  unfold generate_convex.np_unique. pose proof (np_sort_Sorted (reshape m)) as Hs.
  destruct (np_sort (reshape m)) as [|x aux]; [constructor|].
  by apply mask_from_sorted_le.
Qed.

Lemma cloud_sorted_lt (m : mesh) :
  nan_free m = true → StronglySorted row_lt (cloud m).
Proof.
  intros Hnan%nan_free_Forall. unfold generate_convex.np_unique.
  pose proof (np_sort_Sorted (reshape m)) as Hs.
  rewrite <- (np_sort_Permutation (reshape m)) in Hnan.
  destruct (np_sort (reshape m)) as [|x aux]; [constructor|].
  by apply mask_from_sorted_lt.
Qed.

Lemma cloud_covers (m m' : mesh) :
  covers m m' = true →
  ∀ p, In p (cloud m) → ∃ q, In q (cloud m') ∧ row_rank p = row_rank q.
Proof.
  intros Hc p Hp%cloud_In.
  destruct (covers_spec _ _ Hc p Hp) as (q & Hq & Hpq).
  destruct (cloud_represents m' q Hq) as (k & Hk & Hkq).
  exists k. split; [done|congruence].
Qed.

(** The cloud has no more rows than the mesh has vertices, and no more
    rows than there are points the vertices are equal to, as floats. *)
Lemma cloud_length_reshape (m : mesh) : (length (cloud m) ≤ 3 * length m)%nat.
Proof.
  unfold generate_convex.np_unique.
  pose proof (keep_changes_length (np_sort (reshape m))) as Hk.
  rewrite (Permutation_length (np_sort_Permutation (reshape m))) in Hk.
  assert (length (reshape m) = 3 * length m)%nat as Hlen.
  { clear. unfold reshape.
    induction m as [|[[a b] c] m IH]; simpl in *; [done|]. rewrite IH. lia. }
  lia.
Qed.

Lemma strictly_sorted_ranks_NoDup (c : list point) :
  StronglySorted row_lt c → List.NoDup (map row_rank c).
Proof.
  induction 1 as [|x c _ IH Hall]; simpl; constructor; [|done].
  intros (y & Hxy & Hy)%in_map_iff. rewrite List.Forall_forall in Hall.
  apply (row_lt_irrefl x). eapply row_lt_rank_r; [exact Hxy|]. by apply Hall.
Qed.

Lemma cloud_length_le (m : mesh) (reps : list point) :
  (∀ p, In p (reshape m) → ∃ q, In q reps ∧ row_eqb p q = true) →
  (length (cloud m) ≤ length reps)%nat.
Proof.
  intros Hreps.
  assert (nan_free m = true) as Hnan.
  { apply nan_free_Forall, List.Forall_forall. intros p Hp.
    destruct (Hreps p Hp) as (q & _ & Hq). by apply row_eqb_rank in Hq as (? & _). }
  rewrite <- (length_map row_rank (cloud m)), <- (length_map row_rank reps).
  apply NoDup_incl_length; [by apply strictly_sorted_ranks_NoDup, cloud_sorted_lt|].
  intros r (p & <- & Hp%cloud_In)%in_map_iff.
  destruct (Hreps p Hp) as (q & Hq & Heq). apply in_map_iff.
  exists q. split; [|done]. by apply row_eqb_rank in Heq as (_ & _ & ->).
Qed.

(** Rows with a NaN coordinate differ from every row, themselves
    included: none of them is dropped, whatever the sort does. *)
Lemma nan_rows_kept (rows : list point) :
  Forall (λ p, row_has_nan p = true) rows →
  length (np_unique rows) = length rows.
Proof.
  intros Hnan. rewrite <- (np_sort_Permutation rows) in Hnan.
  rewrite <- (Permutation_length (np_sort_Permutation rows)).
  unfold generate_convex.np_unique.
  destruct (np_sort rows) as [|x aux]; [done|]. simpl. f_equal.
  apply Forall_cons in Hnan as [_ Hnan]. revert x.
  induction Hnan as [|y aux Hy _ IH]; intros x; simpl; [done|].
  assert (row_eqb y x = false) as ->; [|simpl; by rewrite IH].
  destruct (row_eqb y x) eqn:Heq; [|done].
  apply row_eqb_rank in Heq as (? & _). congruence.
Qed.

(** C10, amended: the point cloud of every mesh is sorted in the order
    of the row comparison.  For meshes without NaN coordinates it is
    strictly increasing, and two such meshes with the same set of
    vertices (compared as floats) have point clouds of the same length
    whose rows are equal as floats, whatever the order and the number of
    repetitions of their triangles. *)
Theorem C10_point_cloud_canonical (m m' : mesh) :
  Sorted row_le (cloud m) ∧
  (nan_free m = true →
   StronglySorted row_lt (cloud m) ∧
   (nan_free m' = true → same_vertex_set m m' = true →
    Forall2 (λ p q, row_eqb p q = true) (cloud m) (cloud m'))).
Proof.
  split; [apply StronglySorted_Sorted, cloud_sorted_le|].
  intros Hm. split; [by apply cloud_sorted_lt|].
  intros Hm' [H12 H21]%andb_true_iff.
  assert (Forall2 (λ p q, row_rank p = row_rank q) (cloud m) (cloud m')) as Hranks.
  { apply strictly_sorted_same_ranks; try by apply cloud_sorted_lt.
    - by apply cloud_covers.
    - intros q Hq. destruct (cloud_covers _ _ H21 q Hq) as (p & ? & ?). eauto. }
  assert (∀ n p, nan_free n = true → In p (cloud n) → row_has_nan p = false) as Hfree.
  { intros n p Hn%nan_free_Forall Hp%cloud_In.
    rewrite List.Forall_forall in Hn. by apply Hn. }
  assert (Forall (λ p, row_has_nan p = false) (cloud m)) as Hc
    by (apply List.Forall_forall; eauto).
  assert (Forall (λ p, row_has_nan p = false) (cloud m')) as Hc'
    by (apply List.Forall_forall; eauto).
  clear -Hranks Hc Hc'.
  induction Hranks as [|p q l l' Hpq _ IH]; [constructor|].
  apply Forall_cons in Hc as [? ?]. apply Forall_cons in Hc' as [? ?].
  constructor; [by apply row_eqb_rank|by apply IH].
Qed.


(** C8, amended: when the input path is still not a directory once the
    output directory has been created, listing it raises
    [FileNotFoundError] or [NotADirectoryError], which ends the run: no
    line has been printed and no file written. *)
Theorem C8_missing_input_directory (input_directory : string)
    (output_directory suffix : option string) (w w1 : world) :
  pathlib.mkdir (output_dir_of input_directory output_directory) w = Ok tt w1 →
  os.path_isdir w1 (pathlib.path_str (pathlib.Path input_directory)) = false →
  ∃ e, batch_convex_hull_generation input_directory output_directory suffix w
         = Raise e w1 ∧
       (e = FileNotFoundError ∨ e = NotADirectoryError) ∧
       same_files w w1.
Proof.
  intros Hmk Hdir.
  pose proof (pathlib_mkdir_same_files
                (output_dir_of input_directory output_directory) w) as Hsame.
  rewrite Hmk in Hsame.
  unfold generate_convex.batch_convex_hull_generation, bind. rewrite Hmk.
  unfold generate_convex.scan_and_convert, pathlib.iterdir, bind, os.listdir.
  unfold os.path_isdir, os.stat in Hdir.
  destruct (os.resolve w1 _) as [e|loc] eqn:Hr.
  - exists e. split_and!; [done| |done]. by eapply resolve_error.
  - destruct (fs w1 !! loc) as [[|d]|]; [done|..]; eauto.
Qed.

End Correctness.

(** * The claims on sample data *)

(** C1 on the sample tetrahedron, converted into a new directory *)
Lemma C1_witness :
  os.stat Sample.w0 "cube.stl" = Some (File (Stl Sample.tetra)) ∧
  (4 ≤ length (np_unique row_isort (reshape Sample.tetra)))%nat ∧
  Sample.hull (np_unique row_isort (reshape Sample.tetra))
    = inr [(0, 1, 2); (0, 1, 3); (0, 2, 3); (1, 2, 3)] ∧
  generate_convex_stl row_isort Sample.hull "cube.stl" "out/cube_convex.stl" Sample.w0
    = Ok tt Sample.w1 ∧
  os.path_isfile Sample.w1 "out/cube_convex.stl" = true ∧
  ∃ g, (os.stat Sample.w1 "out/cube_convex.stl" = Some (File (Stl g)) ∨
        os.path_isfile Sample.w1 "out/cube_convex.stl" = false) ∧
       Forall2 (λ s t, facet (np_unique row_isort (reshape Sample.tetra)) s = Some t)
         [(0, 1, 2); (0, 1, 3); (0, 2, 3); (1, 2, 3)] g ∧
       ∀ t v, In t g → In v (corners t) →
              In v (np_unique row_isort (reshape Sample.tetra)).
Proof.
  assert (os.stat Sample.w0 "cube.stl" = Some (File (Stl Sample.tetra))) as H1
    by (vm_compute; reflexivity).
  assert (4 ≤ length (np_unique row_isort (reshape Sample.tetra)))%nat as H2
    by (vm_compute; lia).
  assert (Sample.hull (np_unique row_isort (reshape Sample.tetra))
            = inr [(0, 1, 2); (0, 1, 3); (0, 2, 3); (1, 2, 3)]) as H3
    by (vm_compute; reflexivity).
  assert (generate_convex_stl row_isort Sample.hull "cube.stl" "out/cube_convex.stl"
            Sample.w0 = Ok tt Sample.w1) as H4
    by (vm_compute; reflexivity).
  assert (os.path_isfile Sample.w1 "out/cube_convex.stl" = true) as H5
    by (vm_compute; reflexivity).
  split_and!; [done..|].
  exact (C1_output_vertices_in_cloud row_isort Sample.hull "cube.stl"
           "out/cube_convex.stl" Sample.w0 Sample.w1 Sample.tetra _ H1 H2 H3 H4).
Defined.

(** C3 on a mesh of one triangle *)
Lemma C3_witness :
  os.stat Sample.w0 "flat.STL" = Some (File (Stl Sample.flat)) ∧
  (length (np_unique row_isort (reshape Sample.flat)) < 4)%nat ∧
  ∃ w', generate_convex_stl row_isort Sample.hull "flat.STL" "out/flat_convex.stl"
          Sample.w0 = Ok tt w' ∧
        fs w' = fs Sample.w0 ∧
        stdout w' = stdout Sample.w0 ++
          [INFO_loaded "flat.STL" (length Sample.flat);
           WARN_not_enough_vertices "flat.STL"] ∧
        ∀ output_dir suffix in_path rest,
          pathlib.path_str in_path = "flat.STL" →
          for_each_file row_isort Sample.hull output_dir suffix (in_path :: rest) Sample.w0
            = for_each_file row_isort Sample.hull output_dir suffix rest w'.
Proof.
  assert (os.stat Sample.w0 "flat.STL" = Some (File (Stl Sample.flat))) as H1
    by (vm_compute; reflexivity).
  assert (length (np_unique row_isort (reshape Sample.flat)) < 4)%nat as H2
    by (vm_compute; lia).
  split_and!; [done..|].
  exact (C3_too_few_vertices_skipped row_isort Sample.hull "flat.STL"
           "out/flat_convex.stl" Sample.w0 Sample.flat H1 H2).
Defined.

(** C4 on a flat square, on which the sample hull fails *)
Lemma C4_witness :
  os.stat Sample.w0 "square.stl" = Some (File (Stl Sample.square)) ∧
  (4 ≤ length (np_unique row_isort (reshape Sample.square)))%nat ∧
  Sample.hull (np_unique row_isort (reshape Sample.square))
    = inl "QH6154 Qhull precision error: initial simplex is flat" ∧
  ∃ w', generate_convex_stl row_isort Sample.hull "square.stl" "out/square_convex.stl"
          Sample.w0 = Ok tt w' ∧
        fs w' = fs Sample.w0 ∧
        stdout w' = stdout Sample.w0 ++
          [INFO_loaded "square.stl" (length Sample.square);
           ERROR_hull_failed "square.stl"
             "QH6154 Qhull precision error: initial simplex is flat"] ∧
        ∀ output_dir suffix in_path rest,
          pathlib.path_str in_path = "square.stl" →
          for_each_file row_isort Sample.hull output_dir suffix (in_path :: rest) Sample.w0
            = for_each_file row_isort Sample.hull output_dir suffix rest w'.
Proof.
  assert (os.stat Sample.w0 "square.stl" = Some (File (Stl Sample.square))) as H1
    by (vm_compute; reflexivity).
  assert (4 ≤ length (np_unique row_isort (reshape Sample.square)))%nat as H2
    by (vm_compute; lia).
  assert (Sample.hull (np_unique row_isort (reshape Sample.square))
            = inl "QH6154 Qhull precision error: initial simplex is flat") as H3
    by (vm_compute; reflexivity).
  split_and!; [done..|].
  exact (C4_hull_failure_skipped row_isort Sample.hull "square.stl"
           "out/square_convex.stl" _ Sample.w0 Sample.square H1 H2 H3).
Defined.

(** C10 on the tetrahedron and a reordering of it with a repeated triangle *)
Lemma C10_witness :
  nan_free Sample.tetra = true ∧
  nan_free Sample.tetra' = true ∧
  same_vertex_set Sample.tetra Sample.tetra' = true ∧
  Sorted row_le (np_unique row_isort (reshape Sample.tetra)) ∧
  StronglySorted row_lt (np_unique row_isort (reshape Sample.tetra)) ∧
  Forall2 (λ p q, row_eqb p q = true)
    (np_unique row_isort (reshape Sample.tetra))
    (np_unique row_isort (reshape Sample.tetra')).
Proof.
  assert (nan_free Sample.tetra = true) as H1 by (vm_compute; reflexivity).
  assert (nan_free Sample.tetra' = true) as H2 by (vm_compute; reflexivity).
  assert (same_vertex_set Sample.tetra Sample.tetra' = true) as H3
    by (vm_compute; reflexivity).
  destruct (C10_point_cloud_canonical row_isort row_isort_Permutation row_isort_Sorted
              Sample.tetra Sample.tetra') as [Hle Hrest].
  destruct (Hrest H1) as [Hlt Heq].
  split_and!; [done..|]. exact (Heq H2 H3).
Defined.


(** C8 on a missing input directory with an existing output directory *)
Lemma C8_witness :
  pathlib.mkdir (output_dir_of "missing" (Some "/work")) Sample.w0 = Ok tt Sample.w0 ∧
  os.path_isdir Sample.w0 (pathlib.path_str (pathlib.Path "missing")) = false ∧
  ∃ e, batch_convex_hull_generation row_isort Sample.hull "missing" (Some "/work") None
         Sample.w0 = Raise e Sample.w0 ∧
       (e = FileNotFoundError ∨ e = NotADirectoryError) ∧
       same_files Sample.w0 Sample.w0.
Proof.
  assert (pathlib.mkdir (output_dir_of "missing" (Some "/work")) Sample.w0
            = Ok tt Sample.w0) as H1 by (vm_compute; reflexivity).
  assert (os.path_isdir Sample.w0 (pathlib.path_str (pathlib.Path "missing")) = false)
    as H2 by (vm_compute; reflexivity).
  split_and!; [done..|].
  exact (C8_missing_input_directory row_isort Sample.hull "missing" (Some "/work") None
           Sample.w0 Sample.w0 H1 H2).
Defined.


(** C8 fails when the output directory is left at the input directory:
    the missing directory is created and the run returns with a warning. *)
Lemma C8_counterexample :
  os.path_exists Sample.w0 "missing" = false ∧
  ∃ w', Sample.batch "missing" None None Sample.w0 = Ok tt w' ∧
        stdout w' = [WARN_no_stl_files "missing"] ∧
        os.path_isdir w' "missing" = true.
Proof.
  split; [vm_compute; reflexivity|].
  eexists. split_and!; [vm_compute; reflexivity|reflexivity|vm_compute; reflexivity].
Qed.

(** C10 fails for NaN coordinates: a mesh and the same mesh with its
    triangle repeated have the same triangles and vertices, but no NaN row
    is dropped, so the point clouds have three and six rows. *)
Lemma C10_counterexample :
  (∀ t, In t Sample.nan_mesh ↔ In t (Sample.nan_mesh ++ Sample.nan_mesh)) ∧
  (∀ p, In p (reshape Sample.nan_mesh) ↔
        In p (reshape (Sample.nan_mesh ++ Sample.nan_mesh))) ∧
  length (np_unique row_isort (reshape Sample.nan_mesh)) = 3%nat ∧
  length (np_unique row_isort (reshape (Sample.nan_mesh ++ Sample.nan_mesh))) = 6%nat ∧
  np_unique row_isort (reshape Sample.nan_mesh)
    ≠ np_unique row_isort (reshape (Sample.nan_mesh ++ Sample.nan_mesh)).
Proof.
  split_and!.
  - intros t. simpl. tauto.
  - intros p. simpl. tauto.
  - vm_compute. reflexivity.
  - vm_compute. reflexivity.
  - vm_compute. discriminate.
Qed.

(** C9 (the code departs from the claim): an output path without a
    directory part makes [os.makedirs] raise [FileNotFoundError] on the
    empty directory name, after a successful hull computation and before
    anything is written; the batch on the directory ["."] ends the same way
    at its first convertible file.  With a directory part the same input is
    converted and the missing directory created. *)
Theorem C9_bare_output_name_raises :
  Sample.convert "cube.stl" "cube_convex.stl" Sample.w0
    = Raise FileNotFoundError (logged (INFO_loaded "cube.stl" 4) Sample.w0) ∧
  os.stat (Sample.after (Sample.convert "cube.stl" "cube_convex.stl") Sample.w0)
    "cube_convex.stl" = None ∧
  Sample.batch "." None (Some "_convex") Sample.w0
    = Raise FileNotFoundError
        (logged (INFO_loaded "cube.stl" 4) (logged (INFO_found 3 ".") Sample.w0)) ∧
  Sample.convert "cube.stl" "out/cube_convex.stl" Sample.w0 = Ok tt Sample.w1 ∧
  os.path_isdir Sample.w0 "out" = false ∧
  os.path_isdir Sample.w1 "out" = true ∧
  os.path_isfile Sample.w1 "out/cube_convex.stl" = true.
Proof.
  split_and!.
  - eapply (generate_bare_output row_isort Sample.hull "cube.stl" "cube_convex.stl"
              Sample.w0 Sample.tetra); vm_compute; first [reflexivity | lia].
  - vm_compute. reflexivity.
  - vm_compute. reflexivity.
  - vm_compute. reflexivity.
  - vm_compute. reflexivity.
  - vm_compute. reflexivity.
  - vm_compute. reflexivity.
Qed.

(** * Further properties *)

(** ** More on strings *)

Lemma nonempty_app (a b : string) :
  Str.nonempty (a +:+ b) = Str.nonempty a || Str.nonempty b.
Proof. by destruct a. Qed.

Lemma startswith_slash_app (a b : string) :
  Str.nonempty a = true → Str.startswith_slash (a +:+ b) = Str.startswith_slash a.
Proof. by destruct a. Qed.

Lemma rsplit_slash_head (s : string) :
  fst (Str.rsplit_slash s) = "" ∨
  ∃ h, fst (Str.rsplit_slash s) = h +:+ String Str.slash "".
Proof.
  induction s as [|c s IH]; simpl; [by left|].
  destruct (Str.rsplit_slash s) as [h t]; simpl in *.
  destruct IH as [->|[h' ->]]; simpl.
  - destruct (Ascii.eqb c Str.slash) eqn:Hc; simpl; [|by left].
    apply Ascii.eqb_eq in Hc as ->. right. by exists "".
  - assert (Str.nonempty (h' +:+ String Str.slash "") = true) as ->
      by (by rewrite nonempty_app, orb_true_r).
    right. exists (String c h'). by rewrite app_cons.
Qed.

Lemma rsplit_slash_tail (s : string) :
  Str.has_slash (snd (Str.rsplit_slash s)) = false.
Proof.
  induction s as [|c s IH]; simpl; [done|].
  pose proof (rsplit_slash_app s) as Happ.
  destruct (Str.rsplit_slash s) as [h t]; simpl in *.
  destruct (Str.nonempty h) eqn:Hh; simpl; [done|].
  apply nonempty_false in Hh as ->. rewrite app_nil_l in Happ. subst t.
  destruct (Ascii.eqb c Str.slash) eqn:Hc; simpl; [done|]. by rewrite Hc.
Qed.

(** A string is what [rstrip] leaves of it, followed by slashes. *)
Lemma rstrip_slash_decomp (s : string) :
  ∃ z, s = Str.rstrip_slash s +:+ z ∧ Str.rstrip_slash z = "".
Proof.
  induction s as [|c s (z & Hs & Hz)]; simpl; [by exists ""|].
  destruct (Str.nonempty (Str.rstrip_slash s)) eqn:Hn; simpl.
  - exists z. split; [|done]. rewrite app_cons. by rewrite <- Hs.
  - apply nonempty_false in Hn. rewrite Hn, app_nil_l in Hs. subst z.
    destruct (Ascii.eqb c Str.slash) eqn:Hc.
    + apply Ascii.eqb_eq in Hc as ->. exists (String Str.slash s).
      split; [done|]. simpl. by rewrite Hz.
    + exists s. split; [by rewrite Hn|done].
Qed.

Lemma rstrip_slash_all (z : string) :
  Str.rstrip_slash z = "" → z = "" ∨ ∃ z', z = String Str.slash z' ∧ Str.rstrip_slash z' = "".
Proof.
  destruct z as [|c z]; [by left|]. simpl. right.
  destruct (Str.nonempty (Str.rstrip_slash z)) eqn:Hn; simpl; [done|].
  destruct (Ascii.eqb c Str.slash) eqn:Hc; [|done].
  apply Ascii.eqb_eq in Hc as ->. exists z. split; [done|]. by apply nonempty_false.
Qed.

Lemma rstrip_slash_not_endswith (s : string) :
  Str.endswith_slash (Str.rstrip_slash s) = false.
Proof.
  induction s as [|c s IH]; simpl; [done|].
  destruct (Str.nonempty (Str.rstrip_slash s)) eqn:Hn; simpl.
  - destruct (Str.rstrip_slash s); [done|]. exact IH.
  - destruct (Ascii.eqb c Str.slash) eqn:Hc; simpl; [done|].
    apply nonempty_false in Hn. by rewrite Hn, Hc.
Qed.

Lemma endswith_slash_app_slash (a : string) :
  Str.endswith_slash (a +:+ String Str.slash "") = true.
Proof.
  induction a as [|c a IH]; [done|]. rewrite app_cons. simpl.
  destruct (a +:+ String Str.slash "") eqn:Ha; [|done].
  by destruct a.
Qed.

(** The two parts of [posixpath.split] with a head that is not empty: the
    head is all slashes, or the path is the head, a slash, further
    slashes and the tail. *)
Lemma posixpath_split_decomp (p head tail : string) :
  posixpath.split p = (head, tail) → Str.nonempty head = true →
  Str.has_slash tail = false ∧
  ∃ h, (Str.rstrip_slash head = "" ∧ head = h +:+ String Str.slash "" ∧
        p = h +:+ String Str.slash tail) ∨
       (∃ z, Str.rstrip_slash z = "" ∧ Str.endswith_slash head = false ∧ h = head ∧
             p = head +:+ String Str.slash (z +:+ tail)).
Proof.
  unfold posixpath.split.
  pose proof (rsplit_slash_app p) as Happ. pose proof (rsplit_slash_tail p) as Htl.
  pose proof (rsplit_slash_head p) as Hhd.
  destruct (Str.rsplit_slash p) as [h0 t0]. simpl in *.
  destruct (Str.nonempty (Str.rstrip_slash h0)) eqn:Hn; intros [= <- <-] Hne.
  - split; [done|]. exists (Str.rstrip_slash h0). right.
    destruct (rstrip_slash_decomp h0) as (z0 & Hz0 & Hz).
    destruct (rstrip_slash_all z0 Hz) as [->|(z & -> & Hz')].
    + rewrite app_nil_r in Hz0.
      pose proof (rstrip_slash_not_endswith h0) as Hend. rewrite <- Hz0 in Hend.
      destruct Hhd as [->|[h' ->]]; [done|]. by rewrite endswith_slash_app_slash in Hend.
    + exists z. split_and!; [done|apply rstrip_slash_not_endswith|done|].
      rewrite <- Happ. rewrite Hz0 at 1. by rewrite app_assoc_str, app_cons.
  - split; [done|]. apply nonempty_false in Hn.
    destruct Hhd as [->|[h' ->]]; [done|]. exists h'. left.
    split_and!; [done..|]. rewrite <- Happ. by rewrite app_assoc_str.
Qed.

Lemma split_slashes_app (z t : string) :
  Str.rstrip_slash z = "" →
  Str.split_slash (z +:+ t) = replicate (String.length z) "" ++ Str.split_slash t.
Proof.
  induction z as [|c z IH]; [done|]. intros Hz.
  destruct (rstrip_slash_all _ Hz) as [?|(z' & [= -> ->] & Hz')]; [done|].
  rewrite app_cons. simpl. by rewrite IH.
Qed.

(** ** More on path resolution *)

Lemma walk_app (m : gmap location node) (cur : location) (l1 l2 : list string) :
  os.walk m cur (l1 ++ l2) =
    match os.walk m cur l1 with
    | inr mid => os.walk m mid l2
    | inl e => inl e
    end.
Proof.
  revert cur. induction l1 as [|c l1 IH]; intros cur; simpl; [done|].
  by destruct (m !! cur) as [[|d]|].
Qed.

Lemma walk_empties (m : gmap location node) (cur : location) (k : nat) :
  m !! cur = Some Dir → os.walk m cur (replicate k "") = inr cur.
Proof. intros Hd. induction k as [|k IH]; simpl; [done|]. by rewrite Hd. Qed.

Lemma walk_one (m : gmap location node) (cur : location) (c : string) :
  m !! cur = Some Dir → os.walk m cur [c] = inr (os.step cur c).
Proof. intros Hd. simpl. by rewrite Hd. Qed.

Lemma walk_Dir (m : gmap location node) (cur loc : location) (c : string)
    (rest : list string) :
  os.walk m cur (c :: rest) = inr loc → m !! cur = Some Dir.
Proof. simpl. by destruct (m !! cur) as [[|d]|]. Qed.

Lemma step_entry_name (cur : location) (n : string) :
  entry_name n → os.step cur n = cur ++ [n].
Proof.
  intros [[Hk _] Hdd]. unfold os.step, pathlib.keep in *.
  apply andb_true_iff in Hk as [Hne Hdot].
  destruct n as [|a n]; [done|]. apply negb_true_iff in Hdot. rewrite Hdot.
  apply String.eqb_neq in Hdd. by rewrite Hdd.
Qed.

Lemma resolve_app_slash (w : world) (h b : string) :
  os.resolve w (h +:+ String Str.slash b) =
    os.walk (fs w) (start_of w (h +:+ String Str.slash "")) (Str.split_slash h ++ Str.split_slash b).
Proof.
  unfold os.resolve, start_of. rewrite nonempty_app, orb_true_r, split_slash_app.
  by destruct h.
Qed.

Lemma resolve_nonempty (w : world) (p : string) :
  Str.nonempty p = true →
  os.resolve w p = os.walk (fs w) (start_of w p) (Str.split_slash p).
Proof. unfold os.resolve. by intros ->. Qed.

Lemma isdir_resolve (w : world) (p : string) :
  os.path_isdir w p = true ↔ ∃ loc, os.resolve w p = inr loc ∧ fs w !! loc = Some Dir.
Proof.
  unfold os.path_isdir, os.stat. destruct (os.resolve w p) as [e|loc].
  - split; [done|]. by intros (? & ? & _).
  - destruct (fs w !! loc) as [[|d]|] eqn:Hl; split; try done; eauto.
    + intros (? & [= <-] & ?). congruence.
    + intros (? & [= <-] & ?). congruence.
Qed.

(** The head of [posixpath.split] of a path that resolves is a directory. *)
Lemma split_head_isdir (w : world) (p head tail : string) (loc : location) :
  os.resolve w p = inr loc →
  posixpath.split p = (head, tail) → Str.nonempty head = true →
  os.path_isdir w head = true.
Proof.
  intros Hr Hs Hne.
  destruct (posixpath_split_decomp p head tail Hs Hne)
    as (Htl & h & [(_ & -> & ->) | (z & Hz & _ & -> & ->)]).
  - rewrite resolve_app_slash, walk_app in Hr.
    apply isdir_resolve. rewrite resolve_app_slash, walk_app.
    destruct (os.walk (fs w) _ (Str.split_slash h)) as [e|mid]; [done|].
    rewrite split_slash_no_slash in Hr by done. apply walk_Dir in Hr.
    exists mid. split; [|done]. by apply walk_one.
  - rewrite resolve_app_slash, walk_app in Hr.
    apply isdir_resolve. rewrite resolve_nonempty by done.
    assert (start_of w (head +:+ String Str.slash "") = start_of w head) as Hst.
    { unfold start_of. by rewrite startswith_slash_app. }
    rewrite Hst in Hr.
    destruct (os.walk (fs w) _ (Str.split_slash head)) as [e|mid]; [done|].
    exists mid. split; [done|].
    rewrite split_slashes_app, split_slash_no_slash in Hr by done.
    destruct (String.length z); simpl in Hr; by destruct (fs w !! mid) as [[|d]|].
Qed.

(** A path whose directory part is a directory resolves. *)
Lemma resolve_in_dirname (w : world) (p : string) :
  os.path_isdir w (posixpath.dirname p) = true → ∃ loc, os.resolve w p = inr loc.
Proof.
  unfold posixpath.dirname. destruct (posixpath.split p) as [head tail] eqn:Hs. simpl.
  intros (mid & Hr & Hd)%isdir_resolve.
  assert (Str.nonempty head = true) as Hne.
  { destruct head; [|done]. unfold os.resolve in Hr. done. }
  destruct (posixpath_split_decomp p head tail Hs Hne)
    as (Htl & h & [(_ & -> & ->) | (z & Hz & _ & -> & ->)]).
  - rewrite resolve_app_slash, walk_app in Hr. rewrite resolve_app_slash, walk_app.
    destruct (os.walk (fs w) _ (Str.split_slash h)) as [e|mid']; [done|].
    rewrite split_slash_no_slash by done.
    simpl in Hr. destruct (fs w !! mid') as [[|d]|] eqn:Hm; try done.
    rewrite walk_one by done. eauto.
  - rewrite resolve_app_slash, walk_app.
    assert (start_of w (head +:+ String Str.slash "") = start_of w head) as ->.
    { unfold start_of. by rewrite startswith_slash_app. }
    rewrite resolve_nonempty in Hr by done. rewrite Hr.
    rewrite split_slashes_app, split_slash_no_slash, walk_app, walk_empties by done.
    rewrite walk_one by done. eauto.
Qed.

(** [os.makedirs] of an existing directory changes nothing. *)
Lemma makedirs_existing (name : string) (w : world) :
  os.path_isdir w name = true → os.makedirs name w = Ok tt w.
Proof.
  intros Hd. unfold os.makedirs. cbn [os.makedirs_fuel].
  pose proof Hd as (loc & Hr & Hl)%isdir_resolve.
  assert (os.mkdir name w = Raise FileExistsError w) as Hmk.
  { unfold os.mkdir. by rewrite Hr, Hl. }
  assert ((λ w0, match os.mkdir name w0 with
                 | Raise e w' => if os.path_isdir w' name then Ok tt w' else Raise e w'
                 | r => r
                 end) w = Ok tt w) as Hleaf.
  { cbv beta. by rewrite Hmk, Hd. }
  destruct (posixpath.split name) as [head tail] eqn:Hs.
  destruct (Str.nonempty tail) eqn:Ht.
  - unfold bind, ask. rewrite Ht.
    destruct (Str.nonempty head) eqn:Hh; [|exact Hleaf].
    assert (os.path_exists w head = true) as ->; [|exact Hleaf].
    pose proof (split_head_isdir w name head tail loc Hr Hs Hh) as Hhd.
    unfold os.path_isdir in Hhd. unfold os.path_exists. by destruct (os.stat w head).
  - destruct (posixpath.split head) as [head' tail'] eqn:Hs'.
    unfold bind, ask.
    destruct (Str.nonempty head') eqn:Hh; [|exact Hleaf].
    destruct (Str.nonempty tail') eqn:Ht'; [|exact Hleaf].
    assert (os.path_exists w head' = true) as ->; [|exact Hleaf].
    assert (Str.nonempty head = true) as Hhne.
    { destruct head; [|done]. by vm_compute in Hs'; simplify_eq. }
    pose proof (split_head_isdir w name head tail loc Hr Hs Hhne)
      as (loc' & Hr' & _)%isdir_resolve.
    pose proof (split_head_isdir w head head' tail' loc' Hr' Hs' Hh) as Hhd.
    unfold os.path_isdir in Hhd. unfold os.path_exists. by destruct (os.stat w head').
Qed.

(** ** Steps that only add directories *)

Lemma more_dirs_refl (w : world) : more_dirs w w.
Proof. by repeat split. Qed.

Lemma more_dirs_trans (w1 w2 w3 : world) :
  more_dirs w1 w2 → more_dirs w2 w3 → more_dirs w1 w3.
Proof.
  intros (Hc1 & Ho1 & Hk1 & Hf1) (Hc2 & Ho2 & Hk2 & Hf2).
  split_and!; [congruence|congruence|eauto|eauto].
Qed.

Lemma os_mkdir_more_dirs (path : string) (w : world) :
  more_dirs w (final (os.mkdir path w)).
Proof.
  unfold os.mkdir. destruct (os.resolve w path) as [e|loc]; [apply more_dirs_refl|].
  destruct (fs w !! loc) eqn:Hl; [apply more_dirs_refl|].
  simpl. split_and!; [done|done|..]; simpl.
  - intros l n Hn. rewrite lookup_insert_ne; [done|]. congruence.
  - intros l d. destruct (decide (loc = l)) as [->|Hne].
    + by rewrite lookup_insert_eq.
    + by rewrite lookup_insert_ne.
Qed.

Lemma makedirs_fuel_more_dirs (fuel : nat) (name : string) (w : world) :
  more_dirs w (final (os.makedirs_fuel fuel name w)).
Proof.
  revert name w. induction fuel as [|fuel IH]; intros name w; [apply more_dirs_refl|].
  assert (∀ w1, more_dirs w1 (final ((λ w0, match os.mkdir name w0 with
            | Raise e w' => if os.path_isdir w' name then Ok tt w' else Raise e w'
            | r => r
            end) w1))) as Hleaf.
  { intros w1. cbv beta. pose proof (os_mkdir_more_dirs name w1) as Hm.
    destruct (os.mkdir name w1) as [[] w2|e w2]; [done|].
    by destruct (os.path_isdir w2 name). }
  cbn [os.makedirs_fuel].
  destruct (posixpath.split name) as [head tail].
  destruct (if Str.nonempty tail then (head, tail) else posixpath.split head)
    as [head' tail'].
  unfold bind, ask.
  destruct (Str.nonempty head' && Str.nonempty tail' && negb (os.path_exists w head'));
    [|apply Hleaf].
  unfold pass_FileExistsError. specialize (IH head' w).
  destruct (os.makedirs_fuel fuel head' w) as [[] w1|e w1]; simpl in IH.
  - destruct (String.eqb tail' "."); [done|].
    eapply more_dirs_trans; [exact IH|apply Hleaf].
  - destruct e; try done.
    destruct (String.eqb tail' "."); [done|].
    eapply more_dirs_trans; [exact IH|apply Hleaf].
Qed.

Lemma makedirs_more_dirs (name : string) (w : world) :
  more_dirs w (final (os.makedirs name w)).
Proof. apply makedirs_fuel_more_dirs. Qed.

Lemma pathlib_mkdir_from_more_dirs (r : string) (rtail : list string) (w : world) :
  more_dirs w (final (pathlib.mkdir_from r rtail w)).
Proof.
  revert w. induction rtail as [|c rtail IH]; intros w; cbn [pathlib.mkdir_from].
  - pose proof (os_mkdir_more_dirs (pathlib.format r (reverse [])) w) as H1.
    destruct (os.mkdir _ w) as [[] w'|e w']; [done|].
    destruct e; try destruct (os.path_isdir _ _); done.
  - pose proof (os_mkdir_more_dirs (pathlib.format r (reverse (c :: rtail))) w) as H1.
    destruct (os.mkdir _ w) as [[] w'|e w']; [done|]. simpl in H1.
    destruct e; try (destruct (os.path_isdir _ _); done).
    unfold bind. specialize (IH w').
    destruct (pathlib.mkdir_from r rtail w') as [[] w1|e w1]; simpl in IH;
      [|by eapply more_dirs_trans].
    pose proof (os_mkdir_more_dirs (pathlib.format r (reverse (c :: rtail))) w1) as H2.
    destruct (os.mkdir _ w1) as [[] w2|e w2]; simpl in H2.
    + eauto using more_dirs_trans.
    + destruct e; try destruct (os.path_isdir _ _); eauto using more_dirs_trans.
Qed.

Lemma more_dirs_walk (w w' : world) (comps : list string) (cur loc : location) :
  more_dirs w w' →
  os.walk (fs w) cur comps = inr loc → os.walk (fs w') cur comps = inr loc.
Proof.
  intros (_ & _ & Hk & _). revert cur.
  induction comps as [|c comps IH]; intros cur; cbn [os.walk]; [done|].
  destruct (fs w !! cur) as [[|d]|] eqn:Hl; try done.
  rewrite (Hk _ _ Hl). apply IH.
Qed.

Lemma more_dirs_resolve (w w' : world) (path : string) (loc : location) :
  more_dirs w w' → os.resolve w path = inr loc → os.resolve w' path = inr loc.
Proof.
  intros Hm. unfold os.resolve. destruct Hm as (Hc & Hm'). rewrite Hc.
  destruct (Str.nonempty path); [|done].
  apply more_dirs_walk. by split.
Qed.

(** Writing a file: where it goes and what the world is afterwards. *)
Lemma write_file_ok (path : string) (d : file_data) (w w' : world) :
  os.write_file path d w = Ok tt w' →
  ∃ loc, os.resolve w path = inr loc ∧ fs w !! loc ≠ Some Dir ∧
         w' = with_node loc (File d) w ∧ os.resolve w' path = inr loc.
Proof.
  unfold os.write_file.
  destruct (os.resolve w path) as [e|loc] eqn:Hr; [done|].
  assert (fs w !! loc ≠ Some Dir → os.resolve (with_node loc (File d) w) path = inr loc)
    as Hres.
  { intros Hnd. unfold os.resolve in *. simpl.
    destruct (Str.nonempty path); [|done]. by apply walk_insert. }
  assert (fs w !! loc ≠ Some Dir →
          set_node loc (File d) w = Ok tt w' →
          ∃ loc0, @inr exn location loc = inr loc0 ∧ fs w !! loc0 ≠ Some Dir ∧
                  w' = with_node loc0 (File d) w ∧ os.resolve w' path = inr loc0) as Hset.
  { intros Hnd [= <-]. exists loc. split_and!; auto. }
  destruct (fs w !! loc) as [[|d']|] eqn:Hl; [done|..]; by apply Hset.
Qed.

Lemma write_file_succeeds (path : string) (d : file_data) (w : world) (loc : location) :
  os.resolve w path = inr loc → fs w !! loc ≠ Some Dir →
  os.write_file path d w = Ok tt (with_node loc (File d) w).
Proof.
  intros Hr Hl. unfold os.write_file. rewrite Hr.
  by destruct (fs w !! loc) as [[|d']|].
Qed.

(** ** Paths below a directory *)

Lemma join_slash_snoc (tl : list string) (n : string) :
  tl ≠ [] → Str.join_slash (tl ++ [n]) = Str.join_slash tl +:+ String Str.slash n.
Proof.
  induction tl as [|x [|y tl] IH]; intros Hne; [done|done|].
  change ((x :: y :: tl) ++ [n]) with (x :: y :: (tl ++ [n])).
  rewrite !join_slash_cons.
  change (y :: tl ++ [n]) with ((y :: tl) ++ [n]).
  rewrite IH by done. by rewrite app_assoc_str, app_cons.
Qed.

Lemma path_str_inj (p q : pathlib.PosixPath) :
  pathlib.path_str p = pathlib.path_str q → p = q.
Proof. destruct p, q. simpl. congruence. Qed.

Lemma path_str_nonempty (s : string) :
  Str.nonempty (pathlib.path_str (pathlib.Path s)) = true.
Proof.
  unfold pathlib.Path, pathlib.format. simpl.
  by destruct (Str.nonempty (posixpath.root_of s +:+ Str.join_slash (pathlib.tail_of s))) eqn:H.
Qed.

(** The entry [n] that [iterdir] yields below [Path(s)] is [Path(s) / n]. *)
Lemma child_str (s n : string) :
  component n →
  pathlib.path_str (pathlib.make_child_relpath (pathlib.Path s) n) =
    pathlib.format (pathlib.root (pathlib.Path s)) (pathlib.tail (pathlib.Path s) ++ [n]).
Proof.
  intros Hn. rewrite Path_root. unfold pathlib.make_child_relpath. rewrite Path_tail.
  cbn [pathlib.path_str pathlib.Path].
  pose proof (root_of_is_root s) as Hr. pose proof (tail_of_components s) as Htl.
  assert (Forall component (pathlib.tail_of s ++ [n])) as Hall.
  { apply Forall_app. split; [done|]. by apply Forall_singleton. }
  destruct (format_cases _ _ Hr Hall) as [(_ & Hnil & _) | [_ ->]].
  { by destruct (pathlib.tail_of s). }
  destruct (format_cases _ _ Hr Htl) as [(-> & -> & ->) | [Hne ->]]; [done|].
  destruct (pathlib.tail_of s) as [|x tl] eqn:Ht.
  - destruct Hne as [Hne|]; [|done]. cbn [Str.join_slash app]. rewrite app_nil_r.
    destruct Hr as [Hr | [-> | ->]]; done.
  - rewrite join_slash_snoc by done. by rewrite app_assoc_str.
Qed.

Lemma child_truediv (s n : string) :
  component n →
  pathlib.make_child_relpath (pathlib.Path s) n = pathlib.truediv (pathlib.Path s) n.
Proof.
  intros Hn. apply path_str_inj. by rewrite child_str, truediv_parent.
Qed.

Lemma start_of_app (w : world) (a b : string) :
  Str.nonempty a = true → start_of w (a +:+ b) = start_of w a.
Proof. intros Ha. unfold start_of. by rewrite startswith_slash_app. Qed.

(** An entry of a directory resolves to the node below the directory. *)
Lemma resolve_child (s n : string) (w : world) (loc : location) :
  os.resolve w (pathlib.path_str (pathlib.Path s)) = inr loc →
  fs w !! loc = Some Dir →
  entry_name n →
  os.resolve w (pathlib.path_str (pathlib.make_child_relpath (pathlib.Path s) n))
    = inr (loc ++ [n]).
Proof.
  intros Hres Hdir Hn. pose proof Hn as [Hc _].
  pose proof (path_str_nonempty s) as Hne.
  assert (∀ P, Str.nonempty P = true → os.resolve w P = inr loc →
               os.resolve w (P +:+ String Str.slash n) = inr (loc ++ [n])) as Hslash.
  { intros P HP HresP. rewrite resolve_app_slash, walk_app.
    rewrite start_of_app by done. rewrite <- resolve_nonempty by done. rewrite HresP.
    destruct Hc as [_ Hs]. rewrite split_slash_no_slash by done.
    rewrite walk_one by done. by rewrite step_entry_name. }
  unfold pathlib.make_child_relpath. cbn [pathlib.path_str].
  rewrite Path_tail.
  destruct (pathlib.tail_of s) as [|x tl] eqn:Ht.
  - revert Hres. unfold pathlib.Path. cbn [pathlib.path_str]. rewrite Ht.
    destruct Hc as [Hk Hs].
    assert (Str.startswith_slash n = false) as Hst
      by (apply component_not_startswith; by split).
    assert (Str.nonempty n = true) as Hnn.
    { unfold pathlib.keep in Hk. by apply andb_true_iff in Hk as [? _]. }
    destruct (root_of_is_root s) as [-> | [-> | ->]].
    + change (pathlib.format "" []) with ".". cbn. unfold os.resolve. cbn.
      destruct (fs w !! cwd w) as [[|]|] eqn:Hcwd; try done. intros [= <-].
      rewrite Hnn, Hst, split_slash_no_slash by done.
      rewrite walk_one by done. by rewrite step_entry_name.
    + change (pathlib.format "/" []) with "/".
      change ("/" +:+ n) with (String Str.slash n).
      unfold os.resolve. cbn. rewrite split_slash_no_slash by done.
      destruct (@lookup location _ _ _ [] (fs w)) as [[|]|] eqn:Hroot; try done. intros [= <-].
      cbn. rewrite Hroot. by rewrite step_entry_name.
    + change (pathlib.format "//" []) with "//".
      change ("//" +:+ n) with (String Str.slash (String Str.slash n)).
      unfold os.resolve. cbn. rewrite split_slash_no_slash by done.
      destruct (@lookup location _ _ _ [] (fs w)) as [[|]|] eqn:Hroot; try done. intros [= <-].
      cbn. rewrite Hroot. by rewrite step_entry_name.
  - by apply Hslash.
Qed.

Lemma stat_child (s n : string) (w : world) (loc : location) :
  os.resolve w (pathlib.path_str (pathlib.Path s)) = inr loc →
  fs w !! loc = Some Dir →
  entry_name n →
  os.stat w (pathlib.path_str (pathlib.make_child_relpath (pathlib.Path s) n))
    = fs w !! (loc ++ [n]).
Proof.
  intros Hres Hdir Hn. unfold os.stat. by rewrite (resolve_child s n w loc).
Qed.

Lemma rsplit_slash_head_nonempty (p : string) :
  Str.has_slash p = true → Str.nonempty (fst (Str.rsplit_slash p)) = true.
Proof.
  induction p as [|c p IH]; [done|]. cbn [Str.has_slash Str.rsplit_slash].
  destruct (Str.rsplit_slash p) as [h t]. cbn [fst] in *.
  destruct (Str.nonempty h) eqn:Hh; [done|].
  destruct (Ascii.eqb c Str.slash); [done|]. cbn [orb]. intros Hp. by specialize (IH Hp).
Qed.

(** A path with a slash has a directory part. *)
Lemma dirname_nonempty (p : string) :
  Str.has_slash p = true → Str.nonempty (posixpath.dirname p) = true.
Proof.
  intros Hp%rsplit_slash_head_nonempty. unfold posixpath.dirname, posixpath.split.
  destruct (Str.rsplit_slash p) as [h t]. cbn [fst] in Hp.
  by destruct (Str.nonempty (Str.rstrip_slash h)) eqn:Hs.
Qed.

(** Below a directory that is not written ["."], a path has a directory
    part. *)
Lemma child_has_slash (s n : string) :
  component n →
  pathlib.path_str (pathlib.Path s) ≠ "." →
  Str.has_slash (pathlib.path_str (pathlib.make_child_relpath (pathlib.Path s) n)) = true.
Proof.
  intros Hn Hdot. unfold pathlib.make_child_relpath. cbn [pathlib.path_str].
  rewrite Path_tail. destruct (pathlib.tail_of s) as [|x tl] eqn:Ht.
  - revert Hdot. unfold pathlib.Path. cbn [pathlib.path_str]. rewrite Ht.
    destruct (root_of_is_root s) as [-> | [-> | ->]]; [done|done..].
  - rewrite has_slash_app. cbn [Str.has_slash]. rewrite Ascii.eqb_refl.
    by rewrite orb_true_r.
Qed.

(** Below the directory written ["."], a path is the bare name. *)
Lemma child_of_dot (s n : string) :
  component n →
  pathlib.path_str (pathlib.Path s) = "." →
  pathlib.path_str (pathlib.make_child_relpath (pathlib.Path s) n) = n.
Proof.
  intros Hn Hdot. unfold pathlib.make_child_relpath. cbn [pathlib.path_str].
  unfold pathlib.tail. rewrite Hdot. done.
Qed.

Lemma child_name (s n : string) :
  component n → pathlib.name (pathlib.make_child_relpath (pathlib.Path s) n) = n.
Proof. intros Hn. rewrite child_truediv by done. by apply truediv_name. Qed.

(** ** The extension test *)

Lemma lower_ascii_dot (c : ascii) : Str.lower_ascii c = Str.dot → c = Str.dot.
Proof. destruct c as [[] [] [] [] [] [] [] []]; vm_compute; congruence. Qed.

Lemma rpartition_dot_ext (h t : string) :
  Str.rpartition_dot t = None →
  Str.rpartition_dot (h +:+ String Str.dot t) = Some (h, String Str.dot t).
Proof.
  intros Ht. induction h as [|c h IH].
  - rewrite app_nil_l. cbn [Str.rpartition_dot]. rewrite Ht. by rewrite Ascii.eqb_refl.
  - rewrite app_cons. cbn [Str.rpartition_dot]. by rewrite IH.
Qed.

Lemma lower_stl (ext : string) :
  Str.lower ext = ".stl" →
  ∃ t, ext = String Str.dot t ∧ Str.rpartition_dot t = None ∧ String.length t = 3%nat.
Proof.
  destruct ext as [|c0 [|c1 [|c2 [|c3 [|]]]]]; try done.
  cbn [Str.lower]. intros [= H0%lower_ascii_dot H1 H2 H3]. subst c0.
  eexists. split; [done|]. split; [|done].
  cbn [Str.rpartition_dot].
  assert (∀ c : ascii, Str.lower_ascii c ≠ Str.dot → Ascii.eqb c Str.dot = false) as Hnd.
  { intros c Hc. apply Ascii.eqb_neq. by intros ->. }
  rewrite !Hnd; [done|by rewrite ?H1, ?H2, ?H3..].
Qed.

(** A name made of a stem that is not empty and an extension that
    lower-cases to [.stl] splits into exactly these two. *)
Lemma stl_name_parts (stem ext : string) :
  stem ≠ "" → Str.lower ext = ".stl" →
  pathlib.stem_of_name (stem +:+ ext) = stem ∧ pathlib.suffix_of_name (stem +:+ ext) = ext.
Proof.
  intros Hne (t & -> & Ht & Hlen)%lower_stl.
  unfold pathlib.stem_of_name, pathlib.suffix_of_name.
  rewrite rpartition_dot_ext by done.
  apply nonempty_true in Hne. rewrite Hne. cbn [String.length]. rewrite Hlen. done.
Qed.

Lemma stl_name_component (stem ext : string) :
  stem ≠ "" → Str.has_slash stem = false → Str.lower ext = ".stl" →
  entry_name (stem +:+ ext).
Proof.
  intros Hne Hs Hl. pose proof Hl as (t & Hext & _ & Hlen)%lower_stl. subst ext.
  assert (Str.has_slash (String Str.dot t) = false) as Hst.
  { destruct t as [|c1 [|c2 [|c3 [|]]]]; try done.
    revert Hl. cbn [Str.lower]. intros [= H1 H2 H3]. cbn [Str.has_slash].
    assert (∀ c : ascii, Str.lower_ascii c ≠ Str.slash → Ascii.eqb c Str.slash = false) as Hnd.
    { intros c Hc. apply Ascii.eqb_neq. by intros ->. }
    rewrite !Hnd; [done|by rewrite ?H1, ?H2, ?H3..]. }
  assert (String.length (stem +:+ String Str.dot t) ≥ 5)%nat as Hlong.
  { rewrite app_length_str. cbn [String.length]. destruct stem; [done|]. simpl. lia. }
  split; [split|].
  - unfold pathlib.keep. apply andb_true_iff. split.
    + apply nonempty_true. intros Heq. rewrite Heq in Hlong. simpl in Hlong. lia.
    + apply negb_true_iff, String.eqb_neq. intros Heq. rewrite Heq in Hlong. simpl in Hlong. lia.
  - rewrite has_slash_app, Hs, Hst. done.
  - intros Heq. rewrite Heq in Hlong. simpl in Hlong. lia.
Qed.

(** ** Rows that compare equal *)

Lemma rank_nan (a : F32.t) : F32.is_nan a = true ↔ F32.rank a = 2147483648.
Proof.
  unfold F32.rank. destruct (F32.is_nan a) eqn:Hn; [done|].
  apply key_range in Hn. split; [done|lia].
Qed.

Lemma is_nan_rank (a b : F32.t) : F32.rank a = F32.rank b → F32.is_nan a = F32.is_nan b.
Proof.
  intros Hr. destruct (F32.is_nan a) eqn:Ha, (F32.is_nan b) eqn:Hb; try done.
  - apply rank_nan in Ha. rewrite Hr in Ha. apply rank_nan in Ha. congruence.
  - apply rank_nan in Hb. rewrite <- Hr in Hb. apply rank_nan in Hb. congruence.
Qed.

Lemma row_has_nan_rank (p q : point) :
  row_rank p = row_rank q → row_has_nan p = row_has_nan q.
Proof.
  destruct p as [[x1 y1] z1], q as [[x2 y2] z2]. cbn [row_rank row_has_nan].
  intros [= Hx%is_nan_rank Hy%is_nan_rank Hz%is_nan_rank]. by rewrite Hx, Hy, Hz.
Qed.

(** A row between two rows of one rank has that rank. *)
Lemma row_le_squeeze (p r q : point) :
  row_le p r → row_le r q → row_rank p = row_rank q → row_rank r = row_rank p.
Proof.
  intros [Hpr|Hpr]%row_le_iff [Hrq|Hrq]%row_le_iff Hpq; [| |done|done].
  - exfalso. apply (row_lt_irrefl p).
    apply (row_lt_rank_r p q p); [done|]. by apply (row_lt_trans p r q).
  - exfalso. apply (row_lt_irrefl p).
    apply (row_lt_rank_r p r p); [congruence|done].
Qed.

Lemma row_eqb_sym (p q : point) : row_eqb p q = row_eqb q p.
Proof.
  destruct (row_eqb p q) eqn:H1, (row_eqb q p) eqn:H2; try done.
  - apply row_eqb_rank in H1 as (? & ? & ?).
    assert (row_eqb q p = true) by (by apply row_eqb_rank). congruence.
  - apply row_eqb_rank in H2 as (? & ? & ?).
    assert (row_eqb p q = true) by (by apply row_eqb_rank). congruence.
Qed.

(** No row kept after [prev] equals [prev]. *)
Lemma mask_from_differs (prev : point) (aux : list point) :
  StronglySorted row_le (prev :: aux) →
  Forall (λ y, row_eqb y prev = false) (mask_from prev aux).
Proof.
  revert prev. induction aux as [|x aux IH]; intros prev Hs; cbn [mask_from]; [done|].
  apply StronglySorted_cons in Hs as [Hprev Hs].
  pose proof (IH x Hs) as Hx.
  pose proof Hs as [Hxle _]%StronglySorted_cons.
  apply Forall_cons in Hprev as [Hpx _].
  destruct (row_eqb x prev) eqn:Heq.
  - eapply Forall_impl; [exact Hx|]. intros y Hy. cbv beta in Hy.
    destruct (row_eqb y prev) eqn:Hyp; [|done].
    apply row_eqb_rank in Heq as (Hnx & Hnp & Hxp).
    apply row_eqb_rank in Hyp as (Hny & _ & Hyp).
    assert (row_eqb y x = true) by (apply row_eqb_rank; split_and!; congruence).
    congruence.
  - apply Forall_cons. split; [done|].
    apply List.Forall_forall. intros y Hy.
    destruct (row_eqb y prev) eqn:Hyp; [|done]. exfalso.
    apply row_eqb_rank in Hyp as (Hny & Hnp & Hyp).
    assert (row_le x y) as Hxy.
    { rewrite List.Forall_forall in Hxle. by apply Hxle, (mask_from_In x). }
    pose proof (row_le_squeeze prev x y Hpx Hxy (eq_sym Hyp)) as Hrank.
    assert (row_eqb x prev = true); [|congruence].
    apply row_eqb_rank. split_and!; [|done|done].
    rewrite (row_has_nan_rank x prev) by done. done.
Qed.

(** The rows kept are pairwise different as floats. *)
Lemma mask_from_distinct (prev : point) (aux : list point) :
  StronglySorted row_le (prev :: aux) →
  StronglySorted (λ p q, row_eqb p q = false) (prev :: mask_from prev aux).
Proof.
  revert prev. induction aux as [|x aux IH]; intros prev Hs; cbn [mask_from].
  { repeat constructor. }
  pose proof (mask_from_differs prev (x :: aux) Hs) as Hd. cbn [mask_from] in Hd.
  pose proof Hs as [_ Hs']%StronglySorted_cons.
  specialize (IH x Hs').
  assert (∀ l, Forall (λ y, row_eqb y prev = false) l →
               Forall (λ y, row_eqb prev y = false) l) as Hflip.
  { intros l Hl. eapply Forall_impl; [exact Hl|]. intros y. by rewrite row_eqb_sym. }
  destruct (row_eqb x prev) eqn:Heq.
  - apply StronglySorted_cons in IH as [_ IH]. constructor; [done|by apply Hflip].
  - constructor; [done|by apply Hflip].
Qed.

(** ** Steps that keep every node *)

Lemma keeps_nodes_refl (w : world) : keeps_nodes w w.
Proof.
  split_and!; eauto. exists []. symmetry. apply List.app_nil_r.
Qed.

Lemma keeps_nodes_trans (w1 w2 w3 : world) :
  keeps_nodes w1 w2 → keeps_nodes w2 w3 → keeps_nodes w1 w3.
Proof.
  intros (Hc1 & [l1 Ho1] & Hd1 & Hf1) (Hc2 & [l2 Ho2] & Hd2 & Hf2).
  split_and!.
  - congruence.
  - exists (l1 ++ l2). by rewrite Ho2, Ho1, <- app_assoc.
  - eauto.
  - intros loc d Hl. destruct (Hf1 _ _ Hl) as [d' Hl']. eauto.
Qed.

Lemma keeps_nodes_logged (l : log_line) (w : world) : keeps_nodes w (logged l w).
Proof. split_and!; simpl; eauto. Qed.

Lemma more_dirs_keeps (w w' : world) : more_dirs w w' → keeps_nodes w w'.
Proof.
  intros (Hc & Ho & Hk & _). split_and!; eauto.
  exists []. rewrite Ho. symmetry. apply List.app_nil_r.
Qed.

Lemma keeps_nodes_walk (w w' : world) (comps : list string) (cur loc : location) :
  keeps_nodes w w' →
  os.walk (fs w) cur comps = inr loc → os.walk (fs w') cur comps = inr loc.
Proof.
  intros (_ & _ & Hd & _). revert cur.
  induction comps as [|c comps IH]; intros cur; cbn [os.walk]; [done|].
  destruct (fs w !! cur) as [[|d]|] eqn:Hcur; try done.
  rewrite (Hd _ Hcur). apply IH.
Qed.

(** A directory of [w] is a directory under the same path afterwards. *)
Lemma keeps_nodes_isdir (w w' : world) (path : string) :
  keeps_nodes w w' → os.path_isdir w path = true → os.path_isdir w' path = true.
Proof.
  intros Hk (loc & Hr & Hl)%isdir_resolve. apply isdir_resolve. exists loc.
  pose proof Hk as (Hc & _ & Hd & _). split; [|by apply Hd].
  unfold os.resolve in *. destruct (Str.nonempty path); [|done].
  rewrite Hc. by apply (keeps_nodes_walk w).
Qed.

(** ** Creating the output directory *)

Lemma os_mkdir_ok (path : string) (w w' : world) :
  os.mkdir path w = Ok tt w' → os.path_isdir w' path = true.
Proof.
  intros Hmk. pose proof (os_mkdir_more_dirs path w) as Hmore.
  rewrite Hmk in Hmore. cbn [final] in Hmore.
  unfold os.mkdir in Hmk.
  destruct (os.resolve w path) as [e|loc] eqn:Hr; [done|].
  destruct (fs w !! loc) eqn:Hl; [done|].
  injection Hmk as <-. apply isdir_resolve. exists loc. split.
  - by apply (more_dirs_resolve w).
  - simpl. apply lookup_insert_eq.
Qed.

Lemma mkdir_from_ok (r : string) (rtail : list string) (w w' : world) :
  pathlib.mkdir_from r rtail w = Ok tt w' →
  os.path_isdir w' (pathlib.format r (reverse rtail)) = true.
Proof.
  assert (∀ w1 w2 : world,
            match os.mkdir (pathlib.format r (reverse rtail)) w1 with
            | Ok _ w3 => Ok tt w3
            | Raise FileNotFoundError w3 => Raise FileNotFoundError w3
            | Raise e w3 =>
                if os.path_isdir w3 (pathlib.format r (reverse rtail))
                then Ok tt w3 else Raise e w3
            end = Ok tt w2 →
            os.path_isdir w2 (pathlib.format r (reverse rtail)) = true) as Hleaf.
  { intros w1 w2. destruct (os.mkdir _ w1) as [[] w3|e w3] eqn:Hmk.
    - intros [= <-]. by apply (os_mkdir_ok _ w1).
    - destruct e; try done;
        destruct (os.path_isdir w3 _) eqn:Hd; try done; by intros [= <-]. }
  destruct rtail as [|c rparent]; cbn [pathlib.mkdir_from].
  - destruct (os.mkdir _ w) as [[] w3|e w3] eqn:Hmk.
    + intros [= <-]. by apply (os_mkdir_ok _ w).
    + destruct e; try done;
        destruct (os.path_isdir w3 _) eqn:Hd; try done; by intros [= <-].
  - destruct (os.mkdir _ w) as [[] w3|e w3] eqn:Hmk.
    + intros [= <-]. by apply (os_mkdir_ok _ w).
    + destruct e; try (destruct (os.path_isdir w3 _) eqn:Hd; try done; by intros [= <-]).
      unfold bind. destruct (pathlib.mkdir_from r rparent w3) as [[] w4|e w4]; [|done].
      apply Hleaf.
Qed.

Lemma format_Path (s : string) :
  pathlib.format (pathlib.root (pathlib.Path s)) (pathlib.tail (pathlib.Path s))
    = pathlib.path_str (pathlib.Path s).
Proof. by rewrite Path_root, Path_tail. Qed.

Lemma pathlib_mkdir_ok (s : string) (w w' : world) :
  pathlib.mkdir (pathlib.Path s) w = Ok tt w' →
  os.path_isdir w' (pathlib.path_str (pathlib.Path s)) = true.
Proof.
  unfold pathlib.mkdir. intros Hmk%mkdir_from_ok.
  by rewrite reverse_involutive, format_Path in Hmk.
Qed.

Lemma pathlib_mkdir_on_file (s : string) (w : world) :
  os.path_isfile w (pathlib.path_str (pathlib.Path s)) = true →
  pathlib.mkdir (pathlib.Path s) w = Raise FileExistsError w.
Proof.
  intros Hf. unfold pathlib.mkdir.
  assert (∀ rtail, reverse rtail = pathlib.tail (pathlib.Path s) →
            pathlib.mkdir_from (pathlib.root (pathlib.Path s)) rtail w
              = Raise FileExistsError w) as H.
  { intros rtail Hrev.
    assert (pathlib.format (pathlib.root (pathlib.Path s)) (reverse rtail)
              = pathlib.path_str (pathlib.Path s)) as Hp.
    { by rewrite Hrev, format_Path. }
    unfold os.path_isfile, os.stat in Hf.
    destruct (os.resolve w (pathlib.path_str (pathlib.Path s))) as [e|loc] eqn:Hr; [done|].
    destruct (fs w !! loc) as [[|d]|] eqn:Hl; try done.
    assert (os.mkdir (pathlib.path_str (pathlib.Path s)) w = Raise FileExistsError w) as Hm.
    { unfold os.mkdir. by rewrite Hr, Hl. }
    assert (os.path_isdir w (pathlib.path_str (pathlib.Path s)) = false) as Hd.
    { unfold os.path_isdir, os.stat. by rewrite Hr, Hl. }
    destruct rtail; cbn [pathlib.mkdir_from]; rewrite Hp, Hm, Hd; done. }
  apply H. apply reverse_involutive.
Qed.

Lemma listdir_world (path : string) (w : world) : final (os.listdir path w) = w.
Proof.
  unfold os.listdir. destruct (os.resolve w path) as [e|loc]; [done|].
  by destruct (fs w !! loc) as [[|d]|].
Qed.

Lemma listdir_ok (path : string) (w w' : world) (names : list string) :
  os.listdir path w = Ok names w' → os.path_isdir w path = true.
Proof.
  unfold os.listdir, os.path_isdir, os.stat.
  destruct (os.resolve w path) as [e|loc]; [done|].
  by destruct (fs w !! loc) as [[|d]|].
Qed.

(** ** The single-file transform *)

Section Further.

Variable np_sort : list point → list point.
Variable ConvexHull : list point → string + list simplex.

Hypothesis np_sort_Permutation : ∀ l, np_sort l ≡ₚ l.
Hypothesis np_sort_Sorted : ∀ l, Sorted row_le (np_sort l).

Local Abbreviation np_unique := (generate_convex.np_unique np_sort).
Local Abbreviation generate_convex_stl :=
  (generate_convex.generate_convex_stl np_sort ConvexHull).
Local Abbreviation for_each_file := (generate_convex.for_each_file np_sort ConvexHull).
Local Abbreviation scan_and_convert :=
  (generate_convex.scan_and_convert np_sort ConvexHull).
Local Abbreviation batch_convex_hull_generation :=
  (generate_convex.batch_convex_hull_generation np_sort ConvexHull).
Local Abbreviation cloud m := (np_unique (reshape m)).

Lemma generate_not_file (input output : string) (w : world) :
  os.path_isfile w input = false →
  generate_convex_stl input output w = Ok tt (logged (WARN_file_not_found input) w).
Proof.
  intros Hf. unfold generate_convex.generate_convex_stl, bind, ask. by rewrite Hf.
Qed.

Lemma generate_unreadable (input output : string) (w : world) :
  os.stat w input = Some (File NotStl) →
  generate_convex_stl input output w = Raise StlReadError w.
Proof.
  intros Hstat.
  unfold generate_convex.generate_convex_stl, bind, ask, os.path_isfile,
    stl.from_file, os.read_file, bind.
  cbv beta. rewrite Hstat. cbn [negb]. cbv beta iota. unfold os.stat in Hstat.
  destruct (os.resolve w input) as [e|loc]; [done|]. by rewrite Hstat.
Qed.

Lemma index_ok_getitem (a : list point) (i : Z) :
  index_ok (length a) i = true → is_Some (np_getitem a i).
Proof.
  unfold index_ok, np_getitem. intros [Hlo Hhi]%andb_true_iff.
  apply Z.leb_le in Hlo. apply Z.ltb_lt in Hhi.
  destruct (Z.leb_spec 0 i).
  - assert ((i <? Z.of_nat (length a)) = true) as -> by (apply Z.ltb_lt; lia).
    simpl. apply lookup_lt_is_Some. lia.
  - simpl. assert ((- Z.of_nat (length a) <=? i) = true) as -> by (apply Z.leb_le; lia).
    assert ((i <? 0) = true) as -> by (apply Z.ltb_lt; lia).
    simpl. apply lookup_lt_is_Some. lia.
Qed.

Lemma facets_resolve (vertices : list point) (simplices : list simplex) :
  forallb (simplex_ok (length vertices)) simplices = true →
  ∃ g, mapM (facet vertices) simplices = Some g ∧ length g = length simplices.
Proof.
  intros Hok.
  assert (is_Some (mapM (facet vertices) simplices)) as [g Hg].
  { apply mapM_is_Some. rewrite forallb_forall in Hok.
    apply List.Forall_forall. intros [[i j] k] Hin. specialize (Hok _ Hin). simpl in Hok.
    apply andb_true_iff in Hok as [[Hi Hj]%andb_true_iff Hk].
    destruct (index_ok_getitem _ _ Hi) as [a Ha], (index_ok_getitem _ _ Hj) as [b Hb],
      (index_ok_getitem _ _ Hk) as [c Hc].
    unfold facet. cbn. rewrite Ha. cbn. rewrite Hb. cbn. rewrite Hc. by eexists. }
  exists g. split; [done|]. apply mapM_Some in Hg. symmetry. by eapply Forall2_length.
Qed.

Lemma keeps_nodes_write (loc : location) (d : file_data) (w : world) :
  fs w !! loc ≠ Some Dir → keeps_nodes w (with_node loc (File d) w).
Proof.
  intros Hnd. split_and!; simpl.
  - done.
  - exists []. symmetry. apply List.app_nil_r.
  - intros l Hl. rewrite lookup_insert_ne; [done|]. by intros ->.
  - intros l d' Hl. destruct (decide (loc = l)) as [->|Hne].
    + exists d. apply lookup_insert_eq.
    + exists d'. by rewrite lookup_insert_ne.
Qed.

(** A run keeps every node, however it ends. *)
Lemma generate_keeps (input output : string) (w : world) :
  keeps_nodes w (final (generate_convex_stl input output w)).
Proof.
  destruct (os.stat w input) as [[|[m|]]|] eqn:Hstat.
  - rewrite generate_not_file; [apply keeps_nodes_logged|].
    unfold os.path_isfile. by rewrite Hstat.
  - rewrite (generate_loaded np_sort ConvexHull _ _ _ _ Hstat). cbv zeta.
    apply (keeps_nodes_trans w (logged (INFO_loaded input (length m)) w));
      [apply keeps_nodes_logged|].
    destruct (length (cloud m) <? 4)%nat; [apply keeps_nodes_logged|].
    destruct (ConvexHull (cloud m)) as [e|simplices]; [apply keeps_nodes_logged|].
    unfold fill_vectors, bind.
    destruct (mapM (facet (cloud m)) simplices) as [g|]; [|apply keeps_nodes_refl].
    unfold ret.
    pose proof (makedirs_more_dirs (posixpath.dirname output)
                  (logged (INFO_loaded input (length m)) w)) as Hm%more_dirs_keeps.
    destruct (os.makedirs _ _) as [[] w2|e w2]; cbn [final] in Hm; [|done].
    eapply keeps_nodes_trans; [exact Hm|]. unfold stl.save.
    destruct (os.write_file output (Stl g) w2) as [[] w3|e w3] eqn:Hw; unfold print;
      cbn [final].
    + apply write_file_ok in Hw as (loc & _ & Hnd & -> & _).
      eapply keeps_nodes_trans; [by apply keeps_nodes_write|apply keeps_nodes_logged].
    + apply write_file_raise in Hw as [-> _]. apply keeps_nodes_logged.
  - rewrite generate_unreadable by done. apply keeps_nodes_refl.
  - rewrite generate_not_file; [apply keeps_nodes_logged|].
    unfold os.path_isfile. by rewrite Hstat.
Qed.

(** The run that converts: where the hull goes and what is printed. *)
Lemma generate_run (input output : string) (w : world) (m : mesh)
    (simplices : list simplex) :
  os.stat w input = Some (File (Stl m)) →
  (4 ≤ length (cloud m))%nat →
  ConvexHull (cloud m) = inr simplices →
  forallb (simplex_ok (length (cloud m))) simplices = true →
  os.path_isdir w (posixpath.dirname output) = true →
  os.path_isdir w output = false →
  ∃ g loc,
    mapM (facet (cloud m)) simplices = Some g ∧
    os.resolve w output = inr loc ∧
    fs w !! loc ≠ Some Dir ∧
    generate_convex_stl input output w =
      Ok tt (logged (INFO_saved output)
               (with_node loc (File (Stl g))
                  (logged (INFO_loaded input (length m)) w))).
Proof.
  intros Hstat Hlen%Nat.ltb_ge Hhull Hok Hdir Hout.
  destruct (facets_resolve _ _ Hok) as (g & Hg & _).
  destruct (resolve_in_dirname _ _ Hdir) as [loc Hr].
  assert (fs w !! loc ≠ Some Dir) as Hnd.
  { intros Hl. unfold os.path_isdir, os.stat in Hout. by rewrite Hr, Hl in Hout. }
  exists g, loc. split_and!; [done..|].
  rewrite (generate_loaded np_sort ConvexHull _ _ _ _ Hstat). cbv zeta.
  rewrite Hlen, Hhull. unfold fill_vectors, bind. rewrite Hg. unfold ret.
  rewrite makedirs_existing by done. unfold stl.save.
  by rewrite (write_file_succeeds _ _ _ loc).
Qed.
Lemma for_each_file_keeps (output_dir : pathlib.PosixPath) (suffix : string)
    (stl_files : list pathlib.PosixPath) (w : world) :
  keeps_nodes w (final (for_each_file output_dir suffix stl_files w)).
Proof.
  revert w. induction stl_files as [|in_path rest IH]; intros w;
    cbn [generate_convex.for_each_file]; [apply keeps_nodes_refl|].
  unfold bind at 1.
  pose proof (generate_keeps (pathlib.path_str in_path)
                (pathlib.path_str (out_path output_dir in_path suffix)) w) as Hk.
  destruct (generate_convex_stl _ _ w) as [[] w1|e w1]; cbn [final] in *; [|done].
  by apply (keeps_nodes_trans w w1).
Qed.

Lemma scan_keeps (input_dir output_dir : pathlib.PosixPath) (suffix : string) (w : world) :
  keeps_nodes w (final (scan_and_convert input_dir output_dir suffix w)).
Proof.
  unfold generate_convex.scan_and_convert, bind at 1, pathlib.iterdir, bind at 1.
  pose proof (listdir_world (pathlib.path_str input_dir) w) as Hw.
  destruct (os.listdir _ w) as [names w1|e w1]; cbn [final] in Hw; subst w1;
    [|apply keeps_nodes_refl].
  unfold ret. destruct (pathlib.sorted _) as [|p l]; [apply keeps_nodes_logged|].
  unfold bind, print.
  eapply keeps_nodes_trans; [apply keeps_nodes_logged|apply for_each_file_keeps].
Qed.

(** * Further theorems *)

(** X1: a run changes one file at most.  Whatever the two paths and the
    world, and however the run ends, nothing is removed, the working
    directory stays, the output is only extended, directories are only
    added, and the one file written, new or replaced, is the file that
    the output path names afterwards, which then holds an STL mesh. *)
Theorem generate_touches_only_output (input output : string) (w : world) :
  only_output_changed output w (final (generate_convex_stl input output w)).
Proof.
  assert (∀ l, only_output_changed output w (logged l w)) as Hlog1.
  { intros l. split_and!; simpl; eauto. }
  assert (∀ l1 l2, only_output_changed output w (logged l2 (logged l1 w))) as Hlog2.
  { intros l1 l2. split_and!; simpl; eauto. exists [l1; l2]. by rewrite <- app_assoc. }
  destruct (os.stat w input) as [[|[m|]]|] eqn:Hstat.
  - rewrite generate_not_file; [apply Hlog1|]. unfold os.path_isfile. by rewrite Hstat.
  - rewrite (generate_loaded np_sort ConvexHull _ _ _ _ Hstat). cbv zeta.
    destruct (length (cloud m) <? 4)%nat; [apply Hlog2|].
    destruct (ConvexHull (cloud m)) as [e|simplices]; [apply Hlog2|].
    unfold fill_vectors, bind.
    destruct (mapM (facet (cloud m)) simplices) as [g|]; [|apply Hlog1].
    unfold ret.
    pose proof (makedirs_more_dirs (posixpath.dirname output)
                  (logged (INFO_loaded input (length m)) w)) as Hm.
    destruct (os.makedirs _ _) as [[] w2|e w2]; simpl in Hm;
      destruct Hm as (Hc & Ho & Hk & Hf); simpl in Hc, Ho, Hk, Hf.
    + unfold stl.save.
      destruct (os.write_file output (Stl g) w2) as [[] w3|e w3] eqn:Hw; unfold print; simpl.
      * apply write_file_ok in Hw as (loc & _ & Hnd & -> & Hres).
        split_and!; simpl.
        -- done.
        -- exists [INFO_loaded input (length m); INFO_saved output].
           by rewrite Ho, <- app_assoc.
        -- intros l Hl. rewrite lookup_insert_ne; [by apply Hk|].
           intros ->. by rewrite (Hk _ _ Hl) in Hnd.
        -- intros l d Hl. destruct (decide (loc = l)) as [->|Hne].
           ++ right. split; [exact Hres|]. exists g. by rewrite lookup_insert_eq.
           ++ left. rewrite lookup_insert_ne by done. by apply Hk.
        -- intros l d. destruct (decide (loc = l)) as [->|Hne].
           ++ rewrite lookup_insert_eq. intros [= <-]. right. eauto.
           ++ rewrite lookup_insert_ne by done. intros Hl. left. by apply Hf.
      * apply write_file_raise in Hw as [-> _].
        split_and!; simpl; eauto.
        exists [INFO_loaded input (length m); INFO_saved output].
        by rewrite Ho, <- app_assoc.
    + split_and!; eauto.
  - rewrite generate_unreadable by done. split_and!; simpl; eauto.
    exists []. symmetry. apply List.app_nil_r.
  - rewrite generate_not_file; [apply Hlog1|]. unfold os.path_isfile. by rewrite Hstat.
Qed.

(** X2: a loadable input whose hull has its indices in range is converted
    whenever the directory part of the output path is a directory and the
    output path is not one: the run returns normally, the hull mesh
    stands at the place the output path resolves to, with one triangle
    for each facet, and the world is otherwise the old one with the two
    lines printed. *)
Theorem generate_writes_hull (input output : string) (w : world) (m : mesh)
    (simplices : list simplex) :
  os.stat w input = Some (File (Stl m)) →
  (4 ≤ length (cloud m))%nat →
  ConvexHull (cloud m) = inr simplices →
  forallb (simplex_ok (length (cloud m))) simplices = true →
  os.path_isdir w (posixpath.dirname output) = true →
  os.path_isdir w output = false →
  ∃ g loc,
    mapM (facet (cloud m)) simplices = Some g ∧
    length g = length simplices ∧
    os.resolve w output = inr loc ∧
    generate_convex_stl input output w =
      Ok tt (logged (INFO_saved output)
               (with_node loc (File (Stl g))
                  (logged (INFO_loaded input (length m)) w))) ∧
    os.stat (final (generate_convex_stl input output w)) output = Some (File (Stl g)).
Proof.
  intros Hstat Hlen Hhull Hok Hdir Hout.
  destruct (generate_run input output w m simplices Hstat Hlen Hhull Hok Hdir Hout)
    as (g & loc & Hg & Hr & Hnd & Hrun).
  exists g, loc. split_and!; [done| |done|done|].
  - destruct (facets_resolve _ _ Hok) as (g' & Hg' & Hlen').
    rewrite Hg in Hg'. by injection Hg' as ->.
  - rewrite Hrun. cbn [final]. rewrite stat_logged.
    assert (os.write_file output (Stl g) (logged (INFO_loaded input (length m)) w)
              = Ok tt (with_node loc (File (Stl g))
                         (logged (INFO_loaded input (length m)) w))) as Hw
      by (by apply write_file_succeeds).
    by apply write_file_stat in Hw as [Hs _].
Qed.

(** X3: a file that the STL reader cannot load: its exception is raised
    outside every handler, so the run raises it with the world untouched,
    and in the batch it ends the loop before the remaining files. *)
Theorem unreadable_file_stops_the_batch (input output : string) (w : world) :
  os.stat w input = Some (File NotStl) →
  generate_convex_stl input output w = Raise StlReadError w ∧
  ∀ output_dir suffix in_path rest,
    pathlib.path_str in_path = input →
    for_each_file output_dir suffix (in_path :: rest) w = Raise StlReadError w.
Proof.
  intros Hstat. split; [by apply generate_unreadable|].
  intros output_dir suffix in_path rest <-. cbn [generate_convex.for_each_file].
  unfold bind at 1. by rewrite generate_unreadable.
Qed.

(** X4: the scanner tests the name only: a directory whose name ends in
    [.stl] is among the files to convert.  The loop then skips it with the
    warning for a missing file and goes on with the next one. *)
Theorem stl_named_directory_skipped (input_directory : string) (w : world)
    (loc : location) (n : string) :
  let input_dir := pathlib.Path input_directory in
  let in_path := pathlib.make_child_relpath input_dir n in
  os.resolve w (pathlib.path_str input_dir) = inr loc →
  fs w !! loc = Some Dir →
  entry_name n →
  fs w !! (loc ++ [n]) = Some Dir →
  Str.lower (pathlib.suffix_of_name n) = ".stl" →
  is_stl in_path = true ∧
  ∀ output_dir suffix rest,
    for_each_file output_dir suffix (in_path :: rest) w =
      for_each_file output_dir suffix rest
        (logged (WARN_file_not_found (pathlib.path_str in_path)) w).
Proof.
  intros input_dir in_path Hres Hdir Hn Hnode Hsfx. pose proof Hn as [Hc _]. split.
  - unfold is_stl, pathlib.suffix, in_path, input_dir. rewrite child_name by done.
    by apply String.eqb_eq.
  - intros output_dir suffix rest. cbn [generate_convex.for_each_file].
    unfold bind at 1. rewrite generate_not_file; [done|].
    unfold os.path_isfile, in_path, input_dir.
    by rewrite (stat_child _ _ _ loc), Hnode.
Qed.

(** X5: one round of the batch loop with an existing output directory that
    is not written ["."]: a loadable file with a hull in range is written
    to the entry [stem + suffix + ".stl"] of that directory, unless that
    entry is a directory, and the loop goes on with the next file. *)
Theorem batch_round_converts (output_directory suffix : string)
    (in_path : pathlib.PosixPath) (rest : list pathlib.PosixPath) (w : world)
    (m : mesh) (simplices : list simplex) (locd : location) :
  let output_dir := pathlib.Path output_directory in
  let out := pathlib.path_str (out_path output_dir in_path suffix) in
  is_stl in_path = true →
  Str.has_slash suffix = false →
  os.stat w (pathlib.path_str in_path) = Some (File (Stl m)) →
  (4 ≤ length (cloud m))%nat →
  ConvexHull (cloud m) = inr simplices →
  forallb (simplex_ok (length (cloud m))) simplices = true →
  os.resolve w (pathlib.path_str output_dir) = inr locd →
  fs w !! locd = Some Dir →
  pathlib.path_str output_dir ≠ "." →
  fs w !! (locd ++ [out_name in_path suffix]) ≠ Some Dir →
  ∃ g,
    mapM (facet (cloud m)) simplices = Some g ∧
    for_each_file output_dir suffix (in_path :: rest) w =
      for_each_file output_dir suffix rest
        (logged (INFO_saved out)
           (with_node (locd ++ [out_name in_path suffix]) (File (Stl g))
              (logged (INFO_loaded (pathlib.path_str in_path) (length m)) w))).
Proof.
  intros output_dir out Hstl Hsfx Hstat Hlen Hhull Hok Hres Hdir Hdot Hnode.
  pose proof (out_name_component in_path suffix Hstl Hsfx) as Hc.
  assert (entry_name (out_name in_path suffix)) as Hn.
  { split; [done|]. unfold out_name. intros Heq%(f_equal String.length).
    rewrite !app_length_str in Heq. simpl in Heq. lia. }
  assert (out = pathlib.path_str
                  (pathlib.make_child_relpath output_dir (out_name in_path suffix)))
    as Hout.
  { unfold out, out_path, output_dir. by rewrite child_truediv. }
  assert (os.resolve w out = inr (locd ++ [out_name in_path suffix])) as Hro.
  { rewrite Hout. by apply resolve_child. }
  assert (os.path_isdir w (posixpath.dirname out) = true) as Hparent.
  { destruct (posixpath.split out) as [head tail] eqn:Hsplit.
    unfold posixpath.dirname. rewrite Hsplit. cbn [fst].
    apply (split_head_isdir w out head tail _ Hro Hsplit).
    replace head with (posixpath.dirname out)
      by (unfold posixpath.dirname; by rewrite Hsplit).
    apply dirname_nonempty. rewrite Hout. by apply child_has_slash. }
  assert (os.path_isdir w out = false) as Hnd.
  { unfold os.path_isdir, os.stat. rewrite Hro.
    repeat case_match; done. }
  destruct (generate_run (pathlib.path_str in_path) out w m simplices
              Hstat Hlen Hhull Hok Hparent Hnd)
    as (g & loc & Hg & Hloc & _ & Hrun).
  exists g. split; [done|]. cbn [generate_convex.for_each_file].
  unfold bind at 1. fold out. rewrite Hrun.
  rewrite Hro in Hloc. by injection Hloc as <-.
Qed.

(** X6: with an output directory written ["."], as when the batch is
    called on ["."] and the output directory is omitted, and a suffix
    without slash, the output path of every file is a bare name: the
    first file that loads and has a hull makes [os.makedirs] raise
    [FileNotFoundError] on the empty directory name, nothing is written
    and the loop ends there. *)
Theorem dot_output_directory_fails (output_directory suffix : string)
    (in_path : pathlib.PosixPath) (rest : list pathlib.PosixPath) (w : world)
    (m : mesh) (simplices : list simplex) :
  let output_dir := pathlib.Path output_directory in
  pathlib.path_str output_dir = "." →
  is_stl in_path = true →
  Str.has_slash suffix = false →
  os.stat w (pathlib.path_str in_path) = Some (File (Stl m)) →
  (4 ≤ length (cloud m))%nat →
  ConvexHull (cloud m) = inr simplices →
  forallb (simplex_ok (length (cloud m))) simplices = true →
  pathlib.path_str (out_path output_dir in_path suffix) = out_name in_path suffix ∧
  for_each_file output_dir suffix (in_path :: rest) w =
    Raise FileNotFoundError
      (logged (INFO_loaded (pathlib.path_str in_path) (length m)) w).
Proof.
  intros output_dir Hdot Hstl Hsfx Hstat Hlen Hhull Hok.
  pose proof (out_name_component in_path suffix Hstl Hsfx) as Hc.
  assert (pathlib.path_str (out_path output_dir in_path suffix) = out_name in_path suffix)
    as Hout.
  { unfold out_path, output_dir. rewrite <- child_truediv by done.
    by apply child_of_dot. }
  split; [done|].
  destruct (facets_resolve _ _ Hok) as (g & Hg & _).
  cbn [generate_convex.for_each_file]. unfold bind at 1. rewrite Hout.
  rewrite (generate_bare_output np_sort ConvexHull _ _ w m g simplices); try done.
  by destruct Hc.
Qed.

(** X7: the test of the scanner, spelled out: a path is accepted exactly
    when its last component is a stem that is not empty followed by an
    extension that lower-cases to [.stl]; the stem and the suffix of the
    path are then these two parts, so the split is unique. *)
Theorem is_stl_iff (p : pathlib.PosixPath) :
  (is_stl p = true ↔
   ∃ stem ext, pathlib.name p = stem +:+ ext ∧ stem ≠ "" ∧ Str.lower ext = ".stl") ∧
  (∀ stem ext, pathlib.name p = stem +:+ ext → stem ≠ "" → Str.lower ext = ".stl" →
               pathlib.stem p = stem ∧ pathlib.suffix p = ext).
Proof.
  split; [split|].
  - intros Hstl. pose proof (is_stl_name p Hstl) as (Hname & Hne & _ & _).
    exists (pathlib.stem p), (pathlib.suffix p). split_and!; try done.
    by apply String.eqb_eq.
  - intros (stem & ext & Hname & Hne & Hl).
    unfold is_stl, pathlib.suffix. rewrite Hname.
    destruct (stl_name_parts stem ext Hne Hl) as [_ ->]. by apply String.eqb_eq.
  - intros stem ext Hname Hne Hl. unfold pathlib.stem, pathlib.suffix.
    rewrite Hname. by apply stl_name_parts.
Qed.

(** X8: the path a round writes to is accepted by the scanner in its
    turn, with the stem [stem + suffix]: its own output name is
    [stem + suffix + suffix + ".stl"]. *)
Theorem outputs_are_inputs_again (output_dir in_path : pathlib.PosixPath)
    (suffix : string) :
  is_stl in_path = true →
  Str.has_slash suffix = false →
  let out := out_path output_dir in_path suffix in
  is_stl out = true ∧
  pathlib.stem out = pathlib.stem in_path +:+ suffix ∧
  out_name out suffix = pathlib.stem in_path +:+ suffix +:+ suffix +:+ ".stl".
Proof.
  intros Hstl Hsfx out.
  pose proof (out_name_component in_path suffix Hstl Hsfx) as Hc.
  pose proof (is_stl_name in_path Hstl) as (_ & Hne & _ & _).
  assert (pathlib.name out = (pathlib.stem in_path +:+ suffix) +:+ ".stl") as Hname.
  { unfold out, out_path. rewrite truediv_name by done. unfold out_name.
    by rewrite app_assoc_str. }
  assert (pathlib.stem in_path +:+ suffix ≠ "") as Hne'.
  { intros Heq. apply Hne. by destruct (pathlib.stem in_path). }
  destruct (stl_name_parts (pathlib.stem in_path +:+ suffix) ".stl" Hne' eq_refl)
    as [Hstem Hsuffix].
  assert (pathlib.stem out = pathlib.stem in_path +:+ suffix) as Hst.
  { unfold pathlib.stem. by rewrite Hname. }
  split_and!; [|done|].
  - unfold is_stl, pathlib.suffix. by rewrite Hname, Hsuffix.
  - unfold out_name. by rewrite Hst, !app_assoc_str.
Qed.

(** X9: two entries of a directory that differ only in the case of the
    extension are both accepted, are different paths, and are sent to
    the same output path. *)
Theorem extension_case_collision (input_directory stem ext1 ext2 suffix : string)
    (output_dir : pathlib.PosixPath) :
  let p := pathlib.make_child_relpath (pathlib.Path input_directory) (stem +:+ ext1) in
  let q := pathlib.make_child_relpath (pathlib.Path input_directory) (stem +:+ ext2) in
  stem ≠ "" → Str.has_slash stem = false →
  Str.lower ext1 = ".stl" → Str.lower ext2 = ".stl" → ext1 ≠ ext2 →
  is_stl p = true ∧ is_stl q = true ∧ p ≠ q ∧
  out_path output_dir p suffix = out_path output_dir q suffix.
Proof.
  intros p q Hne Hs H1 H2 Hdiff.
  pose proof (stl_name_component stem ext1 Hne Hs H1) as [Hc1 _].
  pose proof (stl_name_component stem ext2 Hne Hs H2) as [Hc2 _].
  assert (pathlib.name p = stem +:+ ext1) as Hp by (by apply child_name).
  assert (pathlib.name q = stem +:+ ext2) as Hq by (by apply child_name).
  destruct (stl_name_parts stem ext1 Hne H1) as [Hst1 Hsx1].
  destruct (stl_name_parts stem ext2 Hne H2) as [Hst2 Hsx2].
  split_and!.
  - unfold is_stl, pathlib.suffix. rewrite Hp, Hsx1. by apply String.eqb_eq.
  - unfold is_stl, pathlib.suffix. rewrite Hq, Hsx2. by apply String.eqb_eq.
  - intros Heq. rewrite Heq, Hq in Hp. apply Hdiff.
    clear -Hp. induction stem as [|c stem IH]; [done|].
    rewrite !app_cons in Hp. injection Hp as Hp. by apply IH.
  - unfold out_path, out_name, pathlib.stem. by rewrite Hp, Hq, Hst1, Hst2.
Qed.

(** X10: the point cloud of every mesh, NaN coordinates included: each row is
    a vertex of the input, each vertex of the input has a row of the same
    rank, equal to it as floats unless it has a NaN, no two rows are equal
    as floats, and there are at most three rows for a triangle. *)
Theorem point_cloud_of_any_mesh (m : mesh) :
  (∀ p, In p (cloud m) → In p (reshape m)) ∧
  (∀ p, In p (reshape m) →
        ∃ k, In k (cloud m) ∧ row_rank k = row_rank p ∧
             (row_has_nan p = false → row_eqb p k = true)) ∧
  StronglySorted (λ p q, row_eqb p q = false) (cloud m) ∧
  (length (cloud m) ≤ 3 * length m)%nat ∧
  (m ≠ [] → cloud m ≠ []).
Proof.
  split_and!.
  - apply (cloud_In np_sort np_sort_Permutation).
  - intros p Hp.
    destruct (cloud_represents np_sort np_sort_Permutation m p Hp) as (k & Hk & Hrank).
    exists k. split_and!; [done..|].
    intros Hnan. apply row_eqb_rank. split_and!; [done| |done].
    by rewrite (row_has_nan_rank k p).
  - unfold generate_convex.np_unique, keep_changes.
    pose proof (np_sort_Sorted (reshape m)) as Hs.
    destruct (np_sort (reshape m)) as [|x aux]; [constructor|].
    apply mask_from_distinct. by apply Sorted_StronglySorted; [apply _|].
  - apply (cloud_length_reshape np_sort np_sort_Permutation).
  - intros Hm Hnil. destruct m as [|t m]; [done|].
    assert (In (fst (fst t)) (reshape (t :: m))) as Hin
      by (destruct t as [[a b] c]; by left).
    destruct (cloud_represents np_sort np_sort_Permutation _ _ Hin) as (k & Hk & _).
    rewrite Hnil in Hk. done.
Qed.

(** X11: the batch never removes or retypes anything: however it ends,
    every directory of the old world is a directory of the new one, every
    file is still a file, the working directory stays and the output is
    only extended. *)
Theorem batch_keeps_nodes (input_directory : string)
    (output_directory suffix : option string) (w : world) :
  keeps_nodes w
    (final (batch_convex_hull_generation input_directory output_directory suffix w)).
Proof.
  unfold generate_convex.batch_convex_hull_generation. cbv zeta. unfold bind at 1.
  pose proof (pathlib_mkdir_from_more_dirs
                (pathlib.root (output_dir_of input_directory output_directory))
                (reverse (pathlib.tail (output_dir_of input_directory output_directory)))
                w) as Hmk%more_dirs_keeps.
  fold (pathlib.mkdir (output_dir_of input_directory output_directory)) in Hmk.
  destruct (pathlib.mkdir _ w) as [[] w1|e w1]; cbn [final] in *; [|done].
  eapply keeps_nodes_trans; [exact Hmk|apply scan_keeps].
Qed.

(** X12: after a batch that returns normally, the input directory and the
    output directory are both directories, whether or not they were
    before. *)
Theorem batch_leaves_both_directories (input_directory : string)
    (output_directory suffix : option string) (w w' : world) :
  batch_convex_hull_generation input_directory output_directory suffix w = Ok tt w' →
  os.path_isdir w' (pathlib.path_str (pathlib.Path input_directory)) = true ∧
  os.path_isdir w'
    (pathlib.path_str (output_dir_of input_directory output_directory)) = true.
Proof.
  unfold generate_convex.batch_convex_hull_generation. cbv zeta. unfold bind at 1.
  destruct (pathlib.mkdir _ w) as [[] w1|e w1] eqn:Hmk; [|done].
  intros Hscan.
  pose proof (scan_keeps (pathlib.Path input_directory)
                (output_dir_of input_directory output_directory)
                (default default_suffix suffix) w1) as Hk.
  rewrite Hscan in Hk. cbn [final] in Hk.
  split.
  - apply (keeps_nodes_isdir w1); [done|].
    revert Hscan. unfold generate_convex.scan_and_convert, bind at 1, pathlib.iterdir,
      bind at 1.
    destruct (os.listdir _ w1) as [names w2|e w2] eqn:Hls; [|done].
    intros _. by apply (listdir_ok _ _ _ _ Hls).
  - apply (keeps_nodes_isdir w1); [done|].
    destruct output_directory as [d|]; cbn [output_dir_of] in *;
      by apply (pathlib_mkdir_ok _ w).
Qed.

(** X13: an output directory that names an existing file: the batch raises
    [FileExistsError] at once, with the world untouched.  With the output
    directory omitted this is the answer to an input path that is a file. *)
Theorem output_directory_is_a_file (input_directory : string)
    (output_directory suffix : option string) (w : world) :
  os.path_isfile w
    (pathlib.path_str (output_dir_of input_directory output_directory)) = true →
  batch_convex_hull_generation input_directory output_directory suffix w
    = Raise FileExistsError w.
Proof.
  intros Hf. unfold generate_convex.batch_convex_hull_generation. cbv zeta.
  unfold bind at 1.
  destruct output_directory as [d|]; cbn [output_dir_of] in *;
    by rewrite pathlib_mkdir_on_file.
Qed.

(** * The claims on output names, on the scanner and on repeated runs *)

Lemma keeps_nodes_resolve (w w' : world) (path : string) (loc : location) :
  keeps_nodes w w' → os.resolve w path = inr loc → os.resolve w' path = inr loc.
Proof.
  intros Hk. pose proof Hk as (Hc & _). unfold os.resolve.
  destruct (Str.nonempty path); [|done]. rewrite Hc. by apply keeps_nodes_walk.
Qed.

Lemma out_name_entry (in_path : pathlib.PosixPath) (suffix : string) :
  is_stl in_path = true → Str.has_slash suffix = false →
  entry_name (out_name in_path suffix).
Proof.
  intros Hstl Hsfx. split; [by apply out_name_component|].
  unfold out_name. intros Heq%(f_equal String.length).
  rewrite !app_length_str in Heq. simpl in Heq. lia.
Qed.

(** A file that is there after a run was there before, or is the STL
    file at the output path. *)
Lemma generate_new_files (input output : string) (w : world) (loc : location)
    (d : file_data) :
  fs (final (generate_convex_stl input output w)) !! loc = Some (File d) →
  fs w !! loc = Some (File d) ∨
  (os.resolve (final (generate_convex_stl input output w)) output = inr loc ∧
   ∃ g, d = Stl g).
Proof.
  destruct (os.stat w input) as [[|[m|]]|] eqn:Hstat.
  - rewrite generate_not_file; [intros Hl; by left|].
    unfold os.path_isfile. by rewrite Hstat.
  - rewrite (generate_loaded np_sort ConvexHull _ _ _ _ Hstat). cbv zeta.
    destruct (length (cloud m) <? 4)%nat; [intros Hl; by left|].
    destruct (ConvexHull (cloud m)) as [e|simplices]; [intros Hl; by left|].
    unfold fill_vectors, bind.
    destruct (mapM (facet (cloud m)) simplices) as [g|]; [|intros Hl; by left].
    unfold ret.
    pose proof (makedirs_more_dirs (posixpath.dirname output)
                  (logged (INFO_loaded input (length m)) w)) as Hm.
    destruct (os.makedirs _ _) as [[] w2|e w2]; cbn [final] in Hm;
      destruct Hm as (_ & _ & _ & Hf); simpl in Hf.
    + unfold stl.save.
      destruct (os.write_file output (Stl g) w2) as [[] w3|e w3] eqn:Hw;
        unfold print; cbn [final].
      * apply write_file_ok in Hw as (l0 & _ & _ & -> & Hres). simpl.
        destruct (decide (l0 = loc)) as [->|Hne].
        -- rewrite lookup_insert_eq. intros [= <-]. right. split; [exact Hres|by eexists].
        -- rewrite lookup_insert_ne by done. intros Hl. left. by apply Hf.
      * apply write_file_raise in Hw as [-> _]. simpl. intros Hl. left. by apply Hf.
    + intros Hl. left. by apply Hf.
  - rewrite generate_unreadable by done. intros Hl. by left.
  - rewrite generate_not_file; [intros Hl; by left|].
    unfold os.path_isfile. by rewrite Hstat.
Qed.

(** The files the loop leaves behind: old ones, and STL files named
    [stem + suffix + ".stl"] directly below the output directory. *)
Lemma for_each_file_outputs (s suffix : string) (stl_files : list pathlib.PosixPath)
    (w : world) (locd loc : location) (d : file_data) :
  Str.has_slash suffix = false →
  Forall (λ p, is_stl p = true) stl_files →
  os.resolve w (pathlib.path_str (pathlib.Path s)) = inr locd →
  fs w !! locd = Some Dir →
  fs (final (for_each_file (pathlib.Path s) suffix stl_files w)) !! loc = Some (File d) →
  fs w !! loc = Some (File d) ∨
  ∃ p g, p ∈ stl_files ∧ loc = locd ++ [out_name p suffix] ∧ d = Stl g.
Proof.
  intros Hsfx Hall. revert w.
  induction Hall as [|p rest Hp Hall IH]; intros w Hres Hdir;
    cbn [generate_convex.for_each_file].
  { intros Hl. by left. }
  unfold bind at 1.
  pose proof (generate_keeps (pathlib.path_str p)
                (pathlib.path_str (out_path (pathlib.Path s) p suffix)) w) as Hk.
  pose proof (generate_new_files (pathlib.path_str p)
                (pathlib.path_str (out_path (pathlib.Path s) p suffix)) w) as Hn.
  destruct (generate_convex_stl (pathlib.path_str p)
              (pathlib.path_str (out_path (pathlib.Path s) p suffix)) w)
    as [[] wa|e wa]; cbn [final] in *.
  all: assert (os.resolve wa (pathlib.path_str (pathlib.Path s)) = inr locd) as Hres'
    by (by apply (keeps_nodes_resolve w)).
  all: assert (fs wa !! locd = Some Dir) as Hdir'
    by (destruct Hk as (_ & _ & Hd & _); by apply Hd).
  all: assert (os.resolve wa (pathlib.path_str (out_path (pathlib.Path s) p suffix))
                 = inr (locd ++ [out_name p suffix])) as Hout
    by (unfold out_path; rewrite <- child_truediv by (by apply out_name_component);
        apply resolve_child; [done|done|by apply out_name_entry]).
  all: assert (∀ l0 d0, fs wa !! l0 = Some (File d0) →
                 fs w !! l0 = Some (File d0) ∨
                 ∃ q g, q ∈ p :: rest ∧ l0 = locd ++ [out_name q suffix] ∧ d0 = Stl g)
         as Hhere
    by (intros l0 d0 Hl; destruct (Hn l0 d0 Hl) as [?|(Hr & g & ->)]; [by left|];
        right; exists p, g; split_and!; [apply elem_of_cons; by left|congruence|done]).
  - intros Hl. destruct (IH wa Hres' Hdir' Hl) as [Hwa|(q & g & Hq & -> & ->)].
    + by apply Hhere.
    + right. exists q, g. split_and!; [apply elem_of_cons; by right|done|done].
  - intros Hl. by apply Hhere.
Qed.

(** One round of the loop that converts. *)
Lemma round_writes (output_directory suffix : string)
    (in_path : pathlib.PosixPath) (rest : list pathlib.PosixPath) (w : world)
    (m : mesh) (simplices : list simplex) (locd : location) :
  let output_dir := pathlib.Path output_directory in
  let out := pathlib.path_str (out_path output_dir in_path suffix) in
  is_stl in_path = true →
  Str.has_slash suffix = false →
  os.stat w (pathlib.path_str in_path) = Some (File (Stl m)) →
  (4 ≤ length (cloud m))%nat →
  ConvexHull (cloud m) = inr simplices →
  forallb (simplex_ok (length (cloud m))) simplices = true →
  os.resolve w (pathlib.path_str output_dir) = inr locd →
  fs w !! locd = Some Dir →
  pathlib.path_str output_dir ≠ "." →
  fs w !! (locd ++ [out_name in_path suffix]) ≠ Some Dir →
  ∃ g,
    mapM (facet (cloud m)) simplices = Some g ∧
    for_each_file output_dir suffix (in_path :: rest) w =
      for_each_file output_dir suffix rest
        (logged (INFO_saved out)
           (with_node (locd ++ [out_name in_path suffix]) (File (Stl g))
              (logged (INFO_loaded (pathlib.path_str in_path) (length m)) w))).
Proof.
  intros output_dir out Hstl Hsfx Hstat Hlen Hhull Hok Hres Hdir Hdot Hnode.
  pose proof (out_name_component in_path suffix Hstl Hsfx) as Hc.
  assert (entry_name (out_name in_path suffix)) as Hn by (by apply out_name_entry).
  assert (out = pathlib.path_str
                  (pathlib.make_child_relpath output_dir (out_name in_path suffix)))
    as Hout.
  { unfold out, out_path, output_dir. by rewrite child_truediv. }
  assert (os.resolve w out = inr (locd ++ [out_name in_path suffix])) as Hro.
  { rewrite Hout. by apply resolve_child. }
  assert (os.path_isdir w (posixpath.dirname out) = true) as Hparent.
  { destruct (posixpath.split out) as [head tail] eqn:Hsplit.
    unfold posixpath.dirname. rewrite Hsplit. cbn [fst].
    apply (split_head_isdir w out head tail _ Hro Hsplit).
    replace head with (posixpath.dirname out)
      by (unfold posixpath.dirname; by rewrite Hsplit).
    apply dirname_nonempty. rewrite Hout. by apply child_has_slash. }
  assert (os.path_isdir w out = false) as Hnd.
  { unfold os.path_isdir, os.stat. rewrite Hro.
    repeat case_match; done. }
  destruct (generate_run (pathlib.path_str in_path) out w m simplices
              Hstat Hlen Hhull Hok Hparent Hnd)
    as (g & loc & Hg & Hloc & _ & Hrun).
  exists g. split; [done|]. cbn [generate_convex.for_each_file].
  unfold bind at 1. fold out. rewrite Hrun.
  rewrite Hro in Hloc. by injection Hloc as <-.
Qed.

(** C2, amended: with a suffix X without slash (the literal
    [.stl.convex] when omitted), the output path of an accepted file with
    stem S has the name [S + X + ".stl"] and the components of the output
    directory before it.  Every file that is there after the batch and
    was not there before, or not with that content, is an STL file with
    such a name directly below the output directory, for an accepted
    entry of the input directory; and when the first accepted entry
    converts, the batch writes its hull there and goes on.
    [part_007.stl] with suffix [_convex] gives [part_007_convex.stl]. *)
Theorem C2_output_file_name (input_directory : string)
    (output_directory suffix : option string) :
  let X := default default_suffix suffix in
  let input_dir := pathlib.Path input_directory in
  let output_dir := output_dir_of input_directory output_directory in
  Str.has_slash X = false →
  (∀ in_path,
     is_stl in_path = true →
     pathlib.name (out_path output_dir in_path X) = pathlib.stem in_path +:+ X +:+ ".stl" ∧
     pathlib.path_str (out_path output_dir in_path X) =
       pathlib.format (pathlib.root output_dir)
         (pathlib.tail output_dir ++ [pathlib.stem in_path +:+ X +:+ ".stl"])) ∧
  (∀ w loc d,
     fs (final (batch_convex_hull_generation input_directory output_directory suffix w))
       !! loc = Some (File d) →
     fs w !! loc = Some (File d) ∨
     ∃ w1 locd entries in_path g,
       pathlib.mkdir output_dir w = Ok tt w1 ∧
       os.resolve w1 (pathlib.path_str output_dir) = inr locd ∧
       pathlib.iterdir input_dir w1 = Ok entries w1 ∧
       in_path ∈ entries ∧ is_stl in_path = true ∧
       loc = locd ++ [pathlib.stem in_path +:+ X +:+ ".stl"] ∧
       d = Stl g) ∧
  (∀ w w1 entries in_path rest m simplices locd,
     pathlib.mkdir output_dir w = Ok tt w1 →
     pathlib.iterdir input_dir w1 = Ok entries w1 →
     pathlib.sorted (List.filter is_stl entries) = in_path :: rest →
     os.stat w1 (pathlib.path_str in_path) = Some (File (Stl m)) →
     (4 ≤ length (cloud m))%nat →
     ConvexHull (cloud m) = inr simplices →
     forallb (simplex_ok (length (cloud m))) simplices = true →
     os.resolve w1 (pathlib.path_str output_dir) = inr locd →
     pathlib.path_str output_dir ≠ "." →
     fs w1 !! (locd ++ [pathlib.stem in_path +:+ X +:+ ".stl"]) ≠ Some Dir →
     ∃ g,
       mapM (facet (cloud m)) simplices = Some g ∧
       batch_convex_hull_generation input_directory output_directory suffix w =
         for_each_file output_dir X rest
           (logged (INFO_saved (pathlib.path_str (out_path output_dir in_path X)))
              (with_node (locd ++ [pathlib.stem in_path +:+ X +:+ ".stl"])
                 (File (Stl g))
                 (logged (INFO_loaded (pathlib.path_str in_path) (length m))
                    (logged (INFO_found (S (length rest)) (pathlib.path_str input_dir))
                       w1))))) ∧
  batch_convex_hull_generation input_directory output_directory None =
    batch_convex_hull_generation input_directory output_directory (Some ".stl.convex") ∧
  pathlib.path_str
    (out_path (pathlib.Path "target") (pathlib.Path "parts/part_007.stl") "_convex")
    = "target/part_007_convex.stl".
Proof.
  intros X input_dir output_dir HX.
  assert (∃ s, output_dir = pathlib.Path s) as [s Hod].
  { unfold output_dir. destruct output_directory as [o|]; by eexists. }
  assert (∀ l p, p ∈ pathlib.sorted (List.filter is_stl l) → p ∈ l ∧ is_stl p = true)
    as Hscan.
  { intros l p. rewrite sorted_Permutation, !list_elem_of_In, filter_In. done. }
  split_and!; [| | |done|done].
  - intros in_path Hstl.
    pose proof (out_name_component in_path X Hstl HX) as Hc. split.
    + by apply truediv_name.
    + rewrite Hod. by apply truediv_parent.
  - intros w loc d. unfold generate_convex.batch_convex_hull_generation. cbv zeta.
    fold X input_dir output_dir. unfold bind at 1.
    pose proof (pathlib_mkdir_from_more_dirs (pathlib.root output_dir)
                  (reverse (pathlib.tail output_dir)) w) as Hmore.
    fold (pathlib.mkdir output_dir) in Hmore.
    destruct (pathlib.mkdir output_dir w) as [[] w1|e w1] eqn:Hmk; cbn [final] in Hmore;
      pose proof Hmore as (_ & _ & _ & Hold).
    2: { cbn [final]. intros Hl. left. by apply Hold. }
    assert (os.path_isdir w1 (pathlib.path_str output_dir) = true) as Hisdir.
    { rewrite Hod. apply (pathlib_mkdir_ok s w). by rewrite <- Hod. }
    apply isdir_resolve in Hisdir as (locd & Hres & Hdir).
    unfold generate_convex.scan_and_convert, bind at 1.
    destruct (pathlib.iterdir input_dir w1) as [entries w1'|e w1'] eqn:Hit.
    2: { cbn [final]. intros Hl. left. apply Hold.
         revert Hit. unfold pathlib.iterdir, bind.
         pose proof (listdir_world (pathlib.path_str input_dir) w1) as Hw.
         destruct (os.listdir _ w1) as [names w2|e' w2]; cbn [final] in Hw; subst w2;
           [done|]. by intros [= _ <-]. }
    assert (w1' = w1) as ->.
    { revert Hit. unfold pathlib.iterdir, bind.
      pose proof (listdir_world (pathlib.path_str input_dir) w1) as Hw.
      destruct (os.listdir _ w1) as [names w2|e' w2]; cbn [final] in Hw; subst w2;
        [|done]. unfold ret. by intros [= _ <-]. }
    cbv zeta.
    destruct (pathlib.sorted (List.filter is_stl entries)) as [|p l] eqn:Hfiles.
    { unfold print. cbn [final]. simpl. intros Hl. left. by apply Hold. }
    unfold bind, print. intros Hl.
    assert (Forall (λ q, is_stl q = true) (p :: l)) as Hall.
    { apply List.Forall_forall. intros q Hq%list_elem_of_In.
      rewrite <- Hfiles in Hq. by apply Hscan in Hq as [_ ?]. }
    rewrite Hod in Hl. rewrite Hod in Hres.
    destruct (for_each_file_outputs s X (p :: l)
                (logged (INFO_found (length (p :: l)) (pathlib.path_str input_dir)) w1)
                locd loc d HX Hall Hres Hdir Hl)
      as [Hw1|(q & g & Hq & -> & ->)].
    + left. by apply Hold.
    + right. exists w1, locd, entries, q, g.
      rewrite <- Hfiles in Hq. apply Hscan in Hq as [Hq Hstl].
      rewrite Hod. split_and!; done.
  - intros w w1 entries in_path rest m simplices locd
      Hmk Hit Hfiles Hstat Hlen Hhull Hok Hres Hdot Hnode.
    assert (is_stl in_path = true) as Hstl.
    { apply (Hscan entries). rewrite Hfiles. apply elem_of_cons. by left. }
    assert (fs w1 !! locd = Some Dir) as Hdir.
    { assert (os.path_isdir w1 (pathlib.path_str output_dir) = true) as Hisdir.
      { rewrite Hod. apply (pathlib_mkdir_ok s w). by rewrite <- Hod. }
      apply isdir_resolve in Hisdir as (locd' & Hres' & Hdir).
      rewrite Hres in Hres'. by injection Hres' as <-. }
    rewrite Hod in Hres, Hdot.
    destruct (round_writes s X in_path rest
                (logged (INFO_found (S (length rest)) (pathlib.path_str input_dir)) w1)
                m simplices locd Hstl HX Hstat Hlen Hhull Hok Hres Hdir Hdot Hnode)
      as (g & Hg & Hround).
    exists g. split; [done|].
    unfold generate_convex.batch_convex_hull_generation. cbv zeta.
    fold X input_dir output_dir. unfold bind at 1. rewrite Hmk.
    unfold generate_convex.scan_and_convert, bind at 1. rewrite Hit. cbv zeta.
    rewrite Hfiles. unfold bind, print. rewrite Hod. exact Hround.
Qed.

(** C5: in a world where the input directory exists, the scanner lists
    the nodes directly below it and hands to the loop exactly the paths
    whose suffix, lower-cased, is [.stl], in sorted order, the same for
    every order in which the system lists the directory: it prints their
    number and converts them one by one.  When no entry matches it prints
    the warning instead and returns normally with the world otherwise
    unchanged.  With the output directory omitted, or an existing one,
    this is what the batch does. *)
Theorem C5_scanner (input_directory : string) (w : world) (loc : location) :
  let input_dir := pathlib.Path input_directory in
  os.resolve w (pathlib.path_str input_dir) = inr loc →
  fs w !! loc = Some Dir →
  ∃ entries stl_files,
    pathlib.iterdir input_dir w = Ok entries w ∧
    (∀ p, p ∈ entries ↔
          ∃ n, is_Some (fs w !! (loc ++ [n])) ∧
               p = pathlib.make_child_relpath input_dir n) ∧
    (∀ p, p ∈ stl_files ↔ p ∈ entries ∧ Str.lower (pathlib.suffix p) = ".stl") ∧
    Sorted pathlib.le stl_files ∧
    (∀ listing, listing ≡ₚ entries →
                pathlib.sorted (List.filter is_stl listing) = stl_files) ∧
    (∀ output_dir suffix,
       scan_and_convert input_dir output_dir suffix w =
         match stl_files with
         | [] => Ok tt (logged (WARN_no_stl_files (pathlib.path_str input_dir)) w)
         | _ :: _ =>
             for_each_file output_dir suffix stl_files
               (logged (INFO_found (length stl_files) (pathlib.path_str input_dir)) w)
         end) ∧
    (∀ output_directory suffix,
       os.path_isdir w
         (pathlib.path_str (output_dir_of input_directory output_directory)) = true →
       batch_convex_hull_generation input_directory output_directory suffix w =
         match stl_files with
         | [] => Ok tt (logged (WARN_no_stl_files (pathlib.path_str input_dir)) w)
         | _ :: _ =>
             for_each_file (output_dir_of input_directory output_directory)
               (default default_suffix suffix) stl_files
               (logged (INFO_found (length stl_files) (pathlib.path_str input_dir)) w)
         end) ∧
    (∀ suffix,
       batch_convex_hull_generation input_directory None suffix w =
         match stl_files with
         | [] => Ok tt (logged (WARN_no_stl_files (pathlib.path_str input_dir)) w)
         | _ :: _ =>
             for_each_file input_dir (default default_suffix suffix) stl_files
               (logged (INFO_found (length stl_files) (pathlib.path_str input_dir)) w)
         end).
Proof.
  intros input_dir Hr Hl.
  destruct (listdir_spec _ _ _ Hr Hl) as (names & Hls & Hnames).
  assert (pathlib.iterdir input_dir w
            = Ok (map (pathlib.make_child_relpath input_dir) names) w) as Hit.
  { unfold pathlib.iterdir, bind. by rewrite Hls. }
  exists (map (pathlib.make_child_relpath input_dir) names),
    (pathlib.sorted
       (List.filter is_stl (map (pathlib.make_child_relpath input_dir) names))).
  assert (∀ output_dir suffix,
            scan_and_convert input_dir output_dir suffix w =
              match pathlib.sorted
                      (List.filter is_stl
                         (map (pathlib.make_child_relpath input_dir) names)) with
              | [] => Ok tt (logged (WARN_no_stl_files (pathlib.path_str input_dir)) w)
              | p :: l =>
                  for_each_file output_dir suffix
                    (pathlib.sorted
                       (List.filter is_stl
                          (map (pathlib.make_child_relpath input_dir) names)))
                    (logged
                       (INFO_found
                          (length
                             (pathlib.sorted
                                (List.filter is_stl
                                   (map (pathlib.make_child_relpath input_dir) names))))
                          (pathlib.path_str input_dir)) w)
              end) as Hscan.
  { intros output_dir suffix.
    unfold generate_convex.scan_and_convert, bind at 1. rewrite Hit. cbv zeta.
    by destruct (pathlib.sorted _). }
  assert (∀ output_directory suffix,
            os.path_isdir w
              (pathlib.path_str (output_dir_of input_directory output_directory)) = true →
            batch_convex_hull_generation input_directory output_directory suffix w =
              scan_and_convert input_dir (output_dir_of input_directory output_directory)
                (default default_suffix suffix) w) as Hbatch.
  { intros output_directory suffix Hd.
    unfold generate_convex.batch_convex_hull_generation. cbv zeta. unfold bind at 1.
    destruct output_directory as [o|]; cbn [output_dir_of] in *;
      by rewrite pathlib_mkdir_existing. }
  split_and!.
  - done.
  - intros p. rewrite list_elem_of_fmap. split.
    + intros (n & -> & Hn). exists n. split; [by apply Hnames|done].
    + intros (n & Hn & ->). exists n. split; [done|by apply Hnames].
  - intros p. rewrite sorted_Permutation, !list_elem_of_In, filter_In.
    unfold is_stl. by rewrite String.eqb_eq.
  - apply sorted_Sorted.
  - intros listing Hp. by apply sorted_order_independent, filter_Permutation.
  - exact Hscan.
  - intros output_directory suffix Hd. rewrite Hbatch by done. apply Hscan.
  - intros suffix. rewrite (Hbatch None); [apply Hscan|].
    cbn [output_dir_of]. unfold os.path_isdir, os.stat. fold input_dir.
    by rewrite Hr, Hl.
Qed.


End Further.

(** * The further theorems on sample data *)

(** The tetrahedron of the sample world, converted into the existing
    directory [/empty] *)
Lemma generate_writes_hull_witness :
  os.stat Sample.w0 "cube.stl" = Some (File (Stl Sample.tetra)) ∧
  (4 ≤ length (np_unique row_isort (reshape Sample.tetra)))%nat ∧
  Sample.hull (np_unique row_isort (reshape Sample.tetra))
    = inr [(0, 1, 2); (0, 1, 3); (0, 2, 3); (1, 2, 3)] ∧
  forallb (simplex_ok (length (np_unique row_isort (reshape Sample.tetra))))
    [(0, 1, 2); (0, 1, 3); (0, 2, 3); (1, 2, 3)] = true ∧
  os.path_isdir Sample.w0 (posixpath.dirname "/empty/cube_convex.stl") = true ∧
  os.path_isdir Sample.w0 "/empty/cube_convex.stl" = false ∧
  ∃ g loc,
    mapM (facet (np_unique row_isort (reshape Sample.tetra)))
      [(0, 1, 2); (0, 1, 3); (0, 2, 3); (1, 2, 3)] = Some g ∧
    length g = 4%nat ∧
    os.resolve Sample.w0 "/empty/cube_convex.stl" = inr loc ∧
    Sample.convert "cube.stl" "/empty/cube_convex.stl" Sample.w0 =
      Ok tt (logged (INFO_saved "/empty/cube_convex.stl")
               (with_node loc (File (Stl g))
                  (logged (INFO_loaded "cube.stl" 4) Sample.w0))) ∧
    os.stat (final (Sample.convert "cube.stl" "/empty/cube_convex.stl" Sample.w0))
      "/empty/cube_convex.stl" = Some (File (Stl g)).
Proof.
  assert (os.stat Sample.w0 "cube.stl" = Some (File (Stl Sample.tetra))) as H1
    by (vm_compute; reflexivity).
  assert (4 ≤ length (np_unique row_isort (reshape Sample.tetra)))%nat as H2
    by (vm_compute; lia).
  assert (Sample.hull (np_unique row_isort (reshape Sample.tetra))
            = inr [(0, 1, 2); (0, 1, 3); (0, 2, 3); (1, 2, 3)]) as H3
    by (vm_compute; reflexivity).
  assert (forallb (simplex_ok (length (np_unique row_isort (reshape Sample.tetra))))
            [(0, 1, 2); (0, 1, 3); (0, 2, 3); (1, 2, 3)] = true) as H4
    by (vm_compute; reflexivity).
  assert (os.path_isdir Sample.w0 (posixpath.dirname "/empty/cube_convex.stl") = true)
    as H5 by (vm_compute; reflexivity).
  assert (os.path_isdir Sample.w0 "/empty/cube_convex.stl" = false) as H6
    by (vm_compute; reflexivity).
  split_and!; [done..|].
  exact (generate_writes_hull row_isort Sample.hull "cube.stl" "/empty/cube_convex.stl"
           Sample.w0 Sample.tetra _ H1 H2 H3 H4 H5 H6).
Defined.

(** An unreadable [broken.stl] *)
Lemma unreadable_file_stops_the_batch_witness :
  os.stat w_broken "broken.stl" = Some (File NotStl) ∧
  Sample.convert "broken.stl" "out/broken_convex.stl" w_broken
    = Raise StlReadError w_broken ∧
  ∀ output_dir suffix in_path rest,
    pathlib.path_str in_path = "broken.stl" →
    for_each_file row_isort Sample.hull output_dir suffix (in_path :: rest) w_broken
      = Raise StlReadError w_broken.
Proof.
  assert (os.stat w_broken "broken.stl" = Some (File NotStl)) as H1
    by (vm_compute; reflexivity).
  split; [done|].
  exact (unreadable_file_stops_the_batch row_isort Sample.hull "broken.stl"
           "out/broken_convex.stl" w_broken H1).
Defined.

(** The directory [/work/parts.stl] *)
Lemma stl_named_directory_skipped_witness :
  os.resolve w_parts (pathlib.path_str (pathlib.Path "/work")) = inr ["work"] ∧
  fs w_parts !! ["work"] = Some Dir ∧
  entry_name "parts.stl" ∧
  fs w_parts !! (["work"] ++ ["parts.stl"]) = Some Dir ∧
  Str.lower (pathlib.suffix_of_name "parts.stl") = ".stl" ∧
  is_stl (pathlib.make_child_relpath (pathlib.Path "/work") "parts.stl") = true ∧
  ∀ output_dir suffix rest,
    for_each_file row_isort Sample.hull output_dir suffix
      (pathlib.make_child_relpath (pathlib.Path "/work") "parts.stl" :: rest) w_parts =
    for_each_file row_isort Sample.hull output_dir suffix rest
      (logged (WARN_file_not_found "/work/parts.stl") w_parts).
Proof.
  assert (os.resolve w_parts (pathlib.path_str (pathlib.Path "/work")) = inr ["work"])
    as H1 by (vm_compute; reflexivity).
  assert (fs w_parts !! ["work"] = Some Dir) as H2 by (vm_compute; reflexivity).
  assert (entry_name "parts.stl") as H3 by (repeat split; discriminate).
  assert (fs w_parts !! (["work"] ++ ["parts.stl"]) = Some Dir) as H4
    by (vm_compute; reflexivity).
  assert (Str.lower (pathlib.suffix_of_name "parts.stl") = ".stl") as H5
    by (vm_compute; reflexivity).
  destruct (stl_named_directory_skipped row_isort Sample.hull "/work" w_parts ["work"]
              "parts.stl" H1 H2 H3 H4 H5) as [Ha Hb].
  split_and!; [exact H1|exact H2|exact H3|exact H4|exact H5|exact Ha|exact Hb].
Defined.

(** [/work/cube.stl] converted into the directory [/empty] *)
Lemma batch_round_converts_witness :
  is_stl Sample.cube_path = true ∧
  Str.has_slash "_convex" = false ∧
  os.stat Sample.w0 (pathlib.path_str Sample.cube_path)
    = Some (File (Stl Sample.tetra)) ∧
  (4 ≤ length (np_unique row_isort (reshape Sample.tetra)))%nat ∧
  Sample.hull (np_unique row_isort (reshape Sample.tetra))
    = inr [(0, 1, 2); (0, 1, 3); (0, 2, 3); (1, 2, 3)] ∧
  forallb (simplex_ok (length (np_unique row_isort (reshape Sample.tetra))))
    [(0, 1, 2); (0, 1, 3); (0, 2, 3); (1, 2, 3)] = true ∧
  os.resolve Sample.w0 (pathlib.path_str (pathlib.Path "/empty")) = inr ["empty"] ∧
  fs Sample.w0 !! ["empty"] = Some Dir ∧
  pathlib.path_str (pathlib.Path "/empty") ≠ "." ∧
  fs Sample.w0 !! (["empty"] ++ [out_name Sample.cube_path "_convex"]) ≠ Some Dir ∧
  ∃ g,
    mapM (facet (np_unique row_isort (reshape Sample.tetra)))
      [(0, 1, 2); (0, 1, 3); (0, 2, 3); (1, 2, 3)] = Some g ∧
    for_each_file row_isort Sample.hull (pathlib.Path "/empty") "_convex"
      [Sample.cube_path] Sample.w0 =
    Ok tt (logged (INFO_saved "/empty/cube_convex.stl")
             (with_node ["empty"; "cube_convex.stl"] (File (Stl g))
                (logged (INFO_loaded "/work/cube.stl" 4) Sample.w0))).
Proof.
  assert (is_stl Sample.cube_path = true) as H1 by (vm_compute; reflexivity).
  assert (Str.has_slash "_convex" = false) as H2 by reflexivity.
  assert (os.stat Sample.w0 (pathlib.path_str Sample.cube_path)
            = Some (File (Stl Sample.tetra))) as H3 by (vm_compute; reflexivity).
  assert (4 ≤ length (np_unique row_isort (reshape Sample.tetra)))%nat as H4
    by (vm_compute; lia).
  assert (Sample.hull (np_unique row_isort (reshape Sample.tetra))
            = inr [(0, 1, 2); (0, 1, 3); (0, 2, 3); (1, 2, 3)]) as H5
    by (vm_compute; reflexivity).
  assert (forallb (simplex_ok (length (np_unique row_isort (reshape Sample.tetra))))
            [(0, 1, 2); (0, 1, 3); (0, 2, 3); (1, 2, 3)] = true) as H6
    by (vm_compute; reflexivity).
  assert (os.resolve Sample.w0 (pathlib.path_str (pathlib.Path "/empty"))
            = inr ["empty"]) as H7 by (vm_compute; reflexivity).
  assert (fs Sample.w0 !! ["empty"] = Some Dir) as H8 by (vm_compute; reflexivity).
  assert (pathlib.path_str (pathlib.Path "/empty") ≠ ".") as H9
    by (vm_compute; discriminate).
  assert (fs Sample.w0 !! (["empty"] ++ [out_name Sample.cube_path "_convex"])
            ≠ Some Dir) as H10 by (vm_compute; discriminate).
  split_and!; [done..|].
  exact (batch_round_converts row_isort Sample.hull "/empty" "_convex" Sample.cube_path
           [] Sample.w0 Sample.tetra _ ["empty"] H1 H2 H3 H4 H5 H6 H7 H8 H9 H10).
Defined.

(** The batch on ["."] in the directory [/work] *)
Lemma dot_output_directory_fails_witness :
  pathlib.path_str (pathlib.Path ".") = "." ∧
  is_stl (pathlib.make_child_relpath (pathlib.Path ".") "cube.stl") = true ∧
  Str.has_slash "_convex" = false ∧
  os.stat Sample.w0
    (pathlib.path_str (pathlib.make_child_relpath (pathlib.Path ".") "cube.stl"))
    = Some (File (Stl Sample.tetra)) ∧
  (4 ≤ length (np_unique row_isort (reshape Sample.tetra)))%nat ∧
  Sample.hull (np_unique row_isort (reshape Sample.tetra))
    = inr [(0, 1, 2); (0, 1, 3); (0, 2, 3); (1, 2, 3)] ∧
  forallb (simplex_ok (length (np_unique row_isort (reshape Sample.tetra))))
    [(0, 1, 2); (0, 1, 3); (0, 2, 3); (1, 2, 3)] = true ∧
  pathlib.path_str
    (out_path (pathlib.Path ".")
       (pathlib.make_child_relpath (pathlib.Path ".") "cube.stl") "_convex")
    = "cube_convex.stl" ∧
  for_each_file row_isort Sample.hull (pathlib.Path ".") "_convex"
    [pathlib.make_child_relpath (pathlib.Path ".") "cube.stl"] Sample.w0 =
  Raise FileNotFoundError (logged (INFO_loaded "cube.stl" 4) Sample.w0).
Proof.
  assert (pathlib.path_str (pathlib.Path ".") = ".") as H1 by reflexivity.
  assert (is_stl (pathlib.make_child_relpath (pathlib.Path ".") "cube.stl") = true)
    as H2 by (vm_compute; reflexivity).
  assert (Str.has_slash "_convex" = false) as H3 by reflexivity.
  assert (os.stat Sample.w0
            (pathlib.path_str (pathlib.make_child_relpath (pathlib.Path ".") "cube.stl"))
            = Some (File (Stl Sample.tetra))) as H4 by (vm_compute; reflexivity).
  assert (4 ≤ length (np_unique row_isort (reshape Sample.tetra)))%nat as H5
    by (vm_compute; lia).
  assert (Sample.hull (np_unique row_isort (reshape Sample.tetra))
            = inr [(0, 1, 2); (0, 1, 3); (0, 2, 3); (1, 2, 3)]) as H6
    by (vm_compute; reflexivity).
  assert (forallb (simplex_ok (length (np_unique row_isort (reshape Sample.tetra))))
            [(0, 1, 2); (0, 1, 3); (0, 2, 3); (1, 2, 3)] = true) as H7
    by (vm_compute; reflexivity).
  split_and!; [done..| |];
    apply (dot_output_directory_fails row_isort Sample.hull "." "_convex"
             (pathlib.make_child_relpath (pathlib.Path ".") "cube.stl") []
             Sample.w0 Sample.tetra _ H1 H2 H3 H4 H5 H6 H7).
Defined.

(** The name [a.b.STL] *)
Lemma is_stl_iff_witness :
  pathlib.name (pathlib.Path "/work/a.b.STL") = "a.b" +:+ ".STL" ∧
  "a.b" ≠ "" ∧ Str.lower ".STL" = ".stl" ∧
  is_stl (pathlib.Path "/work/a.b.STL") = true ∧
  pathlib.stem (pathlib.Path "/work/a.b.STL") = "a.b" ∧
  pathlib.suffix (pathlib.Path "/work/a.b.STL") = ".STL".
Proof.
  assert (pathlib.name (pathlib.Path "/work/a.b.STL") = "a.b" +:+ ".STL") as H1
    by (vm_compute; reflexivity).
  assert ("a.b" ≠ "") as H2 by discriminate.
  assert (Str.lower ".STL" = ".stl") as H3 by reflexivity.
  destruct (is_stl_iff (pathlib.Path "/work/a.b.STL")) as [[_ Hacc] Hparts].
  destruct (Hparts "a.b" ".STL" H1 H2 H3) as [Hs Hx].
  split_and!; [exact H1|exact H2|exact H3| |exact Hs|exact Hx].
  apply Hacc. exists "a.b", ".STL". split_and!; [exact H1|exact H2|exact H3].
Defined.

(** [target/part_007_convex.stl], the output for [parts/part_007.stl] *)
Lemma outputs_are_inputs_again_witness :
  is_stl (pathlib.Path "parts/part_007.stl") = true ∧
  Str.has_slash "_convex" = false ∧
  is_stl (out_path (pathlib.Path "target") (pathlib.Path "parts/part_007.stl") "_convex")
    = true ∧
  out_name (out_path (pathlib.Path "target") (pathlib.Path "parts/part_007.stl") "_convex")
    "_convex" = "part_007_convex_convex.stl".
Proof.
  assert (is_stl (pathlib.Path "parts/part_007.stl") = true) as H1
    by (vm_compute; reflexivity).
  assert (Str.has_slash "_convex" = false) as H2 by reflexivity.
  destruct (outputs_are_inputs_again (pathlib.Path "target")
              (pathlib.Path "parts/part_007.stl") "_convex" H1 H2) as (Ha & _ & Hb).
  split_and!; [done..|exact Ha|exact Hb].
Defined.

(** [/work/flat.stl] and [/work/flat.STL] *)
Lemma extension_case_collision_witness :
  "flat" ≠ "" ∧ Str.has_slash "flat" = false ∧
  Str.lower ".stl" = ".stl" ∧ Str.lower ".STL" = ".stl" ∧ ".stl" ≠ ".STL" ∧
  is_stl (pathlib.make_child_relpath (pathlib.Path "/work") "flat.stl") = true ∧
  is_stl (pathlib.make_child_relpath (pathlib.Path "/work") "flat.STL") = true ∧
  pathlib.make_child_relpath (pathlib.Path "/work") "flat.stl"
    ≠ pathlib.make_child_relpath (pathlib.Path "/work") "flat.STL" ∧
  out_path (pathlib.Path "out")
      (pathlib.make_child_relpath (pathlib.Path "/work") "flat.stl") "_convex"
    = out_path (pathlib.Path "out")
        (pathlib.make_child_relpath (pathlib.Path "/work") "flat.STL") "_convex".
Proof.
  assert ("flat" ≠ "") as H1 by discriminate.
  assert (Str.has_slash "flat" = false) as H2 by reflexivity.
  assert (Str.lower ".stl" = ".stl") as H3 by reflexivity.
  assert (Str.lower ".STL" = ".stl") as H4 by reflexivity.
  assert (".stl" ≠ ".STL") as H5 by discriminate.
  split_and!; [done..| | | |];
    apply (extension_case_collision "/work" "flat" ".stl" ".STL" "_convex"
             (pathlib.Path "out") H1 H2 H3 H4 H5).
Defined.

(** The point cloud of a mesh with NaN coordinates under insertion sort *)
Lemma point_cloud_of_any_mesh_witness :
  (∀ p, In p (np_unique row_isort (reshape Sample.nan_mesh)) →
        In p (reshape Sample.nan_mesh)) ∧
  StronglySorted (λ p q, row_eqb p q = false)
    (np_unique row_isort (reshape Sample.nan_mesh)) ∧
  (length (np_unique row_isort (reshape Sample.nan_mesh)) ≤ 3 * length Sample.nan_mesh)%nat.
Proof.
  destruct (point_cloud_of_any_mesh row_isort row_isort_Permutation row_isort_Sorted
              Sample.nan_mesh) as (Ha & _ & Hb & Hc & _).
  split_and!; [exact Ha|exact Hb|exact Hc].
Defined.

(** The batch from [/work] into a new directory [/out] *)
Lemma batch_leaves_both_directories_witness :
  Sample.batch "/work" (Some "/out") (Some "_convex") Sample.w0
    = Ok tt (final (Sample.batch "/work" (Some "/out") (Some "_convex") Sample.w0)) ∧
  os.path_isdir Sample.w0 "/out" = false ∧
  os.path_isdir (final (Sample.batch "/work" (Some "/out") (Some "_convex") Sample.w0))
    (pathlib.path_str (pathlib.Path "/work")) = true ∧
  os.path_isdir (final (Sample.batch "/work" (Some "/out") (Some "_convex") Sample.w0))
    (pathlib.path_str (output_dir_of "/work" (Some "/out"))) = true.
Proof.
  assert (Sample.batch "/work" (Some "/out") (Some "_convex") Sample.w0
            = Ok tt (final (Sample.batch "/work" (Some "/out") (Some "_convex")
                              Sample.w0))) as H1 by (vm_compute; reflexivity).
  assert (os.path_isdir Sample.w0 "/out" = false) as H2 by (vm_compute; reflexivity).
  split_and!; [done..| |];
    apply (batch_leaves_both_directories row_isort Sample.hull "/work" (Some "/out")
             (Some "_convex") Sample.w0 _ H1).
Defined.

(** The batch called on the file [/work/cube.stl] *)
Lemma output_directory_is_a_file_witness :
  os.path_isfile Sample.w0
    (pathlib.path_str (output_dir_of "/work/cube.stl" None)) = true ∧
  Sample.batch "/work/cube.stl" None None Sample.w0 = Raise FileExistsError Sample.w0.
Proof.
  assert (os.path_isfile Sample.w0
            (pathlib.path_str (output_dir_of "/work/cube.stl" None)) = true) as H1
    by (vm_compute; reflexivity).
  split; [done|].
  exact (output_directory_is_a_file row_isort Sample.hull "/work/cube.stl" None None
           Sample.w0 H1).
Defined.

(** * The claims on names, the scanner and repeated runs, on sample data *)

(** C2 on the batch from [/work] into a new directory [/out] with suffix
    [_convex]: [cube.stl] is the first file and is written to
    [/out/cube_convex.stl]. *)
Lemma C2_witness :
  Str.has_slash "_convex" = false ∧
  pathlib.name (out_path (pathlib.Path "/out") Sample.cube_path "_convex")
    = "cube_convex.stl" ∧
  pathlib.path_str (out_path (pathlib.Path "/out") Sample.cube_path "_convex")
    = "/out/cube_convex.stl" ∧
  (∀ loc d,
     fs (final (Sample.batch "/work" (Some "/out") (Some "_convex") Sample.w0)) !! loc
       = Some (File d) →
     fs Sample.w0 !! loc = Some (File d) ∨
     ∃ w1 locd entries in_path g,
       pathlib.mkdir (pathlib.Path "/out") Sample.w0 = Ok tt w1 ∧
       os.resolve w1 "/out" = inr locd ∧
       pathlib.iterdir (pathlib.Path "/work") w1 = Ok entries w1 ∧
       in_path ∈ entries ∧ is_stl in_path = true ∧
       loc = locd ++ [pathlib.stem in_path +:+ "_convex" +:+ ".stl"] ∧
       d = Stl g) ∧
  ∃ g,
    mapM (facet (np_unique row_isort (reshape Sample.tetra)))
      [(0, 1, 2); (0, 1, 3); (0, 2, 3); (1, 2, 3)] = Some g ∧
    Sample.batch "/work" (Some "/out") (Some "_convex") Sample.w0 =
      for_each_file row_isort Sample.hull (pathlib.Path "/out") "_convex"
        [pathlib.Path "/work/flat.STL"; pathlib.Path "/work/square.stl"]
        (logged (INFO_saved "/out/cube_convex.stl")
           (with_node ["out"; "cube_convex.stl"] (File (Stl g))
              (logged (INFO_loaded "/work/cube.stl" 4)
                 (logged (INFO_found 3 "/work")
                    (final (pathlib.mkdir (pathlib.Path "/out") Sample.w0)))))).
Proof.
  assert (Str.has_slash "_convex" = false) as HX by reflexivity.
  destruct (C2_output_file_name row_isort Sample.hull "/work" (Some "/out")
              (Some "_convex") HX) as (Hname & Hfiles & Hfirst & _ & _).
  assert (is_stl Sample.cube_path = true) as Hstl by (vm_compute; reflexivity).
  destruct (Hname Sample.cube_path Hstl) as [Hn Hp].
  set (w1 := final (pathlib.mkdir (pathlib.Path "/out") Sample.w0)).
  set (entries := match pathlib.iterdir (pathlib.Path "/work") w1 with
                  | Ok e _ => e
                  | Raise _ _ => []
                  end).
  assert (pathlib.mkdir (output_dir_of "/work" (Some "/out")) Sample.w0 = Ok tt w1)
    as H1 by (vm_compute; reflexivity).
  assert (pathlib.iterdir (pathlib.Path "/work") w1 = Ok entries w1) as H2
    by (vm_compute; reflexivity).
  assert (pathlib.sorted (List.filter is_stl entries)
            = Sample.cube_path
                :: [pathlib.Path "/work/flat.STL"; pathlib.Path "/work/square.stl"])
    as H3 by (vm_compute; reflexivity).
  assert (os.stat w1 (pathlib.path_str Sample.cube_path)
            = Some (File (Stl Sample.tetra))) as H4 by (vm_compute; reflexivity).
  assert (4 ≤ length (np_unique row_isort (reshape Sample.tetra)))%nat as H5
    by (vm_compute; lia).
  assert (Sample.hull (np_unique row_isort (reshape Sample.tetra))
            = inr [(0, 1, 2); (0, 1, 3); (0, 2, 3); (1, 2, 3)]) as H6
    by (vm_compute; reflexivity).
  assert (forallb (simplex_ok (length (np_unique row_isort (reshape Sample.tetra))))
            [(0, 1, 2); (0, 1, 3); (0, 2, 3); (1, 2, 3)] = true) as H7
    by (vm_compute; reflexivity).
  assert (os.resolve w1 (pathlib.path_str (output_dir_of "/work" (Some "/out")))
            = inr ["out"]) as H8 by (vm_compute; reflexivity).
  assert (pathlib.path_str (output_dir_of "/work" (Some "/out")) ≠ ".") as H9
    by (vm_compute; discriminate).
  assert (fs w1 !! (["out"] ++ [pathlib.stem Sample.cube_path +:+ "_convex" +:+ ".stl"])
            ≠ Some Dir) as H10 by (vm_compute; discriminate).
  split_and!; [exact HX|exact Hn|exact Hp|exact (Hfiles Sample.w0)|].
  exact (Hfirst Sample.w0 w1 entries Sample.cube_path _ Sample.tetra _ ["out"]
           H1 H2 H3 H4 H5 H6 H7 H8 H9 H10).
Defined.

(** C2 fails for a suffix with a slash: with suffix [/x] the output path
    of [part_007.stl] is [target/part_007/x.stl], a file named [x.stl] in
    a subdirectory, and the batch from [/work] into [/out] writes the hull
    of [cube.stl] to [/out/cube/x.stl]. *)
Lemma C2_counterexample :
  pathlib.stem (pathlib.Path "parts/part_007.stl") = "part_007" ∧
  pathlib.path_str
    (out_path (pathlib.Path "target") (pathlib.Path "parts/part_007.stl") "/x")
    = "target/part_007/x.stl" ∧
  pathlib.name
    (out_path (pathlib.Path "target") (pathlib.Path "parts/part_007.stl") "/x")
    ≠ "part_007" +:+ "/x" +:+ ".stl" ∧
  pathlib.tail
    (out_path (pathlib.Path "target") (pathlib.Path "parts/part_007.stl") "/x")
    ≠ pathlib.tail (pathlib.Path "target") ++ ["part_007" +:+ "/x" +:+ ".stl"] ∧
  os.path_isfile Sample.w0 "/out/cube/x.stl" = false ∧
  os.path_isfile (final (Sample.batch "/work" (Some "/out") (Some "/x") Sample.w0))
    "/out/cube/x.stl" = true ∧
  fs (final (Sample.batch "/work" (Some "/out") (Some "/x") Sample.w0))
    !! ["out"; "cube" +:+ "/x" +:+ ".stl"] = None.
Proof.
  split_and!; try (vm_compute; reflexivity); vm_compute; discriminate.
Qed.

(** C5 on [/work], which holds three STL files and a text file, and on
    [/empty], which holds none *)
Lemma C5_witness :
  os.resolve Sample.w0 (pathlib.path_str (pathlib.Path "/work")) = inr ["work"] ∧
  fs Sample.w0 !! ["work"] = Some Dir ∧
  os.resolve Sample.w0 (pathlib.path_str (pathlib.Path "/empty")) = inr ["empty"] ∧
  fs Sample.w0 !! ["empty"] = Some Dir ∧
  (∀ output_dir suffix,
     scan_and_convert row_isort Sample.hull (pathlib.Path "/work") output_dir suffix
       Sample.w0 =
     for_each_file row_isort Sample.hull output_dir suffix
       [pathlib.Path "/work/cube.stl"; pathlib.Path "/work/flat.STL";
        pathlib.Path "/work/square.stl"]
       (logged (INFO_found 3 "/work") Sample.w0)) ∧
  pathlib.iterdir (pathlib.Path "/empty") Sample.w0
    = Ok [pathlib.Path "/empty/readme.md"] Sample.w0 ∧
  batch_convex_hull_generation row_isort Sample.hull "/empty" None None Sample.w0
    = Ok tt (logged (WARN_no_stl_files "/empty") Sample.w0).
Proof.
  assert (os.resolve Sample.w0 (pathlib.path_str (pathlib.Path "/work"))
            = inr ["work"]) as H1 by (vm_compute; reflexivity).
  assert (fs Sample.w0 !! ["work"] = Some Dir) as H2 by (vm_compute; reflexivity).
  assert (os.resolve Sample.w0 (pathlib.path_str (pathlib.Path "/empty"))
            = inr ["empty"]) as H3 by (vm_compute; reflexivity).
  assert (fs Sample.w0 !! ["empty"] = Some Dir) as H4 by (vm_compute; reflexivity).
  destruct (C5_scanner row_isort Sample.hull "/work" Sample.w0 ["work"] H1 H2)
    as (entries & stl_files & Hit & _ & _ & _ & Hperm & Hscan & _ & _).
  assert (stl_files = [pathlib.Path "/work/cube.stl"; pathlib.Path "/work/flat.STL";
                       pathlib.Path "/work/square.stl"]) as ->.
  { rewrite <- (Hperm entries) by done.
    vm_compute in Hit. injection Hit as <-. vm_compute. reflexivity. }
  destruct (C5_scanner row_isort Sample.hull "/empty" Sample.w0 ["empty"] H3 H4)
    as (entries' & stl_files' & Hit' & _ & _ & _ & Hperm' & _ & _ & Hbatch').
  assert (entries' = [pathlib.Path "/empty/readme.md"]) as ->.
  { vm_compute in Hit'. by injection Hit' as <-. }
  assert (stl_files' = []) as ->.
  { rewrite <- (Hperm' [pathlib.Path "/empty/readme.md"]) by done.
    vm_compute. reflexivity. }
  split_and!; [exact H1|exact H2|exact H3|exact H4|exact Hscan|exact Hit'|].
  exact (Hbatch' None).
Defined.


